(** * UGC content studio: request orchestration of the three API routes

    A shallow embedding of
      - src/lib/schemas.ts                     (the zod schemas),
      - src/lib/supabase-server.ts             (the datastore accessor),
      - src/app/api/gemini/generate/route.ts   (image generation),
      - src/app/api/openai/scenarios/route.ts  (scenario generation),
    together with the properties the specification states about them.

    Conventions of the embedding.
      - A JavaScript string is the list of its UTF-16 code units.
      - A JSON number is an exact rational (the value of its decimal
        literal); rounding to IEEE doubles is not modelled.
      - [undefined] is [None]; a zod [optional()] field is an [option].
      - Calls that leave the process (fetch, the assistant client, the
        datastore insert, the clock) are oracles that see the history of
        effects so far; every effect is appended to a trace.
      - What the collaborators answer is read at the types the code gives
        it: the image provider's body at [GeminiCandidate] and
        [GeminiInlinePart], the insert as [{ error }], a thread message
        as a list of content blocks.
      - [createClient] of the datastore library returns a handle or
        throws, as the library decides from the URL and the key it is
        given; the library is a parameter of the embedding, apart from
        the collaborators. The constructors [new OpenAI] and [new Date]
        return normally. *)

From Stdlib Require Import List String Ascii Bool ZArith NArith QArith Lia.
From Stdlib Require Import DecimalString.
Import ListNotations.

Set Warnings "-register-all".
Close Scope Q_scope.
Open Scope list_scope.

(* ================================================================== *)
(** ** JavaScript strings *)
(* ================================================================== *)

Module JsString.

Definition char16 := N.
Definition jsstring := list char16.

(** An ASCII literal as a JavaScript string. *)
Fixpoint str (s : string) : jsstring :=
  match s with
  | EmptyString => []
  | String a s' => N_of_ascii a :: str s'
  end.

(** The same, with every apostrophe read as a double quote (U+0022), so
    that JSON text can be written down legibly. *)
Definition qstr (s : string) : jsstring :=
  map (fun c => if N.eqb c 39 then 34%N else c) (str s).

Arguments str : simpl never.
Arguments qstr : simpl never.

(** [a === b] *)
Fixpoint eqb (a b : jsstring) : bool :=
  match a, b with
  | [], [] => true
  | x :: a', y :: b' => N.eqb x y && eqb a' b'
  | _, _ => false
  end.

(** [!s] is true exactly for the empty string. *)
Definition truthy (s : jsstring) : bool :=
  match s with [] => false | _ :: _ => true end.

(** [Array.prototype.join] on an array of strings. *)
Fixpoint join (sep : jsstring) (l : list jsstring) : jsstring :=
  match l with
  | [] => []
  | [x] => x
  | x :: rest => x ++ sep ++ join sep rest
  end.

Fixpoint starts_with (p s : jsstring) : bool :=
  match p, s with
  | [], _ => true
  | a :: p', b :: s' => N.eqb a b && starts_with p' s'
  | _ :: _, [] => false
  end.

(** [s.includes(needle)] *)
Fixpoint includes (s needle : jsstring) : bool :=
  starts_with needle s
  || match s with
     | [] => false
     | _ :: s' => includes s' needle
     end.

(** White space and line terminators of ECMAScript, the characters
    [String.prototype.trim] strips. *)
Definition is_js_space (c : char16) : bool :=
  (N.leb 9 c && N.leb c 13) || N.eqb c 32 || N.eqb c 160 || N.eqb c 5760
  || (N.leb 8192 c && N.leb c 8202) || N.eqb c 8232 || N.eqb c 8233
  || N.eqb c 8239 || N.eqb c 8287 || N.eqb c 12288 || N.eqb c 65279.

Fixpoint trim_start (s : jsstring) : jsstring :=
  match s with
  | c :: s' => if is_js_space c then trim_start s' else s
  | [] => []
  end.

Definition trim_end (s : jsstring) : jsstring := rev (trim_start (rev s)).

Definition trim (s : jsstring) : jsstring := trim_end (trim_start s).

(** [s.replace(/pat/g, "")] for a pattern that is a literal, non-empty
    string: scanning from the left, every match is dropped and the scan
    resumes after it. [skip] counts the characters of the current match
    that are still to be dropped. *)
Fixpoint remove_all_from (pat : jsstring) (skip : nat) (s : jsstring) : jsstring :=
  match s with
  | [] => []
  | c :: s' =>
      match skip with
      | S k => remove_all_from pat k s'
      | O =>
          if starts_with pat s
          then remove_all_from pat (Nat.pred (List.length pat)) s'
          else c :: remove_all_from pat 0 s'
      end
  end.

Definition remove_all (pat s : jsstring) : jsstring := remove_all_from pat 0 s.

End JsString.

Import JsString.

(* ================================================================== *)
(** ** JavaScript numbers *)
(* ================================================================== *)

Module JsNumber.

(** [Number.isInteger] *)
Definition is_integer (q : Q) : bool :=
  Z.eqb (Z.modulo (Qnum q) (Zpos (Qden q))) 0.

Definition to_Z (q : Q) : Z := Z.div (Qnum q) (Zpos (Qden q)).

Definition decimal (z : Z) : jsstring := str (NilZero.string_of_int (Z.to_int z)).

(** The part of the runtime that is not modelled in detail: the digits
    [Number.prototype.toString] produces for a number that is not an
    integer below 10^21 in magnitude. *)
Class Format := { toString_other : Q -> jsstring }.

(** [String(n)], as a template literal computes it. *)
Definition toString {F : Format} (q : Q) : jsstring :=
  if is_integer q && Z.ltb (Z.abs (to_Z q)) (10 ^ 21)
  then decimal (to_Z q)
  else toString_other (Qred q).

End JsNumber.

(* ================================================================== *)
(** ** JSON values and [JSON.parse] *)
(* ================================================================== *)

Module Json.

Inductive value :=
| JNull
| JBool (b : bool)
| JNum (q : Q)
| JStr (s : jsstring)
| JArr (items : list value)
| JObj (fields : list (jsstring * value)).

(** Own-property lookup, [o[k]]; [None] is [undefined]. *)
Fixpoint get (k : jsstring) (fields : list (jsstring * value)) : option value :=
  match fields with
  | [] => None
  | (k', v) :: rest => if JsString.eqb k k' then Some v else get k rest
  end.

(** Property assignment, [o[k] = v]: a repeated key keeps its place and
    takes the later value. *)
Fixpoint set (k : jsstring) (v : value) (fields : list (jsstring * value))
  : list (jsstring * value) :=
  match fields with
  | [] => [(k, v)]
  | (k', v') :: rest =>
      if JsString.eqb k k' then (k, v) :: rest else (k', v') :: set k v rest
  end.

(** *** Tokens *)

Inductive token :=
| TLBrace | TRBrace | TLBrack | TRBrack | TColon | TComma
| TString (s : jsstring)
| TNumber (q : Q)
| TTrue | TFalse | TNull.

Definition is_json_space (c : char16) : bool :=
  N.eqb c 9 || N.eqb c 10 || N.eqb c 13 || N.eqb c 32.

Definition is_digit (c : char16) : bool := N.leb 48 c && N.leb c 57.

Definition is_number_char (c : char16) : bool :=
  is_digit c || N.eqb c 43 || N.eqb c 45 || N.eqb c 46 || N.eqb c 69 || N.eqb c 101.

Definition is_letter (c : char16) : bool := N.leb 97 c && N.leb c 122.

Definition hex_value (c : char16) : option N :=
  if is_digit c then Some (c - 48)%N
  else if N.leb 65 c && N.leb c 70 then Some (c - 55)%N
  else if N.leb 97 c && N.leb c 102 then Some (c - 87)%N
  else None.

Fixpoint take_digits (s : jsstring) : jsstring * jsstring :=
  match s with
  | c :: s' =>
      if is_digit c
      then let (d, r) := take_digits s' in (c :: d, r)
      else ([], s)
  | [] => ([], [])
  end.

Definition digits_value (ds : jsstring) : Z :=
  fold_left (fun acc c => (10 * acc + (Z.of_N c - 48))%Z) ds 0%Z.

(** The value [m * 10^e] as a rational. *)
Definition scaled (m e : Z) : Q :=
  if Z.leb 0 e then Qmake (m * 10 ^ e) 1 else Qmake m (Z.to_pos (10 ^ (- e))).

(** The exponent part of a number literal, after the fraction. *)
Definition number_exponent (s : jsstring) : option Z :=
  match s with
  | [] => Some 0%Z
  | c :: r =>
      if N.eqb c 101 || N.eqb c 69 then
        let (neg, r1) :=
          match r with
          | sg :: r' =>
              if N.eqb sg 45 then (true, r')
              else if N.eqb sg 43 then (false, r') else (false, r)
          | [] => (false, r)
          end in
        match take_digits r1 with
        | ((_ :: _) as ds, []) =>
            Some (if neg then (- digits_value ds)%Z else digits_value ds)
        | _ => None
        end
      else None
  end.

(** A JSON number literal: an optional minus sign; an integer part, a
    single 0 or digits that do not start with 0; an optional fraction, a
    point and one or more digits; an optional exponent, e or E with an
    optional sign and one or more digits. *)
Definition number_of_literal (s : jsstring) : option Q :=
  let (neg, s1) :=
    match s with
    | c :: r => if N.eqb c 45 then (true, r) else (false, s)
    | [] => (false, s)
    end in
  let (ip, s2) := take_digits s1 in
  let leading_ok :=
    match ip with
    | [] => false
    | [_] => true
    | c :: _ :: _ => negb (N.eqb c 48)
    end in
  if negb leading_ok then None else
  let frac :=
    match s2 with
    | c :: r =>
        if N.eqb c 46 then
          match take_digits r with
          | ((_ :: _) as fp, r') => Some (fp, r')
          | _ => None
          end
        else Some ([], s2)
    | [] => Some ([], [])
    end in
  match frac with
  | None => None
  | Some (fp, s3) =>
      match number_exponent s3 with
      | None => None
      | Some e =>
          let m := digits_value (ip ++ fp) in
          Some (scaled (if neg then (- m)%Z else m) (e - Z.of_nat (List.length fp)))
      end
  end.

Definition word_token (w : jsstring) : option token :=
  if JsString.eqb w (str "true") then Some TTrue
  else if JsString.eqb w (str "false") then Some TFalse
  else if JsString.eqb w (str "null") then Some TNull
  else None.

(** *** The lexer: a transition function folded over the text *)

Inductive lex_state :=
| LDefault
| LString (buf : jsstring)
| LEscape (buf : jsstring)
| LUnicode (buf : jsstring) (digits : list N)
| LNumber (buf : jsstring)
| LWord (buf : jsstring).

(** Buffers hold the characters read so far, last one first. *)
Definition lex_default (c : char16) : option (lex_state * list token) :=
  if is_json_space c then Some (LDefault, [])
  else if N.eqb c 123 then Some (LDefault, [TLBrace])
  else if N.eqb c 125 then Some (LDefault, [TRBrace])
  else if N.eqb c 91 then Some (LDefault, [TLBrack])
  else if N.eqb c 93 then Some (LDefault, [TRBrack])
  else if N.eqb c 58 then Some (LDefault, [TColon])
  else if N.eqb c 44 then Some (LDefault, [TComma])
  else if N.eqb c 34 then Some (LString [], [])
  else if N.eqb c 45 || is_digit c then Some (LNumber [c], [])
  else if is_letter c then Some (LWord [c], [])
  else None.

Definition escape_char (c : char16) : option char16 :=
  if N.eqb c 34 then Some 34%N
  else if N.eqb c 92 then Some 92%N
  else if N.eqb c 47 then Some 47%N
  else if N.eqb c 98 then Some 8%N
  else if N.eqb c 102 then Some 12%N
  else if N.eqb c 110 then Some 10%N
  else if N.eqb c 114 then Some 13%N
  else if N.eqb c 116 then Some 9%N
  else None.

Definition lex_finish (st : lex_state) : option (list token) :=
  match st with
  | LDefault => Some []
  | LNumber buf => option_map (fun q => [TNumber q]) (number_of_literal (rev buf))
  | LWord buf => option_map (fun t => [t]) (word_token (rev buf))
  | LString _ | LEscape _ | LUnicode _ _ => None
  end.

Definition lex_step (st : lex_state) (c : char16) : option (lex_state * list token) :=
  match st with
  | LDefault => lex_default c
  | LString buf =>
      if N.eqb c 34 then Some (LDefault, [TString (rev buf)])
      else if N.eqb c 92 then Some (LEscape buf, [])
      else if N.ltb c 32 then None
      else Some (LString (c :: buf), [])
  | LEscape buf =>
      if N.eqb c 117 then Some (LUnicode buf [], [])
      else option_map (fun e => (LString (e :: buf), [])) (escape_char c)
  | LUnicode buf ds =>
      match hex_value c with
      | None => None
      | Some h =>
          match ds with
          | [a; b; d] => Some (LString ((a * 4096 + b * 256 + d * 16 + h)%N :: buf), [])
          | _ => Some (LUnicode buf (ds ++ [h]), [])
          end
      end
  | LNumber buf =>
      if is_number_char c then Some (LNumber (c :: buf), [])
      else
        match lex_finish st, lex_default c with
        | Some done, Some (st', toks) => Some (st', done ++ toks)
        | _, _ => None
        end
  | LWord buf =>
      if is_letter c then Some (LWord (c :: buf), [])
      else
        match lex_finish st, lex_default c with
        | Some done, Some (st', toks) => Some (st', done ++ toks)
        | _, _ => None
        end
  end.

Fixpoint lex (st : lex_state) (s : jsstring) : option (list token) :=
  match s with
  | [] => lex_finish st
  | c :: s' =>
      match lex_step st c with
      | None => None
      | Some (st', toks) => option_map (app toks) (lex st' s')
      end
  end.

(** *** The parser: a pushdown automaton over the tokens *)

(** An enclosing container that waits for the value being read. *)
Inductive frame :=
| FArr (items : list value)
| FObj (fields : list (jsstring * value)) (key : jsstring).

Inductive parse_state :=
| SValue (ctx : list frame)
| SArrFirst (ctx : list frame)
| SObjFirst (ctx : list frame)
| SKey (ctx : list frame) (fields : list (jsstring * value))
| SColon (ctx : list frame) (fields : list (jsstring * value)) (key : jsstring)
| SArrNext (ctx : list frame) (items : list value)
| SObjNext (ctx : list frame) (fields : list (jsstring * value))
| SDone (v : value).

Definition complete (ctx : list frame) (v : value) : parse_state :=
  match ctx with
  | [] => SDone v
  | FArr items :: ctx' => SArrNext ctx' (items ++ [v])
  | FObj fields key :: ctx' => SObjNext ctx' (set key v fields)
  end.

Definition begin_value (ctx : list frame) (t : token) : option parse_state :=
  match t with
  | TNull => Some (complete ctx JNull)
  | TTrue => Some (complete ctx (JBool true))
  | TFalse => Some (complete ctx (JBool false))
  | TNumber q => Some (complete ctx (JNum q))
  | TString s => Some (complete ctx (JStr s))
  | TLBrack => Some (SArrFirst ctx)
  | TLBrace => Some (SObjFirst ctx)
  | TRBrack | TRBrace | TColon | TComma => None
  end.

Definition parse_step (st : parse_state) (t : token) : option parse_state :=
  match st, t with
  | SValue ctx, _ => begin_value ctx t
  | SArrFirst ctx, TRBrack => Some (complete ctx (JArr []))
  | SArrFirst ctx, _ => begin_value (FArr [] :: ctx) t
  | SObjFirst ctx, TRBrace => Some (complete ctx (JObj []))
  | SObjFirst ctx, TString k => Some (SColon ctx [] k)
  | SKey ctx fields, TString k => Some (SColon ctx fields k)
  | SColon ctx fields k, TColon => Some (SValue (FObj fields k :: ctx))
  | SArrNext ctx items, TComma => Some (SValue (FArr items :: ctx))
  | SArrNext ctx items, TRBrack => Some (complete ctx (JArr items))
  | SObjNext ctx fields, TComma => Some (SKey ctx fields)
  | SObjNext ctx fields, TRBrace => Some (complete ctx (JObj fields))
  | _, _ => None
  end.

Fixpoint parse_tokens (st : parse_state) (ts : list token) : option value :=
  match ts with
  | [] => match st with SDone v => Some v | _ => None end
  | t :: ts' =>
      match parse_step st t with
      | None => None
      | Some st' => parse_tokens st' ts'
      end
  end.

(** [JSON.parse(text)]; [None] is the SyntaxError it throws. *)
Definition parse (text : jsstring) : option value :=
  match lex LDefault text with
  | None => None
  | Some ts => parse_tokens (SValue []) ts
  end.

End Json.

Import Json.

(* ================================================================== *)
(** ** zod: the combinators the schemas are built from *)
(* ================================================================== *)

Module Zod.

(** A schema reads a value that may be [undefined] and either accepts it,
    with the parsed data, or rejects it. The issue list of a rejection is
    not modelled. *)
Definition schema (A : Type) := option Json.value -> option A.

Definition string : schema jsstring :=
  fun v => match v with Some (JStr s) => Some s | _ => None end.

Definition number : schema Q :=
  fun v => match v with Some (JNum q) => Some q | _ => None end.

Definition boolean : schema bool :=
  fun v => match v with Some (JBool b) => Some b | _ => None end.

(** A refinement added to a schema, such as [.min(1)]. *)
Definition check {A} (p : A -> bool) (s : schema A) : schema A :=
  fun v =>
    match s v with
    | Some a => if p a then Some a else None
    | None => None
    end.

(** [.min(n)] on a string or an array: at least [n] elements. *)
Definition min_length {A} (n : nat) : schema (list A) -> schema (list A) :=
  check (fun l => Nat.leb n (List.length l)).

Definition int : schema Q -> schema Q := check JsNumber.is_integer.

Definition min (n : Z) : schema Q -> schema Q :=
  check (fun q => Qle_bool (inject_Z n) q).

Definition max (n : Z) : schema Q -> schema Q :=
  check (fun q => Qle_bool q (inject_Z n)).

Definition optional {A} (s : schema A) : schema (option A) :=
  fun v =>
    match v with
    | None => Some None
    | Some _ => option_map Some (s v)
    end.

(** [.default(d)]: an undefined input is replaced by [d], which the inner
    schema then parses. *)
Definition default {A} (d : Json.value) (s : schema A) : schema A :=
  fun v =>
    match v with
    | None => s (Some d)
    | Some _ => s v
    end.

Fixpoint all {A} (s : schema A) (items : list Json.value) : option (list A) :=
  match items with
  | [] => Some []
  | x :: rest =>
      match s (Some x), all s rest with
      | Some a, Some l => Some (a :: l)
      | _, _ => None
      end
  end.

Definition array {A} (s : schema A) : schema (list A) :=
  fun v => match v with Some (JArr items) => all s items | _ => None end.

(** [z.object(shape)]: the input must be an object; keys outside the
    shape are dropped. *)
Definition object {A} (shape : list (jsstring * Json.value) -> option A) : schema A :=
  fun v => match v with Some (JObj fields) => shape fields | _ => None end.

Definition field {A} (name : String.string) (s : schema A)
  (fields : list (jsstring * Json.value)) : option A :=
  s (Json.get (str name) fields).

End Zod.

Notation "'let?' x ':=' e 'in' k" :=
  (match e with Some x => k | None => None end)
  (at level 10, x name, e at level 100, k at level 200).

(* ================================================================== *)
(** ** src/lib/schemas.ts: the data model *)
(* ================================================================== *)

Record Scenario := mkScenario {
  id : jsstring;
  title : jsstring;
  summary : jsstring;
  setting : option jsstring;
  shotList : option (list jsstring);
  hook : option jsstring;
}.

Definition scenarioSchema : Zod.schema Scenario :=
  Zod.object (fun o =>
    let? i := Zod.field "id" Zod.string o in
    let? t := Zod.field "title" Zod.string o in
    let? s := Zod.field "summary" Zod.string o in
    let? st := Zod.field "setting" (Zod.optional Zod.string) o in
    let? sl := Zod.field "shotList" (Zod.optional (Zod.array Zod.string)) o in
    let? h := Zod.field "hook" (Zod.optional Zod.string) o in
    Some (mkScenario i t s st sl h)).

Record ScenarioResponse := mkScenarioResponse {
  scenarios : list Scenario;
}.

Definition scenarioResponseSchema : Zod.schema ScenarioResponse :=
  Zod.object (fun o =>
    let? l := Zod.field "scenarios" (Zod.min_length 1 (Zod.array scenarioSchema)) o in
    Some (mkScenarioResponse l)).

Record GenerationSettings := mkSettings {
  focusOnProduct : Q;
  shots : Q;
  visualStyle : jsstring;
  tone : jsstring;
  orientation : jsstring;
  quality : jsstring;
  addMotion : option bool;
  retouchProduct : option bool;
  includeCaptions : option bool;
}.

Definition generationSettingsSchema : Zod.schema GenerationSettings :=
  Zod.object (fun o =>
    let? f := Zod.field "focusOnProduct" (Zod.max 5 (Zod.min 1 Zod.number)) o in
    let? sh := Zod.field "shots" (Zod.max 12 (Zod.min 1 Zod.number)) o in
    let? vs := Zod.field "visualStyle" Zod.string o in
    let? t := Zod.field "tone" Zod.string o in
    let? ori := Zod.field "orientation" Zod.string o in
    let? q := Zod.field "quality" Zod.string o in
    let? am := Zod.field "addMotion" (Zod.optional Zod.boolean) o in
    let? rp := Zod.field "retouchProduct" (Zod.optional Zod.boolean) o in
    let? ic := Zod.field "includeCaptions" (Zod.optional Zod.boolean) o in
    Some (mkSettings f sh vs t ori q am rp ic)).

(** The JSON text of a scenario and of a batch, as [JSON.parse] returns
    it: an absent optional field is an absent key. *)
Definition optional_field (k : String.string) (v : option Json.value)
  : list (jsstring * Json.value) :=
  match v with Some x => [(str k, x)] | None => [] end.

Definition scenario_json (s : Scenario) : Json.value :=
  JObj ([(str "id", JStr (id s)); (str "title", JStr (title s));
         (str "summary", JStr (summary s))]
        ++ optional_field "setting" (option_map JStr (setting s))
        ++ optional_field "shotList"
             (option_map (fun l => JArr (map JStr l)) (shotList s))
        ++ optional_field "hook" (option_map JStr (hook s))).

Definition batch_json (b : ScenarioResponse) : Json.value :=
  JObj [(str "scenarios", JArr (map scenario_json (scenarios b)))].

(** Truthiness of an optional boolean, as [if (settings.addMotion)] tests it. *)
Definition flag (b : option bool) : bool :=
  match b with Some true => true | _ => false end.

(** [x ?? d] *)
Definition nullish {A} (x : option A) (d : A) : A :=
  match x with Some v => v | None => d end.

(* ================================================================== *)
(** ** generate/route.ts: buildPrompt *)
(* ================================================================== *)

Section BuildPrompt.
Context {F : JsNumber.Format}.

Definition prompt_shotList (scenario : Scenario) : jsstring :=
  match shotList scenario with
  | Some ((_ :: _) as items) => str "Key shots: " ++ join (str ", ") items ++ str "."
  | _ => []
  end.

Definition prompt_notes (settings : GenerationSettings) : list jsstring :=
  [ str "Tone: " ++ tone settings;
    str "Visual style: " ++ visualStyle settings;
    str "Orientation: " ++ orientation settings;
    str "Quality: " ++ quality settings;
    str "Focus level (1-5): " ++ JsNumber.toString (focusOnProduct settings) ]
  ++ (if flag (addMotion settings)
      then [str "Add subtle motion-friendly composition cues"] else [])
  ++ (if flag (retouchProduct settings)
      then [str "Ensure the product looks polished and retouched"] else [])
  ++ (if flag (includeCaptions settings)
      then [str "Include natural caption overlay space in the composition"] else []).

Definition buildPrompt (scenario : Scenario) (productName : option jsstring)
  (settings : GenerationSettings) : jsstring :=
  str "Create a photorealistic UGC marketing photo for "
  ++ nullish productName (str "the featured product") ++ str ". "
  ++ str "Scenario title: " ++ title scenario ++ str ". "
  ++ summary scenario ++ str ". "
  ++ nullish (setting scenario) [] ++ str ". "
  ++ prompt_shotList scenario ++ str " "
  ++ str "The audience should immediately understand how it solves their need. "
  ++ str "Keep the composition authentic, candid, and ready for social media. "
  ++ join (str " | ") (prompt_notes settings).

End BuildPrompt.

(* ================================================================== *)
(** ** The process and the world around it *)
(* ================================================================== *)

(** [process.env]: a variable that is not set reads as [undefined]. *)
Record Env := mkEnv {
  OPENAI_API_KEY : option jsstring;
  OPENAI_ASSISTANT_ID : option jsstring;
  GOOGLE_GEMINI_API_KEY : option jsstring;
  GOOGLE_GEMINI_IMAGE_MODEL : option jsstring;
  SUPABASE_URL : option jsstring;
  SUPABASE_SERVICE_ROLE_KEY : option jsstring;
}.

(** [!v] for an environment variable: unset or empty. *)
Definition configured (v : option jsstring) : option jsstring :=
  match v with
  | Some s => if truthy s then Some s else None
  | None => None
  end.

(** The handle [createClient] returns. [serial] tells two handles apart:
    it counts the handles constructed before this one. *)
Record SupabaseClient := mkClient {
  serial : nat;
  supabaseUrl : jsstring;
  supabaseKey : jsstring;
  autoRefreshToken : bool;
  persistSession : bool;
}.

(** The image provider's answer, at the types route.ts declares for it. *)
Record InlineData := mkInlineData {
  inline_data : option jsstring;
  inline_mimeType : option jsstring;
}.

Record GeminiInlinePart := mkInlinePart {
  inlineData : option InlineData;
}.

Record GeminiContent := mkContent {
  parts : option (list GeminiInlinePart);
}.

Record GeminiCandidate := mkCandidate {
  content : option GeminiContent;
}.

Record GeminiBody := mkGeminiBody {
  candidates : option (list GeminiCandidate);
}.

(** A [fetch] response: [response_json] is [None] when the body is not
    JSON, so that [response.json()] rejects. *)
Record HttpResponse := mkHttpResponse {
  status : Z;
  response_text : jsstring;
  response_json : option GeminiBody;
}.

(** [response.ok]: the status is in the range 200-299. *)
Definition ok (r : HttpResponse) : bool :=
  Z.leb 200 (status r) && Z.leb (status r) 299.

Inductive FetchOutcome :=
| FetchRejects
| FetchResolves (r : HttpResponse).

(** A row of the [ugc_generations] table. *)
Record Row := mkRow {
  thread_id : option jsstring;
  scenario_id : jsstring;
  scenario_title : jsstring;
  scenario_summary : jsstring;
  row_settings : GenerationSettings;
  created_at : jsstring;
}.

Record PostgrestError := mkPostgrestError {
  error_message : jsstring;
}.

(** A content block of an assistant message. *)
Inductive ContentPart :=
| TextPart (value : jsstring)
| OtherPart (type : jsstring).

Record Message := mkMessage {
  role : jsstring;
  message_content : list ContentPart;
}.

(** What the handlers throw, and what the calls they await reject with. *)
Inductive Exn :=
| GeminiFailed (status : Z) (errorBody : jsstring)
| NoImageData
| FetchFailed
| AssistantFailed
| RunNotCompleted (status : jsstring)
| NoTextContent
| SyntaxError
| ZodError
| ClientFailed.

(** [error.message] of the errors the handlers construct themselves. *)
Definition message {F : JsNumber.Format} (e : Exn) : option jsstring :=
  match e with
  | GeminiFailed st body =>
      Some (str "Gemini image generation failed: "
            ++ JsNumber.toString (inject_Z st) ++ str " " ++ body)
  | NoImageData => Some (str "Gemini response did not include image data")
  | RunNotCompleted st => Some (str "Assistant run finished with status " ++ st)
  | NoTextContent => Some (str "Assistant response did not contain text content")
  | _ => None
  end.

(** The effects a handler has on the world, in the order they happen. *)
Inductive Event :=
| Fetch (url apiKey : jsstring) (body : Json.value) (outcome : FetchOutcome)
| CreateClient (client : SupabaseClient)
| Clock (iso : jsstring)
| Insert (client : SupabaseClient) (table : jsstring) (rows : list Row)
    (error : option PostgrestError)
| ConsoleWarn (text : jsstring) (error : PostgrestError)
| ConsoleError (text : jsstring) (error : Exn)
| MessagesCreate (threadId content : jsstring) (accepted : bool)
| RunsCreateAndPoll (threadId assistantId instructions : jsstring)
    (status : option jsstring)
| MessagesList (threadId : jsstring) (data : option (list Message)).

(** The datastore client library the process is linked with:
    [createClient_returns] tells whether its [createClient] returns a
    handle for a URL and a key, or throws (as it does for a URL that is
    not an HTTP or HTTPS URL). *)
Class Library := {
  createClient_returns : jsstring -> jsstring -> bool;
}.

(** The collaborators outside the process. Each answers as a function of
    everything that has happened so far. *)
Class Providers := {
  format :: JsNumber.Format;
  fetch : list Event -> jsstring -> jsstring -> Json.value -> FetchOutcome;
  clock : list Event -> jsstring;
  insert : list Event -> SupabaseClient -> jsstring -> list Row -> option PostgrestError;
  messages_create : list Event -> jsstring -> jsstring -> bool;
  runs_createAndPoll : list Event -> jsstring -> jsstring -> jsstring -> option jsstring;
  messages_list : list Event -> jsstring -> option (list Message);
}.

(** The state of the process: its environment, the module-level variable
    [cachedClient] of supabase-server.ts, and the trace of its effects. *)
Record World := mkWorld {
  env : Env;
  cachedClient : option SupabaseClient;
  trace : list Event;
}.

Inductive Result (A : Type) :=
| Return (a : A)
| Throw (e : Exn).
Arguments Return {A} a.
Arguments Throw {A} e.

(** A computation of the handlers: it runs in a world and leaves a world. *)
Definition M (A : Type) := World -> Result A * World.

Definition ret {A} (a : A) : M A := fun w => (Return a, w).

Definition throw {A} (e : Exn) : M A := fun w => (Throw e, w).

Definition bind {A B} (m : M A) (k : A -> M B) : M B :=
  fun w =>
    match m w with
    | (Return a, w') => k a w'
    | (Throw e, w') => (Throw e, w')
    end.

(** [try { m } catch (error) { handler }] *)
Definition try_catch {A} (m : M A) (handler : Exn -> M A) : M A :=
  fun w =>
    match m w with
    | (Return a, w') => (Return a, w')
    | (Throw e, w') => handler e w'
    end.

Definition emit (e : Event) : M unit :=
  fun w => (Return tt, mkWorld (env w) (cachedClient w) (trace w ++ [e])).

Definition read_env : M Env := fun w => (Return (env w), w).

Definition history : M (list Event) := fun w => (Return (trace w), w).

Notation "x <- m ;; k" := (bind m (fun x => k))
  (at level 61, m at next level, right associativity).
Notation "m ;; k" := (bind m (fun _ => k))
  (at level 61, right associativity).

(** The events a computation added to the trace. *)
Definition emitted (before after : World) : list Event :=
  skipn (List.length (trace before)) (trace after).

(** An entry of the image batch. *)
Record GeminiImagePart := mkImagePart {
  mimeType : jsstring;
  data : jsstring;
  scenario : Scenario;
}.

(** The JSON bodies of the HTTP responses the handlers build. The
    [details] of an [InvalidBody], zod's flattened issue list, is not
    modelled. *)
Inductive Body :=
| ErrorBody (error : jsstring)
| InvalidBody (error : jsstring)
| ImagesBody (images : list GeminiImagePart)
| ScenariosBody (threadId : jsstring) (scenarios : list Scenario).

Record Response := mkResponse {
  response_status : Z;
  response_body : Body;
}.

(** [NextResponse.json(body)] and [NextResponse.json(body, { status })] *)
Definition json_response (body : Body) : Response := mkResponse 200 body.

(** An incoming request: [request_json] is what [req.json()] resolves to,
    [None] when the body is not JSON and it rejects. *)
Record Request := mkRequest {
  request_json : option Json.value;
}.

Definition req_json (req : Request) : M Json.value :=
  match request_json req with
  | Some v => ret v
  | None => throw SyntaxError
  end.

Definition console_warn (text : jsstring) (error : PostgrestError) : M unit :=
  emit (ConsoleWarn text error).

Definition console_error (text : jsstring) (error : Exn) : M unit :=
  emit (ConsoleError text error).

(* ================================================================== *)
(** ** supabase-server.ts *)
(* ================================================================== *)

Definition is_Fetch (e : Event) : bool :=
  match e with Fetch _ _ _ _ => true | _ => false end.

Definition is_Insert (e : Event) : bool :=
  match e with Insert _ _ _ _ => true | _ => false end.

Definition is_CreateClient (e : Event) : bool :=
  match e with CreateClient _ => true | _ => false end.

(** How many handles the process has constructed. *)
Definition constructed (t : list Event) : nat :=
  List.length (filter is_CreateClient t).

Section Accessor.
Context {L : Library}.

(** [createClient(url, key, { auth: { autoRefreshToken: false,
    persistSession: false } })]: a new handle, unless the library throws. *)
Definition createClient (url key : jsstring) : M SupabaseClient :=
  fun w =>
    if createClient_returns url key then
      let c := mkClient (constructed (trace w)) url key false false in
      (Return c, mkWorld (env w) (cachedClient w) (trace w ++ [CreateClient c]))
    else (Throw ClientFailed, w).

Definition read_cachedClient : M (option SupabaseClient) :=
  fun w => (Return (cachedClient w), w).

Definition write_cachedClient (c : SupabaseClient) : M unit :=
  fun w => (Return tt, mkWorld (env w) (Some c) (trace w)).

Definition getSupabaseServerClient : M (option SupabaseClient) :=
  e <- read_env ;;
  match configured (SUPABASE_URL e), configured (SUPABASE_SERVICE_ROLE_KEY e) with
  | Some url, Some key =>
      cached <- read_cachedClient ;;
      match cached with
      | Some c => ret (Some c)
      | None =>
          c <- createClient url key ;;
          write_cachedClient c ;;
          ret (Some c)
      end
  | _, _ => ret None
  end.

End Accessor.

(* ================================================================== *)
(** ** app/api/gemini/generate/route.ts *)
(* ================================================================== *)

Module GenerateRoute.

Record ProductImage := mkProductImage {
  image_data : jsstring;
  image_mimeType : jsstring;
}.

Record Payload := mkPayload {
  threadId : option jsstring;
  productName : option jsstring;
  productImage : ProductImage;
  scenarios : list Scenario;
  settings : GenerationSettings;
}.

Definition productImageSchema : Zod.schema ProductImage :=
  Zod.object (fun o =>
    let? d := Zod.field "data" (Zod.min_length 10 Zod.string) o in
    let? m := Zod.field "mimeType" (Zod.default (JStr (str "image/png")) Zod.string) o in
    Some (mkProductImage d m)).

Definition requestSchema : Zod.schema Payload :=
  Zod.object (fun o =>
    let? t := Zod.field "threadId" (Zod.optional Zod.string) o in
    let? pn := Zod.field "productName" (Zod.optional Zod.string) o in
    let? pi := Zod.field "productImage" productImageSchema o in
    let? sc := Zod.field "scenarios" (Zod.min_length 1 (Zod.array scenarioSchema)) o in
    let? st := Zod.field "settings" generationSettingsSchema o in
    Some (mkPayload t pn pi sc st)).

Definition DEFAULT_MODEL : jsstring := str "gemini-2.5-flash-nano-banana".

Definition endpoint_of (model : jsstring) : jsstring :=
  str "https://generativelanguage.googleapis.com/v1beta/models/"
  ++ model ++ str ":generateContent".

(** The body of the request to the image provider. *)
Definition fetch_body (prompt : jsstring) (image : ProductImage) : Json.value :=
  JObj
    [(str "contents",
      JArr [JObj
        [(str "role", JStr (str "user"));
         (str "parts",
          JArr [JObj [(str "text", JStr prompt)];
                JObj [(str "inlineData",
                       JObj [(str "mimeType", JStr (image_mimeType image));
                             (str "data", JStr (image_data image))])]])]]);
     (str "generationConfig",
      JObj [(str "temperature", JNum (Qmake 85 100));
            (str "topP", JNum (Qmake 95 100));
            (str "topK", JNum (Qmake 32 1));
            (str "responseMimeType", JStr (str "image/png"))])].

Definition has_inlineData (item : GeminiInlinePart) : bool :=
  match inlineData item with Some _ => true | None => false end.

(** [(json.candidates?.[0] ?? null)?.content?.parts?.find((item) => item.inlineData)] *)
Definition find_part (json : GeminiBody) : option GeminiInlinePart :=
  match candidates json with
  | Some (candidate :: _) =>
      match content candidate with
      | Some c =>
          match parts c with
          | Some l => find has_inlineData l
          | None => None
          end
      | None => None
      end
  | _ => None
  end.

(** The pair the loop pushes, unless
    [!part?.inlineData?.data || !part?.inlineData?.mimeType]. *)
Definition image_of (part : option GeminiInlinePart) : option (jsstring * jsstring) :=
  match part with
  | Some p =>
      match inlineData p with
      | Some d =>
          match configured (inline_data d), configured (inline_mimeType d) with
          | Some dat, Some mime => Some (mime, dat)
          | _, _ => None
          end
      | None => None
      end
  | None => None
  end.

Section Handler.
Context {P : Providers} {L : Library}.

Definition do_fetch (url apiKey : jsstring) (body : Json.value) : M HttpResponse :=
  h <- history ;;
  let outcome := fetch h url apiKey body in
  emit (Fetch url apiKey body outcome) ;;
  match outcome with
  | FetchRejects => throw FetchFailed
  | FetchResolves r => ret r
  end.

Definition json_of (response : HttpResponse) : M GeminiBody :=
  match response_json response with
  | Some j => ret j
  | None => throw SyntaxError
  end.

(** The loop [for (const scenario of scenarios)]; [results] is the array
    the loop pushes to. *)
Fixpoint render (endpoint apiKey : jsstring) (payload : Payload)
  (todo : list Scenario) (results : list GeminiImagePart) : M (list GeminiImagePart) :=
  match todo with
  | [] => ret results
  | scenario :: rest =>
      let prompt := buildPrompt scenario (productName payload) (settings payload) in
      response <- do_fetch endpoint apiKey (fetch_body prompt (productImage payload)) ;;
      if negb (ok response)
      then throw (GeminiFailed (status response) (response_text response))
      else
        json <- json_of response ;;
        match image_of (find_part json) with
        | None => throw NoImageData
        | Some (mime, dat) =>
            render endpoint apiKey payload rest
              (results ++ [mkImagePart mime dat scenario])
        end
  end.

Definition now_iso : M jsstring :=
  h <- history ;;
  let iso := clock h in
  emit (Clock iso) ;;
  ret iso.

(** [results.map((result) => ({ thread_id: ..., created_at: new Date().toISOString() }))] *)
Fixpoint inserts_of (payload : Payload) (results : list GeminiImagePart) : M (list Row) :=
  match results with
  | [] => ret []
  | result :: rest =>
      iso <- now_iso ;;
      rows <- inserts_of payload rest ;;
      ret (mkRow (threadId payload) (id (scenario result)) (title (scenario result))
             (summary (scenario result)) (settings payload) iso :: rows)
  end.

(** [await supabase.from(table).insert(rows)], which resolves to
    [{ error }] and does not reject. *)
Definition do_insert (client : SupabaseClient) (table : jsstring) (rows : list Row)
  : M (option PostgrestError) :=
  h <- history ;;
  let error := insert h client table rows in
  emit (Insert client table rows error) ;;
  ret error.

Definition persist (payload : Payload) (results : list GeminiImagePart) : M unit :=
  supabase <- getSupabaseServerClient ;;
  match supabase with
  | Some client =>
      inserts <- inserts_of payload results ;;
      error <- do_insert client (str "ugc_generations") inserts ;;
      match error with
      | Some err =>
          console_warn (str "Failed to persist generation metadata in Supabase") err
      | None => ret tt
      end
  | None => ret tt
  end.

Definition POST (req : Request) : M Response :=
  e <- read_env ;;
  let model := nullish (GOOGLE_GEMINI_IMAGE_MODEL e) DEFAULT_MODEL in
  match configured (GOOGLE_GEMINI_API_KEY e) with
  | None =>
      ret (mkResponse 500
             (ErrorBody (str "Missing GOOGLE_GEMINI_API_KEY environment variable.")))
  | Some apiKey =>
      json <- req_json req ;;
      match requestSchema (Some json) with
      | None => ret (mkResponse 400 (InvalidBody (str "Invalid generate payload")))
      | Some payload =>
          try_catch
            (results <- render (endpoint_of model) apiKey payload (scenarios payload) [] ;;
             persist payload results ;;
             ret (json_response
                    (ImagesBody
                       (map (fun result =>
                               mkImagePart (mimeType result) (data result) (scenario result))
                            results))))
            (fun error =>
               console_error (str "Gemini generation failed") error ;;
               ret (mkResponse 500
                      (ErrorBody
                         (str "Image generation failed. Please try again with a different concept."))))
      end
  end.

End Handler.

End GenerateRoute.

(* ================================================================== *)
(** ** app/api/openai/scenarios/route.ts *)
(* ================================================================== *)

Module ScenariosRoute.

Record Payload := mkPayload {
  threadId : jsstring;
  audience : jsstring;
  productDetails : jsstring;
  productName : option jsstring;
  niche : option jsstring;
  tone : option jsstring;
  visualStyle : option jsstring;
  shots : Q;
  focusOnProduct : Q;
  additionalNotes : option (list jsstring);
}.

Definition shotsSchema : Zod.schema Q :=
  Zod.default (JNum (inject_Z 6)) (Zod.max 12 (Zod.min 1 (Zod.int Zod.number))).

Definition focusOnProductSchema : Zod.schema Q :=
  Zod.default (JNum (inject_Z 3)) (Zod.max 5 (Zod.min 1 (Zod.int Zod.number))).

Definition scenarioRequestSchema : Zod.schema Payload :=
  Zod.object (fun o =>
    let? t := Zod.field "threadId" Zod.string o in
    let? a := Zod.field "audience" (Zod.min_length 1 Zod.string) o in
    let? pd := Zod.field "productDetails" (Zod.min_length 1 Zod.string) o in
    let? pn := Zod.field "productName" (Zod.optional Zod.string) o in
    let? n := Zod.field "niche" (Zod.optional Zod.string) o in
    let? tn := Zod.field "tone" (Zod.optional Zod.string) o in
    let? vs := Zod.field "visualStyle" (Zod.optional Zod.string) o in
    let? sh := Zod.field "shots" shotsSchema o in
    let? f := Zod.field "focusOnProduct" focusOnProductSchema o in
    let? an := Zod.field "additionalNotes" (Zod.optional (Zod.array Zod.string)) o in
    Some (mkPayload t a pd pn n tn vs sh f an)).

Definition fence_json : jsstring := str "```json".
Definition fence : jsstring := str "```".

Definition sanitizeResponse (raw : jsstring) : jsstring :=
  trim (remove_all fence (remove_all fence_json raw)).

Definition nl : jsstring := [10%N].

Section Handler.
Context {P : Providers} {L : Library}.

Definition contextPrompt (p : Payload) : jsstring :=
  str "You are a world-class UGC strategist tasked with planning lifestyle photo shoots for an AI image generator. "
  ++ nl ++ nl
  ++ str "Product name: " ++ nullish (productName p) (str "Unknown") ++ nl
  ++ str "Product niche: " ++ nullish (niche p) (str "Not provided") ++ nl
  ++ str "Audience: " ++ audience p ++ nl
  ++ str "Product details: " ++ productDetails p ++ nl
  ++ str "Desired vibe or tone: " ++ nullish (tone p) (str "Not specified") ++ nl
  ++ str "Visual style preference: " ++ nullish (visualStyle p) (str "Not specified") ++ nl
  ++ str "Shots requested: " ++ JsNumber.toString (shots p) ++ nl
  ++ str "Focus on product (1-5): " ++ JsNumber.toString (focusOnProduct p) ++ nl
  ++ str "Extra considerations: "
  ++ nullish (option_map (join (str ", ")) (additionalNotes p)) (str "None") ++ nl ++ nl
  ++ str "Produce exactly six distinct scenarios for capturing short-form UGC images. Each scenario must reference the product authentically, "
  ++ str "highlight the audience pain point, and include specific visual cues (camera angle, environment, lighting, props)."
  ++ qstr "Return the answer as JSON that matches this TypeScript type strictly: {'scenarios': [{'id': string, 'title': string, 'summary': string, 'setting'?: string, 'shotList'?: string[], 'hook'?: string}]}."
  ++ nl.

Definition instructions : jsstring :=
  str "Respond only with valid JSON. Do not include markdown code fences. Focus on high-converting, platform-ready UGC concepts.".

Definition do_messages_create (thread content : jsstring) : M unit :=
  h <- history ;;
  let accepted := messages_create h thread content in
  emit (MessagesCreate thread content accepted) ;;
  if accepted then ret tt else throw AssistantFailed.

Definition do_createAndPoll (thread assistantId : jsstring) : M jsstring :=
  h <- history ;;
  let run := runs_createAndPoll h thread assistantId instructions in
  emit (RunsCreateAndPoll thread assistantId instructions run) ;;
  match run with
  | Some st => ret st
  | None => throw AssistantFailed
  end.

Definition do_messages_list (thread : jsstring) : M (list Message) :=
  h <- history ;;
  let page := messages_list h thread in
  emit (MessagesList thread page) ;;
  match page with
  | Some l => ret l
  | None => throw AssistantFailed
  end.

Definition is_assistant (m : Message) : bool := JsString.eqb (role m) (str "assistant").

Definition is_text (part : ContentPart) : bool :=
  match part with TextPart _ => true | OtherPart _ => false end.

(** [messages.data.find(role === "assistant")?.content?.find(type === "text")] *)
Definition find_text (messages : list Message) : option ContentPart :=
  match find is_assistant messages with
  | Some assistantMessage => find is_text (message_content assistantMessage)
  | None => None
  end.

(** [scenarioResponseSchema.parse(JSON.parse(sanitizeResponse(text)))] *)
Definition parse_reply (text : jsstring) : M ScenarioResponse :=
  let clean := sanitizeResponse text in
  match Json.parse clean with
  | None => throw SyntaxError
  | Some j =>
      match scenarioResponseSchema (Some j) with
      | None => throw ZodError
      | Some parsedResponse => ret parsedResponse
      end
  end.

Definition POST (req : Request) : M Response :=
  e <- read_env ;;
  match configured (OPENAI_API_KEY e), configured (OPENAI_ASSISTANT_ID e) with
  | Some apiKey, Some assistantId =>
      json <- req_json req ;;
      match scenarioRequestSchema (Some json) with
      | None =>
          ret (mkResponse 400 (InvalidBody (str "Invalid scenario request payload")))
      | Some parsed =>
          try_catch
            (do_messages_create (threadId parsed) (contextPrompt parsed) ;;
             run_status <- do_createAndPoll (threadId parsed) assistantId ;;
             if negb (JsString.eqb run_status (str "completed"))
             then throw (RunNotCompleted run_status)
             else
               messages <- do_messages_list (threadId parsed) ;;
               match find_text messages with
               | Some (TextPart value) =>
                   parsedResponse <- parse_reply value ;;
                   ret (json_response
                          (ScenariosBody (threadId parsed) (scenarios parsedResponse)))
               | _ => throw NoTextContent
               end)
            (fun error =>
               console_error (str "Failed to generate scenarios") error ;;
               ret (mkResponse 500
                      (ErrorBody
                         (str "Unable to generate scenarios at this time. Please refine your brief and try again."))))
      end
  | _, _ =>
      ret (mkResponse 500
             (ErrorBody
                (str "Missing OPENAI_API_KEY or OPENAI_ASSISTANT_ID. Update your environment variables to enable scenario ideation.")))
  end.

End Handler.

End ScenariosRoute.

(* ================================================================== *)
(** ** The life of the process *)
(* ================================================================== *)

Module Process.

(** What can happen to the process after it starts: a request to either
    route, a call of the datastore accessor, a change of its environment. *)
Inductive Step :=
| Generate (req : Request)
| Scenarios (req : Request)
| Accessor
| SetEnv (e : Env).

Section Run.
Context {P : Providers} {L : Library}.

Definition step (w : World) (s : Step) : World :=
  match s with
  | Generate req => snd (GenerateRoute.POST req w)
  | Scenarios req => snd (ScenariosRoute.POST req w)
  | Accessor => snd (getSupabaseServerClient w)
  | SetEnv e => mkWorld e (cachedClient w) (trace w)
  end.

Definition run (script : list Step) (w : World) : World := fold_left step script w.

End Run.

(** The process as it starts: nothing cached, nothing done. *)
Definition boot (e : Env) : World := mkWorld e None [].

End Process.

(* ================================================================== *)
(** ** The vocabulary of the properties *)
(* ================================================================== *)

(** [needle] occurs in [s]. *)
Definition Occurs (needle s : jsstring) : Prop :=
  exists pre post, s = pre ++ needle ++ post.

(** The handle in the cache is the only one ever constructed. *)
Definition cache_consistent (w : World) : Prop :=
  match cachedClient w with
  | None => constructed (trace w) = 0
  | Some _ => constructed (trace w) = 1
  end.

(** A computation that leaves the environment alone, keeps the cache
    consistent, and neither replaces a cached handle nor constructs
    another one beside it. *)
Definition Safe {A} (m : M A) : Prop :=
  forall w,
    env (snd (m w)) = env w
    /\ (cache_consistent w -> cache_consistent (snd (m w)))
    /\ (forall c, cachedClient w = Some c ->
          cachedClient (snd (m w)) = Some c
          /\ constructed (trace (snd (m w))) = constructed (trace w)).

(** A call to the image provider that gave an image: it resolved with a
    success status and a body whose first inline part is complete. *)
Definition gives_image (outcome : FetchOutcome) : bool :=
  match outcome with
  | FetchResolves r =>
      ok r
      && match response_json r with
         | Some j =>
             match GenerateRoute.image_of (GenerateRoute.find_part j) with
             | Some _ => true
             | None => false
             end
         | None => false
         end
  | FetchRejects => false
  end.

Definition call_succeeded (e : Event) : bool :=
  match e with Fetch _ _ _ outcome => gives_image outcome | _ => false end.

(** A call the provider answered with a status outside 200-299. *)
Definition call_refused (e : Event) : bool :=
  match e with Fetch _ _ _ (FetchResolves r) => negb (ok r) | _ => false end.

(** What the loop throws after a call that gave no image. *)
Definition thrown_for (e : Event) : option Exn :=
  match e with
  | Fetch _ _ _ FetchRejects => Some FetchFailed
  | Fetch _ _ _ (FetchResolves r) =>
      if ok r then
        match response_json r with
        | None => Some SyntaxError
        | Some j =>
            match GenerateRoute.image_of (GenerateRoute.find_part j) with
            | None => Some NoImageData
            | Some _ => None
            end
        end
      else Some (GeminiFailed (status r) (response_text r))
  | _ => None
  end.

Definition generic_failure : Response :=
  mkResponse 500
    (ErrorBody (str "Image generation failed. Please try again with a different concept.")).

Definition warning_text : jsstring :=
  str "Failed to persist generation metadata in Supabase".

Definition missing_key_response : Response :=
  mkResponse 500 (ErrorBody (str "Missing GOOGLE_GEMINI_API_KEY environment variable.")).

Definition invalid_payload_response : Response :=
  mkResponse 400 (InvalidBody (str "Invalid generate payload")).

Definition failure_log (x : Exn) : Event :=
  ConsoleError (str "Gemini generation failed") x.

(** Whether the accessor can hand out a handle in this world: the
    datastore is not configured (it then hands out null), a handle is
    cached, or the library constructs one from the URL and the key. *)
Definition handle_obtainable {L : Library} (w : World) : bool :=
  match configured (SUPABASE_URL (env w)),
        configured (SUPABASE_SERVICE_ROLE_KEY (env w)) with
  | Some url, Some key =>
      match cachedClient w with
      | Some _ => true
      | None => createClient_returns url key
      end
  | _, _ => true
  end.

(** A run of the handler is one of six kinds. *)
Inductive Run {L : Library} (req : Request) (w : World) :
  Result Response -> World -> Prop :=
| RunMissingKey :
    configured (GOOGLE_GEMINI_API_KEY (env w)) = None ->
    Run req w (Return missing_key_response) w
| RunNotJson :
    request_json req = None ->
    Run req w (Throw SyntaxError) w
| RunInvalid js :
    request_json req = Some js ->
    GenerateRoute.requestSchema (Some js) = None ->
    Run req w (Return invalid_payload_response) w
| RunImages js payload images calls after w' :
    request_json req = Some js ->
    GenerateRoute.requestSchema (Some js) = Some payload ->
    handle_obtainable w = true ->
    map scenario images = GenerateRoute.scenarios payload ->
    Forall (fun e => call_succeeded e = true) calls ->
    List.length calls = List.length (GenerateRoute.scenarios payload) ->
    Forall (fun e => is_Fetch e = false) after ->
    List.length (filter is_Insert after) <= 1 ->
    (forall c t rows err,
        In (Insert c t rows (Some err)) after -> In (ConsoleWarn warning_text err) after) ->
    (forall c t rows error,
        In (Insert c t rows error) after ->
        t = str "ugc_generations"
        /\ map scenario_id rows = map (fun r => id (scenario r)) images) ->
    trace w' = trace w ++ calls ++ after ->
    Run req w (Return (json_response (ImagesBody images))) w'
| RunFailed js payload good bad x w' :
    request_json req = Some js ->
    GenerateRoute.requestSchema (Some js) = Some payload ->
    Forall (fun e => call_succeeded e = true) good ->
    is_Fetch bad = true ->
    call_succeeded bad = false ->
    thrown_for bad = Some x ->
    trace w' = trace w ++ good ++ [bad; failure_log x] ->
    Run req w (Return generic_failure) w'
| RunUnstored js payload calls w' :
    request_json req = Some js ->
    GenerateRoute.requestSchema (Some js) = Some payload ->
    handle_obtainable w = false ->
    Forall (fun e => call_succeeded e = true) calls ->
    List.length calls = List.length (GenerateRoute.scenarios payload) ->
    trace w' = trace w ++ calls ++ [failure_log ClientFailed] ->
    cachedClient w' = cachedClient w ->
    Run req w (Return generic_failure) w'.

(** Two worlds of collaborators whose image providers answer alike; the
    datastore, the clock and the assistant may differ. *)
Definition same_image_provider (P P' : Providers) : Prop :=
  @format P = @format P'
  /\ forall h url key body, @fetch P h url key body = @fetch P' h url key body.

(** A part from which the loop can take an image on its own: inline data
    with a non-empty payload and a non-empty MIME type. *)
Definition is_complete (part : GeminiInlinePart) : bool :=
  match GenerateRoute.image_of (Some part) with Some _ => true | None => false end.

Definition scenarios_failure : Response :=
  mkResponse 500
    (ErrorBody
       (str "Unable to generate scenarios at this time. Please refine your brief and try again.")).

(** The assistant accepts the brief, completes its run, and the thread
    then lists [messages]. *)
Definition assistant_replies (P : Providers) (messages : list Message) : Prop :=
  (forall h thread content, @messages_create P h thread content = true)
  /\ (forall h thread assistantId instr,
        @runs_createAndPoll P h thread assistantId instr = Some (str "completed"))
  /\ (forall h thread, @messages_list P h thread = Some messages).

(** An integer between [lo] and [hi]. *)
Definition integer_within (lo hi : Z) (q : Q) : Prop :=
  JsNumber.is_integer q = true /\ Qle (inject_Z lo) q /\ Qle q (inject_Z hi).

(* ================================================================== *)
(** ** Scripted collaborators, for concrete runs *)
(* ================================================================== *)

Module Scripted.

(** A URL that names the HTTP or the HTTPS scheme. *)
Definition is_http_url (url : jsstring) : bool :=
  starts_with (str "http://") url || starts_with (str "https://") url.

(** The client library of the concrete runs: it constructs a handle for
    a URL that names the HTTP or the HTTPS scheme, and throws on every
    other one. *)
Definition supabase_js : Library :=
  {| createClient_returns := fun url _ => is_http_url url |}.

(** The image provider answers its k-th call with the k-th entry of
    [answers]; the datastore insert reports [insert_error]; the assistant
    run ends with [run] and the thread then holds [messages]. *)
Definition providers (answers : list FetchOutcome) (insert_error : option PostgrestError)
  (run : option jsstring) (messages : option (list Message)) : Providers :=
  {| format := {| JsNumber.toString_other := fun _ => str "NaN" |};
     fetch := fun h _ _ _ => nth (List.length (filter is_Fetch h)) answers FetchRejects;
     clock := fun _ => str "2024-01-01T00:00:00.000Z";
     insert := fun _ _ _ _ => insert_error;
     messages_create := fun _ _ _ => true;
     runs_createAndPoll := fun _ _ _ _ => run;
     messages_list := fun _ _ => messages |}.

Definition env_none : Env := mkEnv None None None None None None.

(** Every credential present. *)
Definition env_all : Env :=
  mkEnv (Some (str "sk-test")) (Some (str "asst_1")) (Some (str "g-key")) None
        (Some (str "https://db.example")) (Some (str "service-role")).

(** Every credential present, the datastore URL without its scheme. *)
Definition env_bad_datastore : Env :=
  mkEnv (Some (str "sk-test")) (Some (str "asst_1")) (Some (str "g-key")) None
        (Some (str "db.example")) (Some (str "service-role")).

(** The assistant and the image provider configured, no datastore. *)
Definition env_no_datastore : Env :=
  mkEnv (Some (str "sk-test")) (Some (str "asst_1")) (Some (str "g-key")) None None None.

Definition scenario_a : Scenario :=
  mkScenario (str "a") (str "Morning run") (str "A runner laces up") None None None.

Definition scenario_b : Scenario :=
  mkScenario (str "b") (str "Desk break") (str "A quick stretch")
    (Some (str "office")) (Some [str "wide"; str "close-up"]) (Some (str "Try it")).

Definition settings_json : Json.value :=
  JObj [(str "focusOnProduct", JNum (inject_Z 5)); (str "shots", JNum (inject_Z 6));
        (str "visualStyle", JStr (str "Natural")); (str "tone", JStr (str "Cinematic"));
        (str "orientation", JStr (str "Square (1:1)")); (str "quality", JStr (str "Standard"));
        (str "addMotion", JBool true)].

(** A well-formed body for the image route, with the scenarios given. *)
Definition generate_body (l : list Scenario) : Json.value :=
  JObj [(str "threadId", JStr (str "thread_1"));
        (str "productImage", JObj [(str "data", JStr (str "iVBORw0KGgoAAAANSUhEUg"))]);
        (str "scenarios", JArr (map scenario_json l));
        (str "settings", settings_json)].

Definition generate_request (l : list Scenario) : Request :=
  mkRequest (Some (generate_body l)).

(** A provider body whose first candidate holds the parts given. *)
Definition body_of_parts (l : list GeminiInlinePart) : GeminiBody :=
  mkGeminiBody (Some [mkCandidate (Some (mkContent (Some l)))]).

Definition complete_part (dat : jsstring) : GeminiInlinePart :=
  mkInlinePart (Some (mkInlineData (Some dat) (Some (str "image/png")))).

Definition text_part : GeminiInlinePart := mkInlinePart None.

(** A provider answer that carries one complete inline image. *)
Definition image_answer (dat : jsstring) : FetchOutcome :=
  FetchResolves
    (mkHttpResponse 200 [] (Some (body_of_parts [text_part; complete_part dat]))).

Definition failure_answer (st : Z) : FetchOutcome :=
  FetchResolves (mkHttpResponse st (str "upstream failure") None).

(** What the schema makes of [generate_body l]. *)
Definition generate_payload (l : list Scenario) : GenerateRoute.Payload :=
  GenerateRoute.mkPayload (Some (str "thread_1")) None
    (GenerateRoute.mkProductImage (str "iVBORw0KGgoAAAANSUhEUg") (str "image/png"))
    l
    (mkSettings (inject_Z 5) (inject_Z 6) (str "Natural") (str "Cinematic")
       (str "Square (1:1)") (str "Standard") (Some true) None None).

(** An inline part that names its MIME type and carries no data. *)
Definition incomplete_part : GeminiInlinePart :=
  mkInlinePart (Some (mkInlineData None (Some (str "image/png")))).

(** A success answer whose first inline part is incomplete and whose
    second one is complete. *)
Definition mixed_response : HttpResponse :=
  mkHttpResponse 200 []
    (Some (body_of_parts [text_part; incomplete_part; complete_part (str "AAA")])).

Definition datastore_down : PostgrestError := mkPostgrestError (str "connection refused").

(** Both images are rendered; no datastore is configured. *)
Definition two_images : Providers :=
  providers [image_answer (str "AAA"); image_answer (str "BBB")] None None None.

(** The second call is answered with status 500. *)
Definition second_call_refused : Providers :=
  providers [image_answer (str "AAA"); failure_answer 500] None None None.

(** Both images are rendered; the insert fails. *)
Definition insert_fails : Providers :=
  providers [image_answer (str "AAA"); image_answer (str "BBB")] (Some datastore_down)
    None None.

Definition first_part_incomplete : Providers :=
  providers [FetchResolves mixed_response] None None None.

(** A well-formed body for the scenario route, with the extra fields given. *)
Definition scenarios_body (extra : list (jsstring * Json.value)) : Json.value :=
  JObj ([(str "threadId", JStr (str "thread_1"));
         (str "audience", JStr (str "runners"));
         (str "productDetails", JStr (str "a water bottle"))] ++ extra).

Definition thirteen_shots : Request :=
  mkRequest (Some (scenarios_body [(str "shots", JNum (inject_Z 13))])).

Definition plain_brief : Request := mkRequest (Some (scenarios_body [])).

(** The thread after a run: the brief, then the assistant's reply. *)
Definition thread_with (text : jsstring) : list Message :=
  [mkMessage (str "assistant") [OtherPart (str "image_file"); TextPart text];
   mkMessage (str "user") [TextPart (str "brief")]].

Definition assistant_says (text : jsstring) : Providers :=
  providers [] None (Some (str "completed")) (Some (thread_with text)).

Definition one_scenario : ScenarioResponse :=
  mkScenarioResponse [mkScenario (str "a") (str "t") (str "s") None None None].

(** The JSON document of [one_scenario]. *)
Definition plain_doc : jsstring :=
  qstr "{'scenarios':[{'id':'a','title':'t','summary':'s'}]}".

(** A document that differs from [plain_doc] by one more key, which the
    schema ignores; the key contains a fence. *)
Definition doc_with_fence_in_key : jsstring :=
  qstr "{'scenarios':[{'id':'a','title':'t','summary':'s','```setting':5}]}".

(** A valid batch document whose title holds a fence. *)
Definition doc_with_fence_in_title : jsstring :=
  qstr "{'scenarios':[{'id':'a','title':'Morning ```run','summary':'s'}]}".

Definition fenced (doc : jsstring) : jsstring :=
  ScenariosRoute.fence_json ++ doc ++ ScenariosRoute.fence.

(** The same between bare fences. *)
Definition bare_fenced (doc : jsstring) : jsstring :=
  ScenariosRoute.fence ++ doc ++ ScenariosRoute.fence.

Definition six_scenarios : ScenarioResponse :=
  mkScenarioResponse
    (map (fun i => mkScenario (str i) (str "title") (str "summary") None None None)
       ["s1"; "s2"; "s3"; "s4"; "s5"; "s6"]%string).

Definition two_scenarios : ScenarioResponse :=
  mkScenarioResponse [scenario_a; scenario_b].

(** The JSON document of [two_scenarios]. *)
Definition two_scenarios_doc : jsstring :=
  qstr "{'scenarios':[{'id':'a','title':'Morning run','summary':'A runner laces up'},{'id':'b','title':'Desk break','summary':'A quick stretch','setting':'office','shotList':['wide','close-up'],'hook':'Try it'}]}".

(** Two requests to the image route, a call of the accessor between them. *)
Definition busy_day : list Process.Step :=
  [Process.Generate (generate_request [scenario_a]);
   Process.Accessor;
   Process.Generate (generate_request [scenario_a; scenario_b])].

End Scripted.

(* ================================================================== *)
(** ** What goes over the wire *)
(* ================================================================== *)

(** The JSON a client reads from a 200 response of the routes:
    [NextResponse.json({ images })] and
    [NextResponse.json({ threadId, scenarios })], serialized and parsed
    again. A property that is [undefined] is left out. *)
Module Wire.

Definition image_json (image : GeminiImagePart) : Json.value :=
  JObj [(str "mimeType", JStr (mimeType image));
        (str "data", JStr (data image));
        (str "scenario", scenario_json (scenario image))].

Definition body_json (body : Body) : option Json.value :=
  match body with
  | ImagesBody images => Some (JObj [(str "images", JArr (map image_json images))])
  | ScenariosBody thread l =>
      Some (JObj [(str "threadId", JStr thread);
                  (str "scenarios", JArr (map scenario_json l))])
  | _ => None
  end.

End Wire.

(* ================================================================== *)
(** ** The page that calls the routes (the client component [Home]) *)
(* ================================================================== *)

(** Of the page, the part that decides what is sent to the routes and
    what is made of their answers: the selection of scenarios, the two
    guards of the buttons, the bodies of the two requests, the reading
    of the file and the parsing of the two responses. A request body is
    given as the route's [req.json()] returns it: [JSON.stringify]
    leaves out a property that is [undefined], keeps [null], and the
    route parses the text back to the same strings and numbers. The
    rendering, the creation of the thread and the texts of the error
    banners are not modelled. *)

(** A [Set<string>]: its elements in insertion order, each once. *)
Module JsSet.

Definition t := list jsstring.

Definition empty : t := [].

Definition has (s : t) (x : jsstring) : bool := existsb (JsString.eqb x) s.

Definition add (s : t) (x : jsstring) : t := if has s x then s else s ++ [x].

Definition delete (s : t) (x : jsstring) : t :=
  filter (fun y => negb (JsString.eqb x y)) s.

(** [new Set(iterable)] *)
Definition of_list (l : list jsstring) : t := fold_left add l empty.

Definition size (s : t) : nat := List.length s.

End JsSet.

Module Client.

(** The file the user picked: its MIME type, which may be empty. *)
Record File := mkFile {
  file_type : jsstring;
}.

Definition visualStyles : list jsstring :=
  [str "Natural"; str "Night Light"; str "Golden hour"; str "Soft morning"].
Definition toneOptions : list jsstring :=
  [str "Playful"; str "Professional"; str "Minimal"; str "Cinematic"].
Definition orientationOptions : list jsstring :=
  [str "Landscape"; str "Square (1:1)"; str "Portrait (2:3)"].
Definition qualityOptions : list jsstring := [str "Draft"; str "Standard"; str "Ultra"].

Inductive ToggleKey := AddMotion | RetouchProduct | IncludeCaptions.

Definition additionalToggles : list (ToggleKey * jsstring) :=
  [(AddMotion, str "Motion cues");
   (RetouchProduct, str "Retouch product");
   (IncludeCaptions, str "Reserve caption space")].

Definition defaultSettings : GenerationSettings :=
  mkSettings (inject_Z 3) (inject_Z 6)
    (nth 0 visualStyles []) (nth 0 toneOptions [])
    (nth 1 orientationOptions []) (nth 1 qualityOptions [])
    (Some false) (Some true) (Some false).

(** [settings[toggle.key]] *)
Definition setting_of (settings : GenerationSettings) (key : ToggleKey) : option bool :=
  match key with
  | AddMotion => addMotion settings
  | RetouchProduct => retouchProduct settings
  | IncludeCaptions => includeCaptions settings
  end.

(** [Boolean(threadId && productFile && productAudience.trim().length > 0
    && productDetails.trim().length > 0)] *)
Definition canRequestScenarios (threadId : option jsstring) (productFile : option File)
  (productAudience productDetails : jsstring) : bool :=
  match threadId, productFile with
  | Some thread, Some _ =>
      truthy thread
      && Nat.ltb 0 (List.length (trim productAudience))
      && Nat.ltb 0 (List.length (trim productDetails))
  | _, _ => false
  end.

(** [selectedScenarioIds.size > 0 && productFile && !generatingScenarios],
    as the button tests it. *)
Definition canGenerateImages (selectedScenarioIds : JsSet.t) (productFile : option File)
  (generatingScenarios : bool) : bool :=
  Nat.ltb 0 (JsSet.size selectedScenarioIds)
  && match productFile with Some _ => true | None => false end
  && negb generatingScenarios.

(** The updater [toggleScenario] hands to [setSelectedScenarioIds]. *)
Definition toggleScenario (id : jsstring) (current : JsSet.t) : JsSet.t :=
  let next := current in
  if JsSet.has next id then JsSet.delete next id else JsSet.add next id.

(** [additionalToggles.filter((toggle) => settings[toggle.key])
      .map((toggle) => toggle.label)] *)
Definition additionalNotes (settings : GenerationSettings) : list jsstring :=
  map snd (filter (fun toggle => flag (setting_of settings (fst toggle))) additionalToggles).

(** The body [handleGenerateScenarios] posts, as the route reads it; the
    handler returns at once when there is no thread id. *)
Definition handleGenerateScenarios_body (threadId : option jsstring)
  (productAudience productDetails productName productNiche : jsstring)
  (settings : GenerationSettings) : option Json.value :=
  match configured threadId with
  | None => None
  | Some thread =>
      Some (JObj [(str "threadId", JStr thread);
                  (str "audience", JStr productAudience);
                  (str "productDetails", JStr productDetails);
                  (str "productName", JStr productName);
                  (str "niche", JStr productNiche);
                  (str "tone", JStr (tone settings));
                  (str "visualStyle", JStr (visualStyle settings));
                  (str "shots", JNum (shots settings));
                  (str "focusOnProduct", JNum (focusOnProduct settings));
                  (str "additionalNotes", JArr (map JStr (additionalNotes settings)))])
  end.

(** [scenarioSchema.array().parse(data.scenarios)], then
    [setScenarios(parsed)] and
    [setSelectedScenarioIds(new Set(parsed.map((scenario) => scenario.id)))]:
    the new scenarios and the new selection, unless the parse throws. *)
Definition handleGenerateScenarios_parse (data : Json.value) : option (list Scenario * JsSet.t) :=
  match data with
  | JObj fields =>
      let? parsed := Zod.array scenarioSchema (Json.get (str "scenarios") fields) in
      Some (parsed, JsSet.of_list (map id parsed))
  | _ => None
  end.

(** [String.prototype.split] with a separator of one character. *)
Fixpoint split (sep : char16) (s : jsstring) : list jsstring :=
  match s with
  | [] => [[]]
  | c :: s' =>
      if N.eqb c sep then [] :: split sep s'
      else
        match split sep s' with
        | piece :: pieces => (c :: piece) :: pieces
        | [] => [[c]]
        end
  end.

(** [result.split(",")[1] ?? result], what [toBase64] resolves with for
    the data URL [result] the reader produced. *)
Definition toBase64 (result : jsstring) : jsstring :=
  nullish (nth_error (split 44%N result) 1) result.

(** [scenarios.filter((scenario) => selectedScenarioIds.has(scenario.id))] *)
Definition chosenScenarios (scenarios : list Scenario) (selectedScenarioIds : JsSet.t)
  : list Scenario :=
  filter (fun scenario => JsSet.has selectedScenarioIds (id scenario)) scenarios.

(** [JSON.stringify(settings)], read back. *)
Definition settings_json (settings : GenerationSettings) : Json.value :=
  JObj ([(str "focusOnProduct", JNum (focusOnProduct settings));
         (str "shots", JNum (shots settings));
         (str "visualStyle", JStr (visualStyle settings));
         (str "tone", JStr (tone settings));
         (str "orientation", JStr (orientation settings));
         (str "quality", JStr (quality settings))]
        ++ optional_field "addMotion" (option_map JBool (addMotion settings))
        ++ optional_field "retouchProduct" (option_map JBool (retouchProduct settings))
        ++ optional_field "includeCaptions" (option_map JBool (includeCaptions settings))).

(** A thread id that is [null] is serialized as [null]. *)
Definition nullable (v : option jsstring) : Json.value :=
  match v with Some s => JStr s | None => JNull end.

(** [productFile.type || "image/png"] *)
Definition mime_of (file : File) : jsstring :=
  if truthy (file_type file) then file_type file else str "image/png".

(** The body [handleGenerateImages] posts, as the route reads it, for the
    data URL [result] of the file; the handler throws instead when no
    scenario is chosen. *)
Definition handleGenerateImages_body (threadId : option jsstring) (productName : jsstring)
  (scenarios : list Scenario) (selectedScenarioIds : JsSet.t)
  (settings : GenerationSettings) (productFile : File) (result : jsstring)
  : option Json.value :=
  let base64 := toBase64 result in
  match chosenScenarios scenarios selectedScenarioIds with
  | [] => None
  | chosen =>
      Some (JObj [(str "threadId", nullable threadId);
                  (str "productName", JStr productName);
                  (str "scenarios", JArr (map scenario_json chosen));
                  (str "settings", settings_json settings);
                  (str "productImage",
                   JObj [(str "data", JStr base64);
                         (str "mimeType", JStr (mime_of productFile))])])
  end.

(** The schema [handleGenerateImages] parses the response with. *)
Definition generatedImageSchema : Zod.schema GeminiImagePart :=
  Zod.object (fun o =>
    let? m := Zod.field "mimeType" Zod.string o in
    let? d := Zod.field "data" Zod.string o in
    let? s := Zod.field "scenario" scenarioSchema o in
    Some (mkImagePart m d s)).

Definition imagesSchema : Zod.schema (list GeminiImagePart) :=
  Zod.object (fun o => Zod.field "images" (Zod.array generatedImageSchema) o).

(** What [setGeneratedImages] receives, unless the parse throws. *)
Definition handleGenerateImages_parse (data : Json.value) : option (list GeminiImagePart) :=
  imagesSchema (Some data).

End Client.

(* ================================================================== *)
(** ** More vocabulary: the calls, the rows, the assistant's calls *)
(* ================================================================== *)

(** The call the loop of the image route makes for a scenario, with the
    outcome it had. *)
Definition call_for {P : Providers} (endpoint apiKey : jsstring)
  (payload : GenerateRoute.Payload) (sc : Scenario) (outcome : FetchOutcome) : Event :=
  Fetch endpoint apiKey
    (GenerateRoute.fetch_body
       (buildPrompt sc (GenerateRoute.productName payload) (GenerateRoute.settings payload))
       (GenerateRoute.productImage payload))
    outcome.

(** The endpoint the image route calls under an environment. *)
Definition endpoint_under (e : Env) : jsstring :=
  GenerateRoute.endpoint_of (nullish (GOOGLE_GEMINI_IMAGE_MODEL e) GenerateRoute.DEFAULT_MODEL).

(** The metadata row of an image, stamped [iso]. *)
Definition row_of (payload : GenerateRoute.Payload) (image : GeminiImagePart)
  (iso : jsstring) : Row :=
  mkRow (GenerateRoute.threadId payload) (id (scenario image)) (title (scenario image))
    (summary (scenario image)) (GenerateRoute.settings payload) iso.

Definition rows_of (payload : GenerateRoute.Payload) (images : list GeminiImagePart)
  (isos : list jsstring) : list Row :=
  map (fun p => row_of payload (fst p) (snd p)) (combine images isos).

(** The events that touch the datastore or serve it. *)
Definition is_datastore_event (e : Event) : bool :=
  match e with
  | CreateClient _ | Clock _ | Insert _ _ _ _ | ConsoleWarn _ _ => true
  | _ => false
  end.

(** The events of the assistant. *)
Definition is_assistant_event (e : Event) : bool :=
  match e with
  | MessagesCreate _ _ _ | RunsCreateAndPoll _ _ _ _ | MessagesList _ _ => true
  | _ => false
  end.

Definition is_MessagesList (e : Event) : bool :=
  match e with MessagesList _ _ => true | _ => false end.

Definition scenarios_log (x : Exn) : Event :=
  ConsoleError (str "Failed to generate scenarios") x.

Definition missing_assistant_response : Response :=
  mkResponse 500
    (ErrorBody
       (str "Missing OPENAI_API_KEY or OPENAI_ASSISTANT_ID. Update your environment variables to enable scenario ideation.")).

Definition invalid_brief_response : Response :=
  mkResponse 400 (InvalidBody (str "Invalid scenario request payload")).

(** The world a failed scenario request leaves: the events of its calls,
    then the entry of console.error. *)
Definition scenarios_failed (w : World) (calls : list Event) (x : Exn)
  : Result Response * World :=
  (Return scenarios_failure,
   mkWorld (env w) (cachedClient w) (trace w ++ calls ++ [scenarios_log x])).

(** The conversation with the assistant about an accepted brief. *)
Inductive Conversation (thread prompt assistantId : jsstring)
  : Response -> list Event -> Prop :=
| BriefRefused :
    Conversation thread prompt assistantId scenarios_failure
      [MessagesCreate thread prompt false; scenarios_log AssistantFailed]
| RunRejected :
    Conversation thread prompt assistantId scenarios_failure
      [MessagesCreate thread prompt true;
       RunsCreateAndPoll thread assistantId ScenariosRoute.instructions None;
       scenarios_log AssistantFailed]
| RunUnfinished run_status :
    run_status <> str "completed" ->
    Conversation thread prompt assistantId scenarios_failure
      [MessagesCreate thread prompt true;
       RunsCreateAndPoll thread assistantId ScenariosRoute.instructions (Some run_status);
       scenarios_log (RunNotCompleted run_status)]
| ListRejected :
    Conversation thread prompt assistantId scenarios_failure
      [MessagesCreate thread prompt true;
       RunsCreateAndPoll thread assistantId ScenariosRoute.instructions
         (Some (str "completed"));
       MessagesList thread None;
       scenarios_log AssistantFailed]
| ReplyUnusable messages x :
    match ScenariosRoute.find_text messages with
    | Some (TextPart text) =>
        match Json.parse (ScenariosRoute.sanitizeResponse text) with
        | None => x = SyntaxError
        | Some j => scenarioResponseSchema (Some j) = None /\ x = ZodError
        end
    | _ => x = NoTextContent
    end ->
    Conversation thread prompt assistantId scenarios_failure
      [MessagesCreate thread prompt true;
       RunsCreateAndPoll thread assistantId ScenariosRoute.instructions
         (Some (str "completed"));
       MessagesList thread (Some messages);
       scenarios_log x]
| ReplyUsed messages text j b :
    ScenariosRoute.find_text messages = Some (TextPart text) ->
    Json.parse (ScenariosRoute.sanitizeResponse text) = Some j ->
    scenarioResponseSchema (Some j) = Some b ->
    Conversation thread prompt assistantId
      (json_response (ScenariosBody thread (scenarios b)))
      [MessagesCreate thread prompt true;
       RunsCreateAndPoll thread assistantId ScenariosRoute.instructions
         (Some (str "completed"));
       MessagesList thread (Some messages)].

(** A request to the scenario route ends in one of these ways; the list
    holds the events it added to the trace. *)
Inductive Brief {P : Providers} (req : Request) (w : World)
  : Result Response -> list Event -> Prop :=
| BriefUnconfigured :
    configured (OPENAI_API_KEY (env w)) = None
    \/ configured (OPENAI_ASSISTANT_ID (env w)) = None ->
    Brief req w (Return missing_assistant_response) []
| BriefNotJson :
    request_json req = None ->
    Brief req w (Throw SyntaxError) []
| BriefInvalid js :
    request_json req = Some js ->
    ScenariosRoute.scenarioRequestSchema (Some js) = None ->
    Brief req w (Return invalid_brief_response) []
| BriefAnswered apiKey assistantId js parsed resp calls :
    configured (OPENAI_API_KEY (env w)) = Some apiKey ->
    configured (OPENAI_ASSISTANT_ID (env w)) = Some assistantId ->
    request_json req = Some js ->
    ScenariosRoute.scenarioRequestSchema (Some js) = Some parsed ->
    Conversation (ScenariosRoute.threadId parsed) (ScenariosRoute.contextPrompt parsed)
      assistantId resp calls ->
    Brief req w (Return resp) calls.

(** The selection after the cards of these ids were clicked in turn. *)
Definition selection_after (clicked : list jsstring) (selected : JsSet.t) : JsSet.t :=
  fold_left (fun current id => Client.toggleScenario id current) clicked selected.

(** An integer between [lo] and [hi], and a number between them, as the
    schemas test it. *)
Definition ranged (lo hi : Z) (q : Q) : bool :=
  Qle_bool (inject_Z lo) q && Qle_bool q (inject_Z hi).

Definition ranged_integer (lo hi : Z) (q : Q) : bool :=
  JsNumber.is_integer q && ranged lo hi q.

(** Two settings that differ at most in the shot count. *)
Definition same_but_shots (s s' : GenerationSettings) : Prop :=
  focusOnProduct s = focusOnProduct s'
  /\ visualStyle s = visualStyle s'
  /\ tone s = tone s'
  /\ orientation s = orientation s'
  /\ quality s = quality s'
  /\ addMotion s = addMotion s'
  /\ retouchProduct s = retouchProduct s'
  /\ includeCaptions s = includeCaptions s'.

(* ================================================================== *)
(** ** More scripted collaborators and a page, for concrete runs *)
(* ================================================================== *)

Module Sample.

(** Both images are rendered and stored. *)
Definition all_well : Providers :=
  Scripted.providers [Scripted.image_answer (str "AAA"); Scripted.image_answer (str "BBB")]
    None None None.

(** The run of the assistant ends with status failed. *)
Definition run_fails : Providers :=
  Scripted.providers [] None (Some (str "failed")) None.

(** The run of the assistant cannot be created. *)
Definition no_run : Providers := Scripted.providers [] None None None.

(** The latest message of the assistant holds an image file only; the
    one before it holds a valid batch. *)
Definition picture_first : list Message :=
  [mkMessage (str "user") [TextPart (str "brief")];
   mkMessage (str "assistant") [OtherPart (str "image_file")];
   mkMessage (str "assistant") [TextPart Scripted.plain_doc]].

Definition assistant_sends_picture : Providers :=
  Scripted.providers [] None (Some (str "completed")) (Some picture_first).

(** A body for the image route with no scenario in it. *)
Definition empty_batch_request : Request := mkRequest (Some (Scripted.generate_body [])).

(** A brief with an empty audience. *)
Definition brief_without_audience : Json.value :=
  JObj [(str "threadId", JStr (str "thread_1"));
        (str "audience", JStr []);
        (str "productDetails", JStr (str "a water bottle"))].

(** What the schema makes of [Scripted.scenarios_body []]. *)
Definition plain_payload : ScenariosRoute.Payload :=
  ScenariosRoute.mkPayload (str "thread_1") (str "runners") (str "a water bottle")
    None None None None (inject_Z 6) (inject_Z 3) None.

(** The page after a batch of two scenarios was loaded and a PNG file was
    picked. *)
Definition picked : Client.File := Client.mkFile (str "image/png").

Definition data_url : jsstring := str "data:image/png;base64,iVBORw0KGgoAAAANSUhEUg".

Definition shown : list Scenario := [Scripted.scenario_a; Scripted.scenario_b].

Definition both_selected : JsSet.t := JsSet.of_list (map id shown).

(** The page's settings with twelve shots asked for. *)
Definition twelve_shots : GenerationSettings :=
  mkSettings (inject_Z 3) (inject_Z 12) (str "Natural") (str "Playful")
    (str "Square (1:1)") (str "Standard") (Some false) (Some true) (Some false).

(** The body the page posts to the image route, with the settings given. *)
Definition page_body (settings : GenerationSettings) : Json.value :=
  nullish
    (Client.handleGenerateImages_body (Some (str "thread_1")) (str "Bottle") shown both_selected
       settings picked data_url)
    JNull.

(** What the image route makes of [page_body settings]. *)
Definition page_payload (settings : GenerationSettings) : GenerateRoute.Payload :=
  GenerateRoute.mkPayload (Some (str "thread_1")) (Some (str "Bottle"))
    (GenerateRoute.mkProductImage (str "iVBORw0KGgoAAAANSUhEUg") (str "image/png"))
    shown settings.

End Sample.

(* ================================================================== *)
(** * Properties *)
(* ================================================================== *)

(** ** Strings *)

Section StringFacts.

Lemma starts_with_app (p rest : jsstring) : starts_with p (p ++ rest) = true.
Proof.
  induction p as [|a p IH]; simpl; [reflexivity|].
  now rewrite N.eqb_refl, IH.
Qed.

Lemma starts_with_inv (p s : jsstring) :
  starts_with p s = true -> exists rest, s = p ++ rest.
Proof.
  revert s; induction p as [|a p IH]; intros s Hs; simpl in *.
  - now exists s.
  - destruct s as [|b s]; [discriminate|].
    apply andb_prop in Hs as [Hab Hs]. apply N.eqb_eq in Hab; subst b.
    destruct (IH _ Hs) as [rest ->]. now exists rest.
Qed.

Lemma includes_here (s needle : jsstring) :
  starts_with needle s = true -> includes s needle = true.
Proof. intros Hs. destruct s; simpl in *; rewrite Hs; reflexivity. Qed.

Lemma includes_iff (s needle : jsstring) :
  includes s needle = true <-> Occurs needle s.
Proof.
  split.
  - induction s as [|c s IH]; simpl; intros Hi.
    + rewrite orb_false_r in Hi. destruct (starts_with_inv _ _ Hi) as [rest Hr].
      exists [], rest. exact Hr.
    + apply orb_prop in Hi as [Hi|Hi].
      * destruct (starts_with_inv _ _ Hi) as [rest Hr]. exists [], rest. exact Hr.
      * destruct (IH Hi) as (pre & post & ->). now exists (c :: pre), post.
  - intros (pre & post & ->). induction pre as [|c pre IH].
    + apply includes_here. exact (starts_with_app needle post).
    + simpl. rewrite IH. apply orb_true_r.
Qed.

Lemma Occurs_refl (s : jsstring) : Occurs s s.
Proof. exists [], []. now rewrite app_nil_r. Qed.

Lemma Occurs_app_r (needle p s : jsstring) : Occurs needle s -> Occurs needle (p ++ s).
Proof. intros (pre & post & ->). exists (p ++ pre), post. now rewrite app_assoc. Qed.

Lemma Occurs_app_l (needle s p : jsstring) : Occurs needle s -> Occurs needle (s ++ p).
Proof.
  intros (pre & post & ->). exists pre, (post ++ p). now rewrite <- !app_assoc.
Qed.

Lemma Occurs_join (sep x : jsstring) (l : list jsstring) :
  In x l -> Occurs x (join sep l).
Proof.
  induction l as [|y l IH]; [intros []|].
  intros [->|Hin].
  - destruct l; [apply Occurs_refl|]. simpl. apply Occurs_app_l, Occurs_refl.
  - destruct l as [|z l]; [destruct Hin|].
    change (join sep (y :: z :: l)) with (y ++ sep ++ join sep (z :: l)).
    now apply Occurs_app_r, Occurs_app_r, IH.
Qed.

End StringFacts.

(** ** Numbers *)

Lemma toString_integer {F : JsNumber.Format} (q : Q) (z : Z) :
  Qeq q (inject_Z z) -> (Z.abs z < 10 ^ 21)%Z ->
  JsNumber.toString q = JsNumber.decimal z.
Proof.
  intros Hq Hz. unfold Qeq in Hq. simpl in Hq. rewrite Z.mul_1_r in Hq.
  unfold JsNumber.toString, JsNumber.is_integer, JsNumber.to_Z.
  rewrite Hq, Z_mod_mult, Z.div_mul by discriminate.
  apply Z.ltb_lt in Hz. now rewrite Hz.
Qed.

(** ** The prompt (C5) *)

Section PromptFacts.
Context {F : JsNumber.Format}.

Lemma Occurs_in_notes (scenario : Scenario) (productName : option jsstring)
  (settings : GenerationSettings) (note : jsstring) :
  In note (prompt_notes settings) ->
  Occurs note (buildPrompt scenario productName settings).
Proof.
  intros Hin. apply (Occurs_join (str " | ")) in Hin. unfold buildPrompt.
  revert Hin. generalize (join (str " | ") (prompt_notes settings)). intros notes Hin.
  repeat apply Occurs_app_r. exact Hin.
Qed.

(** C5. Whatever the scenario and the product name, the prompt built from
    settings with focusOnProduct = 5, tone = "Cinematic" and addMotion =
    true contains "Focus level (1-5): 5", "Tone: Cinematic" and "Add
    subtle motion-friendly composition cues". *)
Theorem buildPrompt_mentions_focus_tone_motion
  (scenario : Scenario) (productName : option jsstring) (settings : GenerationSettings) :
  Qeq (focusOnProduct settings) (inject_Z 5) ->
  tone settings = str "Cinematic" ->
  addMotion settings = Some true ->
  includes (buildPrompt scenario productName settings) (str "Focus level (1-5): 5") = true
  /\ includes (buildPrompt scenario productName settings) (str "Tone: Cinematic") = true
  /\ includes (buildPrompt scenario productName settings)
       (str "Add subtle motion-friendly composition cues") = true.
Proof.
  intros Hfocus Htone Hmotion.
  repeat split; apply includes_iff, Occurs_in_notes; unfold prompt_notes.
  - rewrite (toString_integer _ 5 Hfocus) by reflexivity.
    apply in_or_app; left. do 4 right. left. reflexivity.
  - rewrite Htone. apply in_or_app; left. left. reflexivity.
  - rewrite Hmotion. apply in_or_app; right. apply in_or_app; left. left. reflexivity.
Qed.

End PromptFacts.

Lemma buildPrompt_mentions_focus_tone_motion_witness :
  let F := {| JsNumber.toString_other := fun _ => str "NaN" |} in
  let settings :=
    mkSettings (inject_Z 5) (inject_Z 6) (str "Natural") (str "Cinematic")
      (str "Square (1:1)") (str "Standard") (Some true) None None in
  includes (buildPrompt Scripted.scenario_b None settings) (str "Focus level (1-5): 5") = true
  /\ includes (buildPrompt Scripted.scenario_b None settings) (str "Tone: Cinematic") = true
  /\ includes (buildPrompt Scripted.scenario_b None settings)
       (str "Add subtle motion-friendly composition cues") = true.
Proof.
  intros F settings.
  apply (buildPrompt_mentions_focus_tone_motion Scripted.scenario_b None settings);
    reflexivity.
Defined.

(** ** The trace *)

Lemma emitted_app (w w' : World) (evs : list Event) :
  trace w' = trace w ++ evs -> emitted w w' = evs.
Proof.
  intros Ht. unfold emitted. rewrite Ht, skipn_app, skipn_all, Nat.sub_diag.
  reflexivity.
Qed.

Lemma emitted_same (w : World) : emitted w w = [].
Proof. apply emitted_app. now rewrite app_nil_r. Qed.

Lemma constructed_app (t u : list Event) :
  constructed (t ++ u) = constructed t + constructed u.
Proof. unfold constructed. now rewrite filter_app, length_app. Qed.

(** ** The cache of the datastore handle: what every computation keeps *)

Create HintDb safe.

Lemma Safe_ret {A} (a : A) : Safe (ret a).
Proof. intros w; simpl; auto. Qed.

Lemma Safe_throw {A} (e : Exn) : Safe (@throw A e).
Proof. intros w; simpl; auto. Qed.

Lemma Safe_bind {A B} (m : M A) (k : A -> M B) :
  Safe m -> (forall a, Safe (k a)) -> Safe (bind m k).
Proof.
  intros Hm Hk w. unfold bind.
  destruct (Hm w) as (He & Hc & Hs). destruct (m w) as [[a|e] w1]; simpl in *.
  - destruct (Hk a w1) as (He' & Hc' & Hs'). repeat split.
    + congruence.
    + auto.
    + destruct (Hs _ H) as [H1 H2]. now destruct (Hs' _ H1).
    + destruct (Hs _ H) as [H1 H2]. destruct (Hs' _ H1). congruence.
  - auto.
Qed.

Lemma Safe_try_catch {A} (m : M A) (h : Exn -> M A) :
  Safe m -> (forall e, Safe (h e)) -> Safe (try_catch m h).
Proof.
  intros Hm Hh w. unfold try_catch.
  destruct (Hm w) as (He & Hc & Hs). destruct (m w) as [[a|e] w1]; simpl in *.
  - auto.
  - destruct (Hh e w1) as (He' & Hc' & Hs'). repeat split.
    + congruence.
    + auto.
    + destruct (Hs _ H) as [H1 H2]. now destruct (Hs' _ H1).
    + destruct (Hs _ H) as [H1 H2]. destruct (Hs' _ H1). congruence.
Qed.

Lemma Safe_emit (e : Event) : is_CreateClient e = false -> Safe (emit e).
Proof.
  intros He w. unfold cache_consistent. simpl.
  assert (Hk : constructed (trace w ++ [e]) = constructed (trace w)).
  { rewrite constructed_app. unfold constructed at 2. simpl. rewrite He. simpl. lia. }
  rewrite Hk. auto.
Qed.

Lemma Safe_read_env : Safe read_env.
Proof. intros w; simpl; auto. Qed.

Lemma Safe_history : Safe history.
Proof. intros w; simpl; auto. Qed.

Lemma Safe_req_json (req : Request) : Safe (req_json req).
Proof. unfold req_json. destruct (request_json req); [apply Safe_ret|apply Safe_throw]. Qed.

Lemma Safe_getSupabaseServerClient {L : Library} : Safe getSupabaseServerClient.
Proof.
  intros w. unfold getSupabaseServerClient, bind, read_env, read_cachedClient,
    createClient, write_cachedClient, ret, cache_consistent.
  destruct (configured (SUPABASE_URL (env w))) as [url|]; simpl; auto.
  destruct (configured (SUPABASE_SERVICE_ROLE_KEY (env w))) as [key|]; simpl; auto.
  destruct (cachedClient w) as [c|] eqn:Hc; simpl; rewrite ?Hc.
  - repeat split; auto.
  - destruct (createClient_returns url key); simpl; rewrite ?Hc.
    + repeat split; try discriminate.
      intros H0. rewrite constructed_app, H0. reflexivity.
    + repeat split; auto; discriminate.
Qed.

#[export] Hint Resolve Safe_ret Safe_throw Safe_read_env Safe_history Safe_req_json
  Safe_getSupabaseServerClient : safe.
#[export] Hint Extern 2 (Safe (bind _ _)) => apply Safe_bind; [|intros ?] : safe.
#[export] Hint Extern 2 (Safe (try_catch _ _)) =>
  apply Safe_try_catch; [|intros ?] : safe.
#[export] Hint Extern 2 (Safe (emit _)) => apply Safe_emit; reflexivity : safe.
#[export] Hint Extern 4 (Safe (match ?x with _ => _ end)) => destruct x : safe.

Ltac safe := auto 40 with safe.

Section RouteSafety.
Context {P : Providers} {L : Library}.

Lemma Safe_do_fetch (url key : jsstring) (body : Json.value) :
  Safe (GenerateRoute.do_fetch url key body).
Proof. unfold GenerateRoute.do_fetch. safe. Qed.

Lemma Safe_render (endpoint key : jsstring) (payload : GenerateRoute.Payload)
  (todo : list Scenario) :
  forall results, Safe (GenerateRoute.render endpoint key payload todo results).
Proof.
  induction todo as [|sc rest IH]; intros results; simpl.
  - safe.
  - pose proof Safe_do_fetch. unfold GenerateRoute.json_of. safe.
Qed.

Lemma Safe_inserts_of (payload : GenerateRoute.Payload) (results : list GeminiImagePart) :
  Safe (GenerateRoute.inserts_of payload results).
Proof.
  induction results as [|r rest IH]; simpl; unfold GenerateRoute.now_iso; safe.
Qed.

Lemma Safe_persist (payload : GenerateRoute.Payload) (results : list GeminiImagePart) :
  Safe (GenerateRoute.persist payload results).
Proof.
  pose proof Safe_inserts_of.
  unfold GenerateRoute.persist, GenerateRoute.do_insert, console_warn. safe.
Qed.

Lemma Safe_generate (req : Request) : Safe (GenerateRoute.POST req).
Proof.
  pose proof Safe_render. pose proof Safe_persist.
  unfold GenerateRoute.POST, console_error. safe.
Qed.

Lemma Safe_scenarios (req : Request) : Safe (ScenariosRoute.POST req).
Proof.
  unfold ScenariosRoute.POST, ScenariosRoute.do_messages_create,
    ScenariosRoute.do_createAndPoll, ScenariosRoute.do_messages_list,
    ScenariosRoute.parse_reply, console_error.
  safe.
Qed.

End RouteSafety.

(** ** The datastore handle over the life of the process (C9) *)

Section Handle.
Context {P : Providers} {L : Library}.

Lemma step_keeps_cache (w : World) (s : Process.Step) :
  (cache_consistent w -> cache_consistent (Process.step w s))
  /\ (forall c, cachedClient w = Some c ->
        cachedClient (Process.step w s) = Some c
        /\ constructed (trace (Process.step w s)) = constructed (trace w)).
Proof.
  destruct s as [req|req| |e]; simpl.
  - now destruct (Safe_generate req w) as (_ & ? & ?).
  - now destruct (Safe_scenarios req w) as (_ & ? & ?).
  - now destruct (Safe_getSupabaseServerClient w) as (_ & ? & ?).
  - unfold cache_consistent; simpl. auto.
Qed.

Lemma run_keeps_cache (script : list Process.Step) :
  forall w,
    (cache_consistent w -> cache_consistent (Process.run script w))
    /\ (forall c, cachedClient w = Some c ->
          cachedClient (Process.run script w) = Some c
          /\ constructed (trace (Process.run script w)) = constructed (trace w)).
Proof.
  induction script as [|s script IH]; intros w; simpl; [auto|].
  destruct (step_keeps_cache w s) as [Hc Hs].
  destruct (IH (Process.step w s)) as [Hc' Hs'].
  split; [auto|].
  intros c Hw. destruct (Hs _ Hw) as [H1 H2]. destruct (Hs' _ H1) as [H3 H4].
  split; congruence.
Qed.

Lemma boot_consistent (e : Env) : cache_consistent (Process.boot e).
Proof. reflexivity. Qed.

Lemma accessor_cached (w : World) (url key : jsstring) (c : SupabaseClient) :
  configured (SUPABASE_URL (env w)) = Some url ->
  configured (SUPABASE_SERVICE_ROLE_KEY (env w)) = Some key ->
  cachedClient w = Some c ->
  getSupabaseServerClient w = (Return (Some c), w).
Proof.
  intros Hu Hk Hc.
  unfold getSupabaseServerClient, bind, read_env, read_cachedClient, ret.
  now rewrite Hu, Hk, Hc.
Qed.

Lemma accessor_first (w : World) (url key : jsstring) :
  configured (SUPABASE_URL (env w)) = Some url ->
  configured (SUPABASE_SERVICE_ROLE_KEY (env w)) = Some key ->
  cachedClient w = None ->
  createClient_returns url key = true ->
  let c := mkClient (constructed (trace w)) url key false false in
  getSupabaseServerClient w
  = (Return (Some c), mkWorld (env w) (Some c) (trace w ++ [CreateClient c])).
Proof.
  intros Hu Hk Hc Hlib.
  unfold getSupabaseServerClient, bind, read_env, read_cachedClient, createClient,
    write_cachedClient, ret.
  now rewrite Hu, Hk, Hc, Hlib.
Qed.

Lemma accessor_disabled (w : World) :
  configured (SUPABASE_URL (env w)) = None
  \/ configured (SUPABASE_SERVICE_ROLE_KEY (env w)) = None ->
  getSupabaseServerClient w = (Return None, w).
Proof.
  unfold getSupabaseServerClient, bind, read_env, ret.
  intros [H|H]; rewrite H; [reflexivity|].
  now destruct (configured (SUPABASE_URL (env w))).
Qed.

(** The library throws: the accessor throws, and nothing has changed. *)
Lemma accessor_throws (w : World) (url key : jsstring) :
  configured (SUPABASE_URL (env w)) = Some url ->
  configured (SUPABASE_SERVICE_ROLE_KEY (env w)) = Some key ->
  cachedClient w = None ->
  createClient_returns url key = false ->
  getSupabaseServerClient w = (Throw ClientFailed, w).
Proof.
  intros Hu Hk Hc Hlib.
  unfold getSupabaseServerClient, bind, read_env, read_cachedClient, createClient,
    write_cachedClient, ret.
  now rewrite Hu, Hk, Hc, Hlib.
Qed.

Lemma obtainable_configured (w : World) (url key : jsstring) :
  configured (SUPABASE_URL (env w)) = Some url ->
  configured (SUPABASE_SERVICE_ROLE_KEY (env w)) = Some key ->
  handle_obtainable w
  = match cachedClient w with Some _ => true | None => createClient_returns url key end.
Proof. intros Hu Hk. unfold handle_obtainable. now rewrite Hu, Hk. Qed.

(** The accessor throws exactly when no handle can be obtained, and then
    changes nothing. *)
Lemma accessor_unobtainable (w : World) :
  handle_obtainable w = false -> getSupabaseServerClient w = (Throw ClientFailed, w).
Proof.
  unfold handle_obtainable.
  destruct (configured (SUPABASE_URL (env w))) as [url|] eqn:Hu; [|discriminate].
  destruct (configured (SUPABASE_SERVICE_ROLE_KEY (env w))) as [key|] eqn:Hk;
    [|discriminate].
  destruct (cachedClient w) eqn:Hc; [discriminate|].
  now apply accessor_throws.
Qed.

Lemma accessor_obtainable (w : World) :
  handle_obtainable w = true ->
  exists handle w1, getSupabaseServerClient w = (Return handle, w1).
Proof.
  unfold handle_obtainable. intros H.
  destruct (configured (SUPABASE_URL (env w))) as [url|] eqn:Hu.
  2:{ exists None, w. apply accessor_disabled. now left. }
  destruct (configured (SUPABASE_SERVICE_ROLE_KEY (env w))) as [key|] eqn:Hk.
  2:{ exists None, w. apply accessor_disabled. now right. }
  destruct (cachedClient w) as [c|] eqn:Hc.
  - exists (Some c), w. now apply (accessor_cached w url key).
  - eexists _, _. now apply (accessor_first w url key).
Qed.

(** C9, as the code has it. In every state the process can reach, at
    most one datastore handle has been constructed. With the URL and the
    service key configured, a call of the accessor returns the cached
    handle, untouched and with nothing constructed, when there is one.
    When there is none, the library decides: if it takes the URL and the
    key, the call constructs a handle, the first of the process, and
    caches it; if it throws, the call throws, nothing is constructed and
    nothing cached, so that the next call asks the library again. Once
    a call has returned a handle, whatever the process does afterwards,
    the cache holds that handle, no other one is constructed, and every
    later call under a configured environment returns it and changes
    nothing. With either credential absent the accessor returns null and
    changes nothing. *)
Theorem datastore_handle_created_at_most_once (e : Env) (script : list Process.Step) :
  let w := Process.run script (Process.boot e) in
  constructed (trace w) <= 1
  /\ (forall url key,
        configured (SUPABASE_URL (env w)) = Some url ->
        configured (SUPABASE_SERVICE_ROLE_KEY (env w)) = Some key ->
        handle_obtainable w = true ->
        exists c w1,
          getSupabaseServerClient w = (Return (Some c), w1)
          /\ cachedClient w1 = Some c
          /\ match cachedClient w with
             | Some c0 => c = c0 /\ w1 = w
             | None =>
                 createClient_returns url key = true
                 /\ constructed (trace w) = 0
                 /\ c = mkClient 0 url key false false
                 /\ emitted w w1 = [CreateClient c]
             end
          /\ forall later,
               let w2 := Process.run later w1 in
               cachedClient w2 = Some c
               /\ constructed (trace w2) = 1
               /\ (forall url2 key2,
                     configured (SUPABASE_URL (env w2)) = Some url2 ->
                     configured (SUPABASE_SERVICE_ROLE_KEY (env w2)) = Some key2 ->
                     getSupabaseServerClient w2 = (Return (Some c), w2)))
  /\ (forall url key,
        configured (SUPABASE_URL (env w)) = Some url ->
        configured (SUPABASE_SERVICE_ROLE_KEY (env w)) = Some key ->
        handle_obtainable w = false ->
        cachedClient w = None
        /\ createClient_returns url key = false
        /\ constructed (trace w) = 0
        /\ getSupabaseServerClient w = (Throw ClientFailed, w))
  /\ (configured (SUPABASE_URL (env w)) = None
      \/ configured (SUPABASE_SERVICE_ROLE_KEY (env w)) = None ->
      getSupabaseServerClient w = (Return None, w)).
Proof.
  intros w.
  assert (Hw : cache_consistent w).
  { apply run_keeps_cache, boot_consistent. }
  split; [|split; [|split]].
  - unfold cache_consistent in Hw. destruct (cachedClient w); lia.
  - intros url key Hu Hk Hobtainable.
    rewrite (obtainable_configured w url key Hu Hk) in Hobtainable.
    assert (Hlater : forall c w1,
      cachedClient w1 = Some c -> constructed (trace w1) = 1 ->
      forall later,
        let w2 := Process.run later w1 in
        cachedClient w2 = Some c
        /\ constructed (trace w2) = 1
        /\ (forall url2 key2,
              configured (SUPABASE_URL (env w2)) = Some url2 ->
              configured (SUPABASE_SERVICE_ROLE_KEY (env w2)) = Some key2 ->
              getSupabaseServerClient w2 = (Return (Some c), w2))).
    { intros c w1 Hc1 Hn later w2.
      destruct (run_keeps_cache later w1) as [_ Hs].
      destruct (Hs _ Hc1) as [H1 H2]. fold w2 in H1, H2.
      repeat split; [exact H1|congruence|].
      intros url2 key2 Hu2 Hk2. now apply (accessor_cached w2 url2 key2). }
    unfold cache_consistent in Hw.
    destruct (cachedClient w) as [c0|] eqn:Hc.
    + exists c0, w. rewrite (accessor_cached w url key c0 Hu Hk Hc).
      split; [reflexivity|]. split; [exact Hc|]. split; [split; reflexivity|].
      now apply Hlater.
    + pose proof (accessor_first w url key Hu Hk Hc Hobtainable) as Hf. simpl in Hf.
      rewrite Hw in Hf. rewrite Hf.
      eexists _, _. split; [reflexivity|]. split; [reflexivity|].
      split; [repeat split; [exact Hobtainable|exact Hw|]|].
      * apply emitted_app. reflexivity.
      * apply Hlater; simpl; [reflexivity|].
        now rewrite constructed_app, Hw.
  - intros url key Hu Hk Hobtainable.
    rewrite (obtainable_configured w url key Hu Hk) in Hobtainable.
    unfold cache_consistent in Hw.
    destruct (cachedClient w) as [c0|] eqn:Hc; [discriminate|].
    repeat split; auto. now apply (accessor_throws w url key).
  - apply accessor_disabled.
Qed.

End Handle.

(** ** The image route: what a run of the handler looks like *)

Section GenerateRuns.
Context {P : Providers} {L : Library}.

Lemma do_fetch_run (url key : jsstring) (body : Json.value) (w : World) :
  GenerateRoute.do_fetch url key body w
  = let outcome := fetch (trace w) url key body in
    let w1 := mkWorld (env w) (cachedClient w)
                (trace w ++ [Fetch url key body outcome]) in
    match outcome with
    | FetchRejects => (Throw FetchFailed, w1)
    | FetchResolves r => (Return r, w1)
    end.
Proof.
  unfold GenerateRoute.do_fetch, bind, history, emit. simpl.
  destruct (fetch (trace w) url key body); reflexivity.
Qed.

Lemma render_cons (endpoint key : jsstring) (payload : GenerateRoute.Payload)
  (sc : Scenario) (rest : list Scenario) (results : list GeminiImagePart) (w : World) :
  GenerateRoute.render endpoint key payload (sc :: rest) results w
  = let body :=
      GenerateRoute.fetch_body
        (buildPrompt sc (GenerateRoute.productName payload) (GenerateRoute.settings payload))
        (GenerateRoute.productImage payload) in
    let outcome := fetch (trace w) endpoint key body in
    let w1 := mkWorld (env w) (cachedClient w)
                (trace w ++ [Fetch endpoint key body outcome]) in
    match outcome with
    | FetchRejects => (Throw FetchFailed, w1)
    | FetchResolves r =>
        if ok r then
          match response_json r with
          | None => (Throw SyntaxError, w1)
          | Some j =>
              match GenerateRoute.image_of (GenerateRoute.find_part j) with
              | None => (Throw NoImageData, w1)
              | Some (mime, dat) =>
                  GenerateRoute.render endpoint key payload rest
                    (results ++ [mkImagePart mime dat sc]) w1
              end
          end
        else (Throw (GeminiFailed (status r) (response_text r)), w1)
    end.
Proof.
  simpl. unfold bind at 1. rewrite do_fetch_run. simpl.
  destruct (fetch (trace w) endpoint key _) as [|r]; [reflexivity|].
  destruct (ok r); simpl; [|reflexivity].
  unfold bind, GenerateRoute.json_of.
  destruct (response_json r) as [j|]; simpl; [|reflexivity].
  now destruct (GenerateRoute.image_of (GenerateRoute.find_part j)) as [[mime dat]|].
Qed.

Lemma render_run (endpoint key : jsstring) (payload : GenerateRoute.Payload)
  (todo : list Scenario) :
  forall results w,
  exists evs,
    let rw := GenerateRoute.render endpoint key payload todo results w in
    env (snd rw) = env w
    /\ cachedClient (snd rw) = cachedClient w
    /\ trace (snd rw) = trace w ++ evs
    /\ Forall (fun e => is_Fetch e = true) evs
    /\ match fst rw with
       | Return out =>
           Forall (fun e => call_succeeded e = true) evs
           /\ List.length evs = List.length todo
           /\ exists images, out = results ++ images /\ map scenario images = todo
       | Throw x =>
           exists good bad,
             evs = good ++ [bad]
             /\ Forall (fun e => call_succeeded e = true) good
             /\ call_succeeded bad = false
             /\ thrown_for bad = Some x
       end.
Proof.
  induction todo as [|sc rest IH]; intros results w.
  - exists []. simpl. rewrite app_nil_r. repeat split; auto.
    exists []. now rewrite app_nil_r.
  - rewrite render_cons. cbv zeta.
    set (body := GenerateRoute.fetch_body _ _).
    set (ev := Fetch endpoint key body (fetch (trace w) endpoint key body)).
    assert (Hev : is_Fetch ev = true) by reflexivity.
    assert (Hsucc : call_succeeded ev = gives_image (fetch (trace w) endpoint key body))
      by reflexivity.
    assert (Hthrown : thrown_for ev
                      = thrown_for (Fetch endpoint key body
                                      (fetch (trace w) endpoint key body)))
      by reflexivity.
    clearbody ev.
    assert (Hstop : forall x,
      call_succeeded ev = false -> thrown_for ev = Some x ->
      exists good bad,
        [ev] = good ++ [bad]
        /\ Forall (fun e => call_succeeded e = true) good
        /\ call_succeeded bad = false
        /\ thrown_for bad = Some x).
    { intros x H1 H2. exists [], ev. repeat split; auto. }
    destruct (fetch (trace w) endpoint key body) as [|r];
      cbn [gives_image thrown_for] in Hsucc, Hthrown.
    { exists [ev]. simpl. repeat split; auto. }
    destruct (ok r) eqn:Hok; cbn [andb] in Hsucc.
    2:{ exists [ev]. simpl. repeat split; auto. }
    destruct (response_json r) as [j|].
    2:{ exists [ev]. simpl. repeat split; auto. }
    destruct (GenerateRoute.image_of (GenerateRoute.find_part j)) as [[mime dat]|].
    2:{ exists [ev]. simpl. repeat split; auto. }
    set (w1 := mkWorld (env w) (cachedClient w) (trace w ++ [ev])).
    destruct (IH (results ++ [mkImagePart mime dat sc]) w1)
      as (evs & He & Hc & Ht & Hf & Hr).
    exists (ev :: evs). cbv zeta in *.
    split; [exact He|]. split; [exact Hc|].
    split; [rewrite Ht; simpl; now rewrite <- app_assoc|].
    split; [now constructor|].
    destruct (fst (GenerateRoute.render endpoint key payload rest
                     (results ++ [mkImagePart mime dat sc]) w1)) as [out|x].
    + destruct Hr as (Hall & Hlen & images & Hout & Hmap).
      split; [now constructor|]. split; [simpl; now rewrite Hlen|].
      exists (mkImagePart mime dat sc :: images). split.
      * now rewrite Hout, <- app_assoc.
      * simpl. now rewrite Hmap.
    + destruct Hr as (good & bad & Hevs & Hgood & Hbad & Hx).
      exists (ev :: good), bad. repeat split; auto.
      now rewrite Hevs.
Qed.

End GenerateRuns.

Section GenerateOutcome.
Context {P : Providers} {L : Library}.

Lemma inserts_of_run (payload : GenerateRoute.Payload) (results : list GeminiImagePart) :
  forall w,
  exists rows evs,
    GenerateRoute.inserts_of payload results w
    = (Return rows, mkWorld (env w) (cachedClient w) (trace w ++ evs))
    /\ map scenario_id rows = map (fun r => id (scenario r)) results
    /\ Forall (fun e => is_Fetch e = false) evs
    /\ Forall (fun e => is_Insert e = false) evs.
Proof.
  induction results as [|r rest IH]; intros w; simpl.
  - exists [], []. rewrite app_nil_r. now destruct w.
  - unfold bind at 1, GenerateRoute.now_iso, bind, history, emit, ret. simpl.
    set (ev := Clock (clock (trace w))).
    destruct (IH (mkWorld (env w) (cachedClient w) (trace w ++ [ev])))
      as (rows & evs & Hrun & Hids & Hf & Hi).
    rewrite Hrun. simpl.
    eexists _, (ev :: evs). rewrite <- app_assoc. split; [reflexivity|].
    simpl. rewrite Hids. repeat split; now constructor.
Qed.

(** What the accessor leaves behind when it returns. *)
Lemma accessor_returns (w w1 : World) (handle : option SupabaseClient) :
  getSupabaseServerClient w = (Return handle, w1) ->
  env w1 = env w
  /\ exists pre,
       trace w1 = trace w ++ pre
       /\ Forall (fun e => is_Fetch e = false) pre
       /\ Forall (fun e => is_Insert e = false) pre
       /\ (handle = None -> w1 = w).
Proof.
  unfold getSupabaseServerClient, bind, read_env, read_cachedClient, createClient,
    write_cachedClient, ret.
  assert (Hsame : forall h, (Return h, w) = (Return handle, w1) ->
    env w1 = env w
    /\ exists pre,
         trace w1 = trace w ++ pre
         /\ Forall (fun e => is_Fetch e = false) pre
         /\ Forall (fun e => is_Insert e = false) pre
         /\ (handle = None -> w1 = w)).
  { intros h Hget. inversion Hget; subst. split; [reflexivity|].
    exists []. rewrite app_nil_r. repeat split; auto. }
  destruct (configured (SUPABASE_URL (env w))) as [url|]; [|apply Hsame].
  destruct (configured (SUPABASE_SERVICE_ROLE_KEY (env w))) as [key|]; [|apply Hsame].
  destruct (cachedClient w); [apply Hsame|].
  destruct (createClient_returns url key); [|discriminate].
  intros Hget. inversion Hget; subst. simpl. split; [reflexivity|].
  eexists. split; [reflexivity|]. repeat split; try discriminate; repeat constructor.
Qed.

Lemma persist_run (payload : GenerateRoute.Payload) (results : list GeminiImagePart)
  (w : World) :
  exists w' evs,
    GenerateRoute.persist payload results w
    = (if handle_obtainable w then Return tt else Throw ClientFailed, w')
    /\ env w' = env w
    /\ trace w' = trace w ++ evs
    /\ Forall (fun e => is_Fetch e = false) evs
    /\ List.length (filter is_Insert evs) <= 1
    /\ (forall c t rows err,
          In (Insert c t rows (Some err)) evs -> In (ConsoleWarn warning_text err) evs)
    /\ (forall c t rows error,
          In (Insert c t rows error) evs ->
          t = str "ugc_generations"
          /\ map scenario_id rows = map (fun r => id (scenario r)) results)
    /\ (handle_obtainable w = false -> w' = w).
Proof.
  unfold GenerateRoute.persist. unfold bind at 1.
  destruct (handle_obtainable w) eqn:Hobtainable.
  2:{ rewrite (accessor_unobtainable w Hobtainable).
      exists w, []. rewrite app_nil_r. simpl.
      repeat split; auto; intros; contradiction. }
  destruct (accessor_obtainable w Hobtainable) as (handle & w1 & Hget).
  rewrite Hget. destruct (accessor_returns w w1 handle Hget)
    as (He1 & pre & Ht1 & Hpre & Hpre' & Hnone).
  destruct handle as [client|].
  - unfold bind at 1.
    destruct (inserts_of_run payload results w1) as (rows & clocks & Hrun & Hids & Hcl & Hcl').
    rewrite Hrun.
    unfold bind at 1, GenerateRoute.do_insert, bind, history, emit, ret. simpl.
    set (error := insert (trace w1 ++ clocks) client (str "ugc_generations") rows).
    set (ev := Insert client (str "ugc_generations") rows error).
    assert (Hno : Forall (fun e => is_Insert e = false) (pre ++ clocks))
      by (apply Forall_app; auto).
    assert (Hzero : filter is_Insert (pre ++ clocks) = []).
    { clear -Hno. induction Hno as [|e l He _ IH]; simpl; [reflexivity|].
      now rewrite He. }
    assert (Hin : forall e, In e (pre ++ clocks) -> is_Insert e = false).
    { now apply Forall_forall. }
    destruct error as [err|] eqn:Herr; unfold console_warn, emit; simpl.
    + eexists _, (pre ++ clocks ++ [ev; ConsoleWarn warning_text err]).
      split; [reflexivity|]. simpl. split; [exact He1|].
      split; [rewrite Ht1; now rewrite <- !app_assoc|].
      split; [repeat (apply Forall_app; split); auto; repeat constructor|].
      rewrite app_assoc, filter_app, Hzero. split; [simpl; lia|].
      split; [|split; [|discriminate]].
      * intros c t rows' err' Hi. apply in_app_or in Hi as [Hi|Hi].
        { apply Hin in Hi. discriminate. }
        destruct Hi as [Hi|[Hi|[]]]; [|discriminate].
        inversion Hi; subst. apply in_or_app; right. right; left. reflexivity.
      * intros c t rows' error' Hi. apply in_app_or in Hi as [Hi|Hi].
        { apply Hin in Hi. discriminate. }
        destruct Hi as [Hi|[Hi|[]]]; [|discriminate].
        inversion Hi; subst. now split.
    + eexists _, (pre ++ clocks ++ [ev]).
      split; [reflexivity|]. simpl. split; [exact He1|].
      split; [rewrite Ht1; now rewrite <- !app_assoc|].
      split; [repeat (apply Forall_app; split); auto; repeat constructor|].
      rewrite app_assoc, filter_app, Hzero. split; [simpl; lia|].
      split; [|split; [|discriminate]].
      * intros c t rows' err' Hi. apply in_app_or in Hi as [Hi|Hi].
        { apply Hin in Hi. discriminate. }
        destruct Hi as [Hi|[]]. inversion Hi.
      * intros c t rows' error' Hi. apply in_app_or in Hi as [Hi|Hi].
        { apply Hin in Hi. discriminate. }
        destruct Hi as [Hi|[]]. inversion Hi; subst. now split.
  - rewrite (Hnone eq_refl). exists w, []. rewrite app_nil_r. simpl.
    repeat split; auto; intros; contradiction.
Qed.

End GenerateOutcome.

Section GenerateCases.
Context {P : Providers} {L : Library}.

Lemma map_image_eta (l : list GeminiImagePart) :
  map (fun r => mkImagePart (mimeType r) (data r) (scenario r)) l = l.
Proof. induction l as [|[m d s] l IH]; simpl; [reflexivity|now rewrite IH]. Qed.

Lemma obtainable_disabled (w : World) :
  configured (SUPABASE_URL (env w)) = None
  \/ configured (SUPABASE_SERVICE_ROLE_KEY (env w)) = None ->
  handle_obtainable w = true.
Proof.
  unfold handle_obtainable. intros [H|H]; rewrite H; [reflexivity|].
  now destruct (configured (SUPABASE_URL (env w))).
Qed.

Lemma obtainable_same (w w1 : World) :
  env w1 = env w -> cachedClient w1 = cachedClient w ->
  handle_obtainable w1 = handle_obtainable w.
Proof. intros He Hc. unfold handle_obtainable. now rewrite He, Hc. Qed.

(** The handler, once the key is there and the payload is accepted: the
    loop, then either the persistence step and the success response, or
    the log entry and the generic failure, also when it is the accessor
    of the datastore that throws. *)
Lemma generate_accepted (req : Request) (w : World) (apiKey : jsstring)
  (js : Json.value) (payload : GenerateRoute.Payload) :
  configured (GOOGLE_GEMINI_API_KEY (env w)) = Some apiKey ->
  request_json req = Some js ->
  GenerateRoute.requestSchema (Some js) = Some payload ->
  GenerateRoute.POST req w
  = let model := nullish (GOOGLE_GEMINI_IMAGE_MODEL (env w)) GenerateRoute.DEFAULT_MODEL in
    match GenerateRoute.render (GenerateRoute.endpoint_of model) apiKey payload
            (GenerateRoute.scenarios payload) [] w with
    | (Return out, w1) =>
        if handle_obtainable w
        then (Return (json_response (ImagesBody out)),
              snd (GenerateRoute.persist payload out w1))
        else (Return generic_failure,
              mkWorld (env w1) (cachedClient w1)
                (trace w1 ++ [failure_log ClientFailed]))
    | (Throw x, w1) =>
        (Return generic_failure,
         mkWorld (env w1) (cachedClient w1) (trace w1 ++ [failure_log x]))
    end.
Proof.
  intros Hkey Hjs Hpayload.
  unfold GenerateRoute.POST. unfold bind at 1. unfold read_env. cbv beta iota zeta.
  rewrite Hkey. unfold bind at 1. unfold req_json. rewrite Hjs.
  unfold ret at 1. cbv beta iota. rewrite Hpayload.
  unfold try_catch. unfold bind at 1.
  set (endpoint := GenerateRoute.endpoint_of _).
  destruct (render_run endpoint apiKey payload (GenerateRoute.scenarios payload) [] w)
    as (calls & He & Hc & _).
  cbv zeta in He, Hc.
  destruct (GenerateRoute.render endpoint apiKey payload _ [] w) as [[out|x] w1].
  - unfold bind at 1. cbn [snd] in He, Hc.
    destruct (persist_run payload out w1) as (w2 & evs & Hp & _ & _ & _ & _ & _ & _ & Hw).
    rewrite Hp. rewrite (obtainable_same w w1 He Hc) in *.
    destruct (handle_obtainable w).
    + unfold ret. cbv beta iota. now rewrite map_image_eta.
    + rewrite (Hw eq_refl). reflexivity.
  - reflexivity.
Qed.

Lemma generate_rejected (req : Request) (w : World) :
  (configured (GOOGLE_GEMINI_API_KEY (env w)) = None ->
   GenerateRoute.POST req w = (Return missing_key_response, w))
  /\ (forall apiKey,
        configured (GOOGLE_GEMINI_API_KEY (env w)) = Some apiKey ->
        request_json req = None ->
        GenerateRoute.POST req w = (Throw SyntaxError, w))
  /\ (forall apiKey js,
        configured (GOOGLE_GEMINI_API_KEY (env w)) = Some apiKey ->
        request_json req = Some js ->
        GenerateRoute.requestSchema (Some js) = None ->
        GenerateRoute.POST req w = (Return invalid_payload_response, w)).
Proof.
  split; [|split]; intros;
    unfold GenerateRoute.POST; unfold bind at 1; unfold read_env; cbv beta iota zeta.
  - now rewrite H.
  - rewrite H. unfold bind, req_json. now rewrite H0.
  - rewrite H. unfold bind at 1. unfold req_json. rewrite H0.
    unfold ret at 1. cbv beta iota. now rewrite H1.
Qed.

Lemma generate_run (req : Request) (w : World) :
  Run req w (fst (GenerateRoute.POST req w)) (snd (GenerateRoute.POST req w)).
Proof.
  destruct (generate_rejected req w) as (Hmissing & Hnotjson & Hinvalid).
  destruct (configured (GOOGLE_GEMINI_API_KEY (env w))) as [apiKey|] eqn:Hkey.
  2:{ rewrite Hmissing by reflexivity. now constructor. }
  destruct (request_json req) as [js|] eqn:Hjs.
  2:{ rewrite (Hnotjson apiKey) by reflexivity. now constructor. }
  destruct (GenerateRoute.requestSchema (Some js)) as [payload|] eqn:Hp.
  2:{ rewrite (Hinvalid apiKey js eq_refl eq_refl Hp). now apply RunInvalid with js. }
  rewrite (generate_accepted req w apiKey js payload Hkey Hjs Hp). cbv zeta.
  set (endpoint := GenerateRoute.endpoint_of _).
  destruct (render_run endpoint apiKey payload (GenerateRoute.scenarios payload) [] w)
    as (evs & He & Hc & Ht & Hf & Hr).
  cbv zeta in *.
  destruct (GenerateRoute.render endpoint apiKey payload _ [] w) as [[out|x] w1];
    simpl in *.
  - destruct Hr as (Hall & Hlen & images & Hout & Hmap). simpl in Hout. subst out.
    destruct (persist_run payload images w1)
      as (w2 & pevs & Hp2 & _ & Ht2 & Hnf & Hone & Hwarn & Hrows & _).
    rewrite (obtainable_same w w1 He Hc) in Hp2.
    destruct (handle_obtainable w) eqn:Hobtainable.
    + rewrite Hp2. simpl.
      apply RunImages with js payload evs pevs; auto.
      now rewrite Ht2, Ht, <- app_assoc.
    + apply RunUnstored with js payload evs; auto.
      simpl. now rewrite Ht, <- app_assoc.
  - destruct Hr as (good & bad & Hevs & Hgood & Hbad & Hx). subst evs.
    apply RunFailed with js payload good bad x; auto.
    + apply Forall_app in Hf as [_ Hf]. now inversion Hf.
    + simpl. rewrite Ht, <- !app_assoc. reflexivity.
Qed.

End GenerateCases.

(** ** The schemas *)

(** In a hypothesis [H : ... = Some _] built from nested matches on
    options and booleans, name each scrutinee and discard the branches
    that reject. *)
Ltac accepted H :=
  repeat match type of H with
         | match ?x with _ => _ end = Some _ =>
             let E := fresh "E" in destruct x eqn:E; try discriminate H
         | (if ?b then _ else _) = Some _ =>
             let E := fresh "E" in destruct b eqn:E; try discriminate H
         end.

Lemma all_Forall2 {A} (s : Zod.schema A) (items : list Json.value) (l : list A) :
  Zod.all s items = Some l -> Forall2 (fun j a => s (Some j) = Some a) items l.
Proof.
  revert l; induction items as [|x items IH]; intros l H; simpl in H.
  - inversion H. constructor.
  - accepted H. inversion H; subst. constructor; auto.
Qed.

Lemma string_accepts (v : option Json.value) (s : jsstring) :
  Zod.string v = Some s -> v = Some (JStr s).
Proof. destruct v as [[]|]; simpl; intros H; inversion H. reflexivity. Qed.


Lemma requestSchema_scenarios (js : Json.value) (payload : GenerateRoute.Payload) :
  GenerateRoute.requestSchema (Some js) = Some payload ->
  exists fields raw,
    js = JObj fields
    /\ Json.get (str "scenarios") fields = Some (JArr raw)
    /\ Forall2 (fun j s => scenarioSchema (Some j) = Some s) raw
         (GenerateRoute.scenarios payload)
    /\ 1 <= List.length (GenerateRoute.scenarios payload).
Proof.
  unfold GenerateRoute.requestSchema, Zod.object, Zod.field. intros H.
  destruct js as [| | | | |fields]; try discriminate H.
  exists fields.
  destruct (Zod.optional Zod.string (get (str "threadId") fields)); [|discriminate].
  destruct (Zod.optional Zod.string (get (str "productName") fields)); [|discriminate].
  destruct (GenerateRoute.productImageSchema _); [|discriminate].
  destruct (Zod.min_length 1 (Zod.array scenarioSchema) (get (str "scenarios") fields))
    as [l|] eqn:Hl; [|discriminate].
  destruct (generationSettingsSchema _); [|discriminate].
  inversion H; subst; simpl. clear H.
  unfold Zod.min_length, Zod.check, Zod.array in Hl.
  destruct (get (str "scenarios") fields) as [[| | | |raw|]|]; try discriminate Hl.
  exists raw. split; [reflexivity|]. split; [reflexivity|].
  destruct (Zod.all scenarioSchema raw) as [l'|] eqn:Hall; [|discriminate].
  destruct (Nat.leb 1 (List.length l')) eqn:Hlen; [|discriminate].
  inversion Hl; subst. split; [exact (all_Forall2 _ _ _ Hall)|].
  now apply Nat.leb_le.
Qed.

(** ** The image route: the specification's properties *)

Lemma refused_is_not_success (e : Event) :
  call_refused e = true -> call_succeeded e = false /\ is_Fetch e = true.
Proof.
  destruct e as [u k b [|r]| | | | | | | |]; simpl; try discriminate.
  intros H. apply negb_true_iff in H. now rewrite H.
Qed.

Lemma succeeded_is_fetch (e : Event) : call_succeeded e = true -> is_Fetch e = true.
Proof. destruct e; simpl; auto; discriminate. Qed.

Lemma filter_all {A} (f : A -> bool) (l : list A) :
  Forall (fun x => f x = true) l -> filter f l = l.
Proof. induction 1 as [|x l Hx _ IH]; simpl; [reflexivity|]. now rewrite Hx, IH. Qed.

Lemma filter_none {A} (f : A -> bool) (l : list A) :
  Forall (fun x => f x = false) l -> filter f l = [].
Proof. induction 1 as [|x l Hx _ IH]; simpl; [reflexivity|]. now rewrite Hx. Qed.

Section GenerateProperties.
Context {P : Providers} {L : Library}.

(** C7. While GOOGLE_GEMINI_API_KEY is unset, every request to the image
    route is answered with status 500 and the configuration error, and
    the handler has no effect at all: no call to the image provider is
    made, and the world is left as it was. *)
Theorem missing_key_fails_before_any_call (req : Request) (w : World) :
  GOOGLE_GEMINI_API_KEY (env w) = None ->
  exists w',
    GenerateRoute.POST req w
    = (Return (mkResponse 500
                 (ErrorBody (str "Missing GOOGLE_GEMINI_API_KEY environment variable."))),
       w')
    /\ emitted w w' = []
    /\ filter is_Fetch (emitted w w') = []
    /\ w' = w.
Proof.
  intros Hkey. exists w.
  destruct (generate_rejected req w) as (Hmissing & _).
  rewrite Hmissing by now rewrite Hkey.
  rewrite emitted_same. repeat split; reflexivity.
Qed.

(** C3. If, while a request is handled, any call to the image provider is
    answered with a status outside 200-299, the response is status 500
    with the generic message, so that no image of the batch is returned,
    and the handler has inserted nothing into the datastore. The refused
    call is the last effect but one: the calls before it all gave an
    image, no call follows it, and what follows is the log entry of the
    error that names the status and the body. *)
Theorem provider_refusal_fails_the_batch (req : Request) (w : World)
  (resp : Result Response) (w' : World) :
  GenerateRoute.POST req w = (resp, w') ->
  (exists e, In e (emitted w w') /\ call_refused e = true) ->
  resp = Return (mkResponse 500
                   (ErrorBody
                      (str "Image generation failed. Please try again with a different concept.")))
  /\ filter is_Insert (emitted w w') = []
  /\ (forall e, In e (emitted w w') -> is_Insert e = false)
  /\ exists good url key body r,
       emitted w w'
       = good ++ [Fetch url key body (FetchResolves r);
                  ConsoleError (str "Gemini generation failed")
                    (GeminiFailed (status r) (response_text r))]
       /\ ok r = false
       /\ Forall (fun e => call_succeeded e = true) good.
Proof.
  intros Hpost (e & Hin & Hrefused).
  pose proof (refused_is_not_success e Hrefused) as [Hfail Hfetch].
  pose proof (generate_run req w) as HR. rewrite Hpost in HR. simpl in HR.
  inversion HR as
    [Hk Hr Hw
    | Hj Hr Hw
    | js0 Hj0 Hs0 Hr Hw
    | js0 payload0 images calls after w0 Hj0 Hs0 Hobt Hmap Hsucc Hlen Hnf Hone Hwarn Hrows Ht Hr Hw
    | js0 payload0 good bad x w0 Hj0 Hs0 Hgood Hbadf Hbad Hx Ht Hr Hw
    | js0 payload0 calls w0 Hj0 Hs0 Hobt Hsucc Hlen Ht Hcache Hr Hw];
    subst; try (rewrite emitted_same in Hin; contradiction).
  - rewrite (emitted_app w w' _ Ht) in Hin.
    apply in_app_or in Hin as [Hin|Hin].
    + rewrite Forall_forall in Hsucc. apply Hsucc in Hin. congruence.
    + rewrite Forall_forall in Hnf. apply Hnf in Hin. congruence.
  - rewrite (emitted_app w w' _ Ht) in *.
    assert (Hnone : Forall (fun e => is_Insert e = false) (good ++ [bad; failure_log x])).
    { apply Forall_app. split.
      - eapply Forall_impl; [|exact Hgood]. intros a Ha.
        apply succeeded_is_fetch in Ha. now destruct a.
      - repeat constructor. now destruct bad. }
    split; [reflexivity|]. split; [now apply filter_none|].
    split; [now apply Forall_forall|].
    assert (He : e = bad).
    { apply in_app_or in Hin as [Hin|Hin].
      - rewrite Forall_forall in Hgood. apply Hgood in Hin. congruence.
      - destruct Hin as [Hin|[Hin|[]]]; [now symmetry|].
        subst e. discriminate. }
    subst e.
    destruct bad as [url key body [|r]| | | | | | | |]; try discriminate.
    cbn [call_refused] in Hrefused. apply negb_true_iff in Hrefused.
    cbn [thrown_for] in Hx. rewrite Hrefused in Hx. inversion Hx; subst x.
    exists good, url, key, body, r. repeat split; auto.
  - rewrite (emitted_app w w' _ Ht) in Hin.
    apply in_app_or in Hin as [Hin|Hin].
    + rewrite Forall_forall in Hsucc. apply Hsucc in Hin. congruence.
    + destruct Hin as [Hin|[]]. subst e. discriminate.
Qed.


End GenerateProperties.

Lemma render_ext (P P' : Providers) (endpoint key : jsstring)
  (payload : GenerateRoute.Payload) (todo : list Scenario) :
  same_image_provider P P' ->
  forall results w,
    @GenerateRoute.render P endpoint key payload todo results w
    = @GenerateRoute.render P' endpoint key payload todo results w.
Proof.
  intros [Hformat Hfetch].
  induction todo as [|sc rest IH]; intros results w; [reflexivity|].
  rewrite !render_cons. cbv zeta. rewrite Hformat, Hfetch.
  destruct (fetch (trace w) endpoint key _) as [|r]; [reflexivity|].
  destruct (ok r); [|reflexivity].
  destruct (response_json r) as [j|]; [|reflexivity].
  destruct (GenerateRoute.image_of (GenerateRoute.find_part j)) as [[mime dat]|];
    [|reflexivity].
  apply IH.
Qed.

Lemma generate_response_ext (P P' : Providers) {L : Library} (req : Request) (w : World) :
  same_image_provider P P' ->
  fst (@GenerateRoute.POST P L req w) = fst (@GenerateRoute.POST P' L req w).
Proof.
  intros Hsame.
  destruct (@generate_rejected P L req w) as (Hm & Hn & Hi).
  destruct (@generate_rejected P' L req w) as (Hm' & Hn' & Hi').
  destruct (configured (GOOGLE_GEMINI_API_KEY (env w))) as [apiKey|] eqn:Hkey.
  2:{ now rewrite Hm, Hm'. }
  destruct (request_json req) as [js|] eqn:Hjs.
  2:{ now rewrite (Hn apiKey), (Hn' apiKey). }
  destruct (GenerateRoute.requestSchema (Some js)) as [payload|] eqn:Hp.
  2:{ now rewrite (Hi apiKey js), (Hi' apiKey js). }
  rewrite (@generate_accepted P L req w apiKey js payload Hkey Hjs Hp).
  rewrite (@generate_accepted P' L req w apiKey js payload Hkey Hjs Hp).
  cbv zeta. rewrite (render_ext P P' _ _ _ _ Hsame).
  destruct (GenerateRoute.render _ apiKey payload _ [] w) as [[out|x] w1];
    [|reflexivity].
  now destruct (handle_obtainable w).
Qed.

Section Persistence.
Context {P : Providers} {L : Library}.

(** C4. If, while a request to the image route is handled, the insert of
    the metadata rows fails, then every call to the image provider has
    given an image and the response is still the success response, with
    one image per scenario of the payload; the error is logged with
    console.warn. The response is the one the handler gives with any
    other datastore, one whose insert succeeds included, as long as the
    image provider answers alike. *)
Theorem persistence_failure_is_not_fatal (req : Request) (w : World)
  (resp : Result Response) (w' : World)
  (client : SupabaseClient) (table : jsstring) (rows : list Row) (err : PostgrestError) :
  GenerateRoute.POST req w = (resp, w') ->
  In (Insert client table rows (Some err)) (emitted w w') ->
  (exists js payload images,
      request_json req = Some js
      /\ GenerateRoute.requestSchema (Some js) = Some payload
      /\ resp = Return (mkResponse 200 (ImagesBody images))
      /\ map scenario images = GenerateRoute.scenarios payload
      /\ map scenario_id rows = map (fun r => id (scenario r)) images)
  /\ (forall e, In e (emitted w w') -> is_Fetch e = true -> call_succeeded e = true)
  /\ In (ConsoleWarn (str "Failed to persist generation metadata in Supabase") err)
       (emitted w w')
  /\ (forall P' : Providers,
        same_image_provider P P' -> fst (@GenerateRoute.POST P' L req w) = resp).
Proof.
  intros Hpost Hin.
  assert (Hext : forall P' : Providers,
            same_image_provider P P' -> fst (@GenerateRoute.POST P' L req w) = resp).
  { intros P' Hsame. rewrite <- (generate_response_ext P P' req w Hsame).
    now rewrite Hpost. }
  pose proof (generate_run req w) as HR. rewrite Hpost in HR. simpl in HR.
  inversion HR as
    [Hk Hr Hw
    | Hj Hr Hw
    | js0 Hj0 Hs0 Hr Hw
    | js0 payload0 images calls after w0 Hj0 Hs0 Hobt Hmap Hsucc Hlen Hnf Hone Hwarn Hrows Ht Hr Hw
    | js0 payload0 good bad x w0 Hj0 Hs0 Hgood Hbadf Hbad Hx Ht Hr Hw
    | js0 payload0 calls w0 Hj0 Hs0 Hobt Hsucc Hlen Ht Hcache Hr Hw];
    subst; try (rewrite emitted_same in Hin; contradiction).
  - rewrite (emitted_app w w' _ Ht) in *.
    assert (Hafter : In (Insert client table rows (Some err)) after).
    { apply in_app_or in Hin as [Hin|Hin]; [|exact Hin].
      rewrite Forall_forall in Hsucc. apply Hsucc in Hin. discriminate. }
    split; [|split; [|split]].
    + exists js0, payload0, images. repeat split; auto.
      now destruct (Hrows _ _ _ _ Hafter).
    + intros e He Hf. apply in_app_or in He as [He|He].
      * rewrite Forall_forall in Hsucc. now apply Hsucc.
      * rewrite Forall_forall in Hnf. apply Hnf in He. congruence.
    + apply in_or_app; right. now apply (Hwarn client table rows).
    + exact Hext.
  - exfalso. rewrite (emitted_app w w' _ Ht) in Hin.
    apply in_app_or in Hin as [Hin|Hin].
    + rewrite Forall_forall in Hgood. apply Hgood in Hin. discriminate.
    + destruct Hin as [Hin|[Hin|[]]]; [|discriminate].
      subst bad. discriminate.
  - exfalso. rewrite (emitted_app w w' _ Ht) in Hin.
    apply in_app_or in Hin as [Hin|Hin].
    + rewrite Forall_forall in Hsucc. apply Hsucc in Hin. discriminate.
    + destruct Hin as [Hin|[]]. discriminate.
Qed.

End Persistence.

Lemma find_first (pre post : list GeminiInlinePart) (p : GeminiInlinePart) :
  Forall (fun x => inlineData x = None) pre ->
  inlineData p <> None ->
  find GenerateRoute.has_inlineData (pre ++ p :: post) = Some p.
Proof.
  intros Hpre Hp. induction Hpre as [|x pre Hx _ IH]; simpl.
  - unfold GenerateRoute.has_inlineData. now destruct (inlineData p).
  - unfold GenerateRoute.has_inlineData at 1. now rewrite Hx.
Qed.

Section Extraction.
Context {P : Providers} {L : Library}.

(** C10. The extractor takes the first part of the first candidate whose
    inlineData is present, whatever that part holds. So when the provider
    answers the first call with a success status and a body in which that
    part lacks its data or its MIME type, the loop takes no image from the
    answer, even though a later part of it is complete and would give
    one: the handler logs
    the data-shape error, makes no further call and answers with status
    500 and the generic message. *)
Theorem incomplete_first_inline_part_fails_the_batch
  (req : Request) (w : World) (apiKey : jsstring) (js : Json.value)
  (payload : GenerateRoute.Payload) (sc : Scenario) (rest : list Scenario)
  (r : HttpResponse) (j : GeminiBody) (c : GeminiCandidate) (cs : list GeminiCandidate)
  (ct : GeminiContent) (pre post : list GeminiInlinePart) (p : GeminiInlinePart)
  (d : InlineData) :
  let endpoint :=
    GenerateRoute.endpoint_of
      (nullish (GOOGLE_GEMINI_IMAGE_MODEL (env w)) GenerateRoute.DEFAULT_MODEL) in
  let body :=
    GenerateRoute.fetch_body
      (buildPrompt sc (GenerateRoute.productName payload) (GenerateRoute.settings payload))
      (GenerateRoute.productImage payload) in
  configured (GOOGLE_GEMINI_API_KEY (env w)) = Some apiKey ->
  request_json req = Some js ->
  GenerateRoute.requestSchema (Some js) = Some payload ->
  GenerateRoute.scenarios payload = sc :: rest ->
  fetch (trace w) endpoint apiKey body = FetchResolves r ->
  ok r = true ->
  response_json r = Some j ->
  candidates j = Some (c :: cs) ->
  content c = Some ct ->
  parts ct = Some (pre ++ p :: post) ->
  Forall (fun x => inlineData x = None) pre ->
  inlineData p = Some d ->
  configured (inline_data d) = None \/ configured (inline_mimeType d) = None ->
  Exists (fun x => is_complete x = true) post ->
  GenerateRoute.find_part j = Some p
  /\ GenerateRoute.image_of (GenerateRoute.find_part j) = None
  /\ (exists q image, In q post /\ GenerateRoute.image_of (Some q) = Some image)
  /\ exists w',
       GenerateRoute.POST req w
       = (Return (mkResponse 500
                    (ErrorBody
                       (str "Image generation failed. Please try again with a different concept."))),
          w')
       /\ emitted w w'
          = [Fetch endpoint apiKey body (FetchResolves r);
             ConsoleError (str "Gemini generation failed") NoImageData].
Proof.
  intros endpoint body Hkey Hjs Hschema Hsc Hfetch Hok Hjson Hc Hct Hparts Hpre Hd Hinc
    Hlater.
  assert (Hfind : GenerateRoute.find_part j = Some p).
  { unfold GenerateRoute.find_part. rewrite Hc, Hct, Hparts.
    apply find_first; [exact Hpre|]. now rewrite Hd. }
  assert (Himage : GenerateRoute.image_of (GenerateRoute.find_part j) = None).
  { rewrite Hfind. unfold GenerateRoute.image_of. rewrite Hd.
    destruct Hinc as [H|H]; rewrite H; [reflexivity|].
    now destruct (configured (inline_data d)). }
  split; [exact Hfind|]. split; [exact Himage|]. split.
  { apply Exists_exists in Hlater as (q & Hq & Hcomplete). unfold is_complete in Hcomplete.
    destruct (GenerateRoute.image_of (Some q)) as [image|] eqn:Hi; [|discriminate].
    now exists q, image. }
  rewrite (generate_accepted req w apiKey js payload Hkey Hjs Hschema). cbv zeta.
  rewrite Hsc, render_cons. cbv zeta. fold endpoint body.
  rewrite Hfetch, Hok, Hjson, Himage.
  eexists. split; [reflexivity|].
  apply emitted_app. simpl. now rewrite <- app_assoc.
Qed.

End Extraction.

(** ** The scenario batch (C8) *)

Lemma all_map {A} (s : Zod.schema A) (f : A -> Json.value) (l : list A) :
  (forall x, s (Some (f x)) = Some x) -> Zod.all s (map f l) = Some l.
Proof.
  intros Hs. induction l as [|x l IH]; simpl; [reflexivity|].
  now rewrite Hs, IH.
Qed.

Lemma scenarioSchema_roundtrip (s : Scenario) :
  scenarioSchema (Some (scenario_json s)) = Some s.
Proof.
  destruct s as [i t sm [st|] [sl|] [h|]];
    cbv -[Zod.all map]; rewrite ?(all_map _ JStr) by reflexivity; reflexivity.
Qed.

Lemma batch_roundtrip (b : ScenarioResponse) :
  scenarioResponseSchema (Some (batch_json b))
  = match scenarios b with [] => None | _ :: _ => Some b end.
Proof.
  destruct b as [l].
  change (scenarioResponseSchema (Some (batch_json (mkScenarioResponse l))))
    with (let? l' := Zod.min_length 1 (Zod.array scenarioSchema)
                       (Some (JArr (map scenario_json l)))
          in Some (mkScenarioResponse l')).
  unfold Zod.min_length, Zod.check, Zod.array.
  rewrite (all_map _ _ _ scenarioSchema_roundtrip).
  now destruct l.
Qed.

Lemma batch_accepted_nonempty (j : Json.value) (b : ScenarioResponse) :
  scenarioResponseSchema (Some j) = Some b -> scenarios b <> [].
Proof.
  unfold scenarioResponseSchema, Zod.object, Zod.field, Zod.min_length, Zod.check.
  intros H. destruct j as [| | | | |fields]; try discriminate H.
  destruct (Zod.array scenarioSchema (get (str "scenarios") fields)) as [l|];
    [|discriminate].
  destruct l; [discriminate|]. inversion H. discriminate.
Qed.

Section ScenarioRuns.
Context {P : Providers} {L : Library}.

Lemma parse_reply_run (text : jsstring) (w : World) :
  ScenariosRoute.parse_reply text w
  = match Json.parse (ScenariosRoute.sanitizeResponse text) with
    | None => (Throw SyntaxError, w)
    | Some j =>
        match scenarioResponseSchema (Some j) with
        | None => (Throw ZodError, w)
        | Some b => (Return b, w)
        end
    end.
Proof.
  unfold ScenariosRoute.parse_reply.
  destruct (Json.parse _) as [j|]; [|reflexivity].
  now destruct (scenarioResponseSchema (Some j)).
Qed.

(** The handler, when the request is accepted and the assistant replies
    with a text: everything turns on the text. *)
Lemma scenarios_replied (req : Request) (w : World) (apiKey assistantId : jsstring)
  (js : Json.value) (parsed : ScenariosRoute.Payload) (messages : list Message)
  (text : jsstring) :
  configured (OPENAI_API_KEY (env w)) = Some apiKey ->
  configured (OPENAI_ASSISTANT_ID (env w)) = Some assistantId ->
  request_json req = Some js ->
  ScenariosRoute.scenarioRequestSchema (Some js) = Some parsed ->
  assistant_replies P messages ->
  ScenariosRoute.find_text messages = Some (TextPart text) ->
  let thread := ScenariosRoute.threadId parsed in
  let w1 :=
    mkWorld (env w) (cachedClient w)
      (((trace w ++ [MessagesCreate thread (ScenariosRoute.contextPrompt parsed) true])
        ++ [RunsCreateAndPoll thread assistantId ScenariosRoute.instructions
              (Some (str "completed"))])
       ++ [MessagesList thread (Some messages)]) in
  ScenariosRoute.POST req w
  = match ScenariosRoute.parse_reply text w1 with
    | (Return b, w2) =>
        (Return (mkResponse 200 (ScenariosBody thread (scenarios b))), w2)
    | (Throw x, w2) =>
        (Return scenarios_failure,
         mkWorld (env w2) (cachedClient w2)
           (trace w2 ++ [ConsoleError (str "Failed to generate scenarios") x]))
    end.
Proof.
  intros Hkey Hid Hjs Hschema (Hcreate & Hrun & Hlist) Htext thread w1.
  unfold ScenariosRoute.POST. unfold bind at 1. unfold read_env. cbv beta iota zeta.
  rewrite Hkey, Hid. unfold bind at 1. unfold req_json. rewrite Hjs.
  unfold ret at 1. cbv beta iota. rewrite Hschema.
  unfold try_catch. unfold bind at 1.
  unfold ScenariosRoute.do_messages_create.
  unfold bind at 1. unfold history. cbv beta iota zeta.
  rewrite Hcreate. unfold bind at 1. unfold emit at 1. cbv beta iota.
  unfold ret at 1. cbv beta iota.
  unfold bind at 1. unfold ScenariosRoute.do_createAndPoll.
  unfold bind at 1. unfold history. cbv beta iota zeta.
  rewrite Hrun. unfold bind at 1. unfold emit at 1. cbv beta iota.
  unfold ret at 1. cbv beta iota.
  change (JsString.eqb (str "completed") (str "completed")) with true.
  cbv beta iota. unfold negb.
  unfold bind at 1. unfold ScenariosRoute.do_messages_list.
  unfold bind at 1. unfold history. cbv beta iota zeta.
  rewrite Hlist. unfold bind at 1. unfold emit at 1. cbv beta iota.
  unfold ret at 1. cbv beta iota.
  rewrite Htext. unfold bind at 1. fold thread. simpl trace. simpl env.
  simpl cachedClient. fold w1.
  destruct (ScenariosRoute.parse_reply text w1) as [[b|x] w2]; reflexivity.
Qed.

End ScenarioRuns.

(** C8. The batch schema accepts the JSON of a batch exactly when the
    batch has at least one scenario, and then returns the batch unchanged;
    whatever it accepts has at least one scenario and passes through it
    again unchanged. So a batch of six scenarios with distinct ids comes
    back as it went in, and a batch of one to five scenarios is accepted
    too: when the assistant's reply reads as such a batch, the route
    answers with status 200 and these scenarios. *)
Theorem batch_schema_accepts_nonempty_unchanged :
  (forall b, scenarios b <> [] -> scenarioResponseSchema (Some (batch_json b)) = Some b)
  /\ (forall b, scenarios b = [] -> scenarioResponseSchema (Some (batch_json b)) = None)
  /\ (forall j b,
        scenarioResponseSchema (Some j) = Some b ->
        scenarios b <> [] /\ scenarioResponseSchema (Some (batch_json b)) = Some b)
  /\ (forall b,
        List.length (scenarios b) = 6 ->
        NoDup (map id (scenarios b)) ->
        scenarioResponseSchema (Some (batch_json b)) = Some b)
  /\ (forall (P : Providers) b req w apiKey assistantId js parsed messages text,
        1 <= List.length (scenarios b) ->
        List.length (scenarios b) < 6 ->
        configured (OPENAI_API_KEY (env w)) = Some apiKey ->
        configured (OPENAI_ASSISTANT_ID (env w)) = Some assistantId ->
        request_json req = Some js ->
        ScenariosRoute.scenarioRequestSchema (Some js) = Some parsed ->
        assistant_replies P messages ->
        ScenariosRoute.find_text messages = Some (TextPart text) ->
        Json.parse (ScenariosRoute.sanitizeResponse text) = Some (batch_json b) ->
        scenarioResponseSchema (Some (batch_json b)) = Some b
        /\ exists w',
             ScenariosRoute.POST req w
             = (Return (mkResponse 200
                          (ScenariosBody (ScenariosRoute.threadId parsed) (scenarios b))),
                w')).
Proof.
  assert (Hnonempty : forall b, scenarios b <> [] ->
            scenarioResponseSchema (Some (batch_json b)) = Some b).
  { intros b Hb. rewrite batch_roundtrip. now destruct (scenarios b). }
  split; [exact Hnonempty|]. split; [|split; [|split]].
  - intros b Hb. now rewrite batch_roundtrip, Hb.
  - intros j b Hj. pose proof (batch_accepted_nonempty j b Hj) as Hb.
    split; [exact Hb|now apply Hnonempty].
  - intros b Hlen _. apply Hnonempty. intros Hnil. now rewrite Hnil in Hlen.
  - intros P b req w apiKey assistantId js parsed messages text Hmin Hmax Hkey Hid Hjs
      Hschema Hassistant Htext Hparse.
    assert (Hb : scenarioResponseSchema (Some (batch_json b)) = Some b).
    { apply Hnonempty. intros Hnil. rewrite Hnil in Hmin. simpl in Hmin. lia. }
    split; [exact Hb|].
    rewrite (scenarios_replied req w apiKey assistantId js parsed messages text
               Hkey Hid Hjs Hschema Hassistant Htext).
    cbv zeta. rewrite parse_reply_run, Hparse, Hb. eexists. reflexivity.
Qed.

(** ** The range checks of the scenario request (C2) *)

Lemma ranged_accepts (lo hi : Z) (x : Json.value) (q : Q) :
  Zod.max hi (Zod.min lo (Zod.int Zod.number)) (Some x) = Some q ->
  x = JNum q /\ integer_within lo hi q.
Proof.
  unfold Zod.max, Zod.min, Zod.int, Zod.check, Zod.number, integer_within.
  destruct x as [| |q'| | |]; try discriminate.
  destruct (JsNumber.is_integer q') eqn:Hi; [|discriminate].
  destruct (Qle_bool (inject_Z lo) q') eqn:Hlo; [|discriminate].
  destruct (Qle_bool q' (inject_Z hi)) eqn:Hhi; [|discriminate].
  intros H. inversion H; subst.
  apply Qle_bool_iff in Hlo, Hhi. auto.
Qed.

Lemma ranged_integer_accepts (d : Z) (lo hi : Z) (v : option Json.value) (q : Q) :
  Zod.default (JNum (inject_Z d)) (Zod.max hi (Zod.min lo (Zod.int Zod.number))) v = Some q ->
  integer_within lo hi q
  /\ match v with
     | None => q = inject_Z d
     | Some x => x = JNum q
     end.
Proof.
  unfold Zod.default. intros H.
  destruct v as [x|]; apply ranged_accepts in H as [Hx Hq]; (split; [exact Hq|]).
  - exact Hx.
  - now inversion Hx.
Qed.

Lemma ranged_integer_rejects (d : Z) (lo hi : Z) (q : Q) :
  ~ integer_within lo hi q ->
  Zod.default (JNum (inject_Z d)) (Zod.max hi (Zod.min lo (Zod.int Zod.number)))
    (Some (JNum q)) = None.
Proof.
  intros Hnot.
  destruct (Zod.default _ _ (Some (JNum q))) as [q'|] eqn:H; [|reflexivity].
  destruct (ranged_integer_accepts _ _ _ _ _ H) as [Hin Heq].
  inversion Heq; subst. contradiction.
Qed.

Section RangeChecks.
Context {P : Providers} {L : Library}.

(** C2, as the code has it. The shot count of an accepted scenario request
    is an integer from 1 to 12, and the focus level an integer from 1 to
    5: 6 and 3 when the field is absent, and otherwise the very number
    the request gave. A request whose shot count or focus level is a
    number that is not such an integer is not adjusted: it is rejected
    with status 400, and the assistant is not contacted. *)
Theorem shots_and_focus_are_checked_not_clamped
  (req : Request) (w : World) (apiKey assistantId : jsstring)
  (fields : list (jsstring * Json.value)) :
  configured (OPENAI_API_KEY (env w)) = Some apiKey ->
  configured (OPENAI_ASSISTANT_ID (env w)) = Some assistantId ->
  request_json req = Some (JObj fields) ->
  (forall parsed,
      ScenariosRoute.scenarioRequestSchema (Some (JObj fields)) = Some parsed ->
      integer_within 1 12 (ScenariosRoute.shots parsed)
      /\ integer_within 1 5 (ScenariosRoute.focusOnProduct parsed)
      /\ match Json.get (str "shots") fields with
         | None => ScenariosRoute.shots parsed = inject_Z 6
         | Some v => v = JNum (ScenariosRoute.shots parsed)
         end
      /\ match Json.get (str "focusOnProduct") fields with
         | None => ScenariosRoute.focusOnProduct parsed = inject_Z 3
         | Some v => v = JNum (ScenariosRoute.focusOnProduct parsed)
         end)
  /\ (forall q,
        (Json.get (str "shots") fields = Some (JNum q) /\ ~ integer_within 1 12 q)
        \/ (Json.get (str "focusOnProduct") fields = Some (JNum q)
            /\ ~ integer_within 1 5 q) ->
        ScenariosRoute.scenarioRequestSchema (Some (JObj fields)) = None
        /\ ScenariosRoute.POST req w
           = (Return (mkResponse 400 (InvalidBody (str "Invalid scenario request payload"))),
              w)).
Proof.
  intros Hkey Hid Hjs.
  assert (Hacc : forall parsed,
    ScenariosRoute.scenarioRequestSchema (Some (JObj fields)) = Some parsed ->
    ScenariosRoute.shotsSchema (Json.get (str "shots") fields)
    = Some (ScenariosRoute.shots parsed)
    /\ ScenariosRoute.focusOnProductSchema (Json.get (str "focusOnProduct") fields)
       = Some (ScenariosRoute.focusOnProduct parsed)).
  { intros parsed H.
    unfold ScenariosRoute.scenarioRequestSchema, Zod.object, Zod.field in H.
    destruct (Zod.string (get (str "threadId") fields)); [|discriminate].
    destruct (Zod.min_length 1 Zod.string (get (str "audience") fields)); [|discriminate].
    destruct (Zod.min_length 1 Zod.string (get (str "productDetails") fields));
      [|discriminate].
    destruct (Zod.optional Zod.string (get (str "productName") fields)); [|discriminate].
    destruct (Zod.optional Zod.string (get (str "niche") fields)); [|discriminate].
    destruct (Zod.optional Zod.string (get (str "tone") fields)); [|discriminate].
    destruct (Zod.optional Zod.string (get (str "visualStyle") fields)); [|discriminate].
    destruct (ScenariosRoute.shotsSchema (get (str "shots") fields)); [|discriminate].
    destruct (ScenariosRoute.focusOnProductSchema (get (str "focusOnProduct") fields));
      [|discriminate].
    destruct (Zod.optional (Zod.array Zod.string) (get (str "additionalNotes") fields));
      [|discriminate].
    inversion H; subst. now split. }
  split.
  - intros parsed Hparsed. destruct (Hacc parsed Hparsed) as [Hs Hf].
    apply ranged_integer_accepts in Hs as [Hs1 Hs2].
    apply ranged_integer_accepts in Hf as [Hf1 Hf2].
    exact (conj Hs1 (conj Hf1 (conj Hs2 Hf2))).
  - intros q Hbad.
    assert (Hnone : ScenariosRoute.scenarioRequestSchema (Some (JObj fields)) = None).
    { destruct (ScenariosRoute.scenarioRequestSchema (Some (JObj fields)))
        as [parsed|] eqn:Hparsed; [|reflexivity].
      destruct (Hacc parsed eq_refl) as [Hs Hf]. exfalso.
      destruct Hbad as [[Hget Hnot]|[Hget Hnot]].
      - rewrite Hget in Hs. unfold ScenariosRoute.shotsSchema in Hs.
        now rewrite (ranged_integer_rejects 6 1 12 q Hnot) in Hs.
      - rewrite Hget in Hf. unfold ScenariosRoute.focusOnProductSchema in Hf.
        now rewrite (ranged_integer_rejects 3 1 5 q Hnot) in Hf. }
    split; [exact Hnone|].
    unfold ScenariosRoute.POST. unfold bind at 1. unfold read_env. cbv beta iota zeta.
    rewrite Hkey, Hid. unfold bind at 1. unfold req_json. rewrite Hjs.
    unfold ret at 1. cbv beta iota. now rewrite Hnone.
Qed.

End RangeChecks.

(** ** Stripping the code fences (C6) *)

Section Fences.

Lemma includes_cons (c : char16) (s needle : jsstring) :
  includes (c :: s) needle = false ->
  starts_with needle (c :: s) = false /\ includes s needle = false.
Proof. simpl. intros H. now apply orb_false_elim in H. Qed.

Lemma not_Occurs (s needle : jsstring) :
  includes s needle = false -> ~ Occurs needle s.
Proof. intros H Ho. apply includes_iff in Ho. congruence. Qed.

Lemma remove_all_absent (pat s : jsstring) :
  includes s pat = false -> remove_all pat s = s.
Proof.
  unfold remove_all. induction s as [|c s IH]; [reflexivity|].
  intros H. apply includes_cons in H as [Hhere Hlater].
  cbn [remove_all_from]. rewrite Hhere. now rewrite IH.
Qed.

Lemma remove_all_skip (pat x s : jsstring) :
  remove_all_from pat (List.length x) (x ++ s) = remove_all_from pat 0 s.
Proof. induction x as [|c x IH]; [reflexivity|exact IH]. Qed.

Lemma remove_all_prefix (c : char16) (pat s : jsstring) :
  remove_all (c :: pat) ((c :: pat) ++ s) = remove_all (c :: pat) s.
Proof.
  unfold remove_all. cbn [remove_all_from app].
  change (starts_with (c :: pat) (c :: pat ++ s))
    with (starts_with (c :: pat) ((c :: pat) ++ s)).
  rewrite starts_with_app. cbn [List.length Nat.pred]. apply remove_all_skip.
Qed.

(** Whether the opening fence starts a text does not depend on a closing
    fence put after the text. *)
Lemma starts_with_fence_json (x : jsstring) :
  starts_with ScenariosRoute.fence_json (x ++ ScenariosRoute.fence)
  = starts_with ScenariosRoute.fence_json x.
Proof.
  change ScenariosRoute.fence_json
    with [96%N; 96%N; 96%N; 106%N; 115%N; 111%N; 110%N].
  change ScenariosRoute.fence with [96%N; 96%N; 96%N].
  destruct x as [|x0 [|x1 [|x2 [|x3 [|x4 [|x5 [|x6 x]]]]]]];
    cbn [starts_with app];
    repeat match goal with
           | |- context [N.eqb ?a ?v] => is_var v; destruct (N.eqb a v)
           end;
    reflexivity.
Qed.

Lemma starts_with_length (p s : jsstring) :
  starts_with p s = true -> List.length p <= List.length s.
Proof.
  intros H. apply starts_with_inv in H as [rest ->]. rewrite length_app. lia.
Qed.

(** The first pass leaves the closing fence where it is. *)
Lemma remove_opening_fences (doc : jsstring) :
  forall skip,
    skip <= List.length doc ->
    remove_all_from ScenariosRoute.fence_json skip (doc ++ ScenariosRoute.fence)
    = remove_all_from ScenariosRoute.fence_json skip doc ++ ScenariosRoute.fence.
Proof.
  induction doc as [|c doc IH]; intros skip Hskip.
  - assert (skip = 0) by (simpl in Hskip; lia). subst skip. reflexivity.
  - cbn [remove_all_from app]. destruct skip as [|k].
    + change (c :: doc ++ ScenariosRoute.fence) with ((c :: doc) ++ ScenariosRoute.fence).
      rewrite starts_with_fence_json.
      destruct (starts_with ScenariosRoute.fence_json (c :: doc)) eqn:Hs.
      * apply starts_with_length in Hs.
        change (List.length ScenariosRoute.fence_json) with 7 in *.
        simpl in Hs. apply IH. simpl. lia.
      * cbn [app]. f_equal. apply IH. lia.
    + apply IH. simpl in Hskip. lia.
Qed.

(** The second pass removes the closing fence, together with the one or
    two backticks that may stand before it, and gives these back. *)
Lemma remove_closing_fence (doc : jsstring) :
  forall skip,
    skip <= List.length doc ->
    remove_all_from ScenariosRoute.fence skip (doc ++ ScenariosRoute.fence)
    = remove_all_from ScenariosRoute.fence skip doc.
Proof.
  change ScenariosRoute.fence with [96%N; 96%N; 96%N].
  induction doc as [|c doc IH]; intros skip Hskip.
  - assert (skip = 0) by (simpl in Hskip; lia). subst skip. reflexivity.
  - cbn [remove_all_from app]. destruct skip as [|k].
    2:{ apply IH. simpl in Hskip. lia. }
    destruct (starts_with [96%N; 96%N; 96%N] (c :: doc)) eqn:Hhere.
    + (* a fence inside [doc] *)
      assert (Hlong : starts_with [96%N; 96%N; 96%N] (c :: doc ++ [96%N; 96%N; 96%N]) = true).
      { apply starts_with_inv in Hhere as [rest Hrest].
        change (c :: doc ++ [96%N; 96%N; 96%N]) with ((c :: doc) ++ [96%N; 96%N; 96%N]).
        rewrite Hrest, <- app_assoc. apply starts_with_app. }
      rewrite Hlong. apply IH.
      apply starts_with_length in Hhere. simpl in Hhere. simpl. lia.
    + destruct (starts_with [96%N; 96%N; 96%N] (c :: doc ++ [96%N; 96%N; 96%N])) eqn:Hs.
      * (* the match starts inside [doc]: [doc] is one or two backticks *)
        destruct doc as [|x [|y doc]].
        -- cbn [starts_with app] in Hs. apply andb_prop in Hs as [Hc _].
           apply N.eqb_eq in Hc. subst c. reflexivity.
        -- cbn [starts_with app] in Hs. apply andb_prop in Hs as [Hc Hx].
           apply andb_prop in Hx as [Hx _].
           apply N.eqb_eq in Hc, Hx. subst c x. reflexivity.
        -- cbn [starts_with app] in Hs, Hhere. rewrite Hs in Hhere. discriminate.
      * f_equal. apply IH. lia.
Qed.

(** Sanitizing a fenced text is sanitizing the text. *)
Lemma sanitize_fenced (doc : jsstring) :
  ScenariosRoute.sanitizeResponse
    (ScenariosRoute.fence_json ++ doc ++ ScenariosRoute.fence)
  = ScenariosRoute.sanitizeResponse doc.
Proof.
  unfold ScenariosRoute.sanitizeResponse.
  change ScenariosRoute.fence_json with (96%N :: str "``json") at 1 2.
  rewrite remove_all_prefix.
  change (96%N :: str "``json") with ScenariosRoute.fence_json.
  unfold remove_all.
  rewrite remove_opening_fences by lia.
  now rewrite remove_closing_fence by lia.
Qed.

(** A bare opening fence is left alone by the first pass unless what
    follows it completes the tagged one. *)
Lemma bare_opener_kept (x : jsstring) :
  starts_with (str "json") x = false ->
  starts_with (str "`json") x = false ->
  starts_with (str "``json") x = false ->
  remove_all ScenariosRoute.fence_json (ScenariosRoute.fence ++ x)
  = ScenariosRoute.fence ++ remove_all ScenariosRoute.fence_json x.
Proof.
  intros H0 H1 H2. unfold remove_all.
  change (ScenariosRoute.fence ++ x) with (96%N :: 96%N :: 96%N :: x).
  cbn [remove_all_from].
  change (starts_with ScenariosRoute.fence_json (96%N :: 96%N :: 96%N :: x))
    with (starts_with (str "json") x).
  change (starts_with ScenariosRoute.fence_json (96%N :: 96%N :: x))
    with (starts_with (str "`json") x).
  change (starts_with ScenariosRoute.fence_json (96%N :: x))
    with (starts_with (str "``json") x).
  now rewrite H0, H1, H2.
Qed.

(** Whether a text begins with the tag does not depend on a closing
    fence put after the text. *)
Lemma tag_before_fence (x : jsstring) :
  starts_with (str "json") (x ++ ScenariosRoute.fence) = starts_with (str "json") x
  /\ starts_with (str "`json") (x ++ ScenariosRoute.fence) = starts_with (str "`json") x
  /\ starts_with (str "``json") (x ++ ScenariosRoute.fence)
     = starts_with (str "``json") x.
Proof.
  change (str "json") with [106%N; 115%N; 111%N; 110%N].
  change (str "`json") with [96%N; 106%N; 115%N; 111%N; 110%N].
  change (str "``json") with [96%N; 96%N; 106%N; 115%N; 111%N; 110%N].
  change ScenariosRoute.fence with [96%N; 96%N; 96%N].
  repeat split;
    destruct x as [|x0 [|x1 [|x2 [|x3 [|x4 [|x5 x]]]]]];
    cbn [starts_with app];
    repeat match goal with
           | |- context [N.eqb ?a ?v] => is_var v; destruct (N.eqb a v)
           end;
    reflexivity.
Qed.

(** Sanitizing a text between bare fences is sanitizing the text, unless
    the text begins with the tag. *)
Lemma sanitize_bare_fenced (doc : jsstring) :
  starts_with (str "json") doc = false ->
  starts_with (str "`json") doc = false ->
  starts_with (str "``json") doc = false ->
  ScenariosRoute.sanitizeResponse (ScenariosRoute.fence ++ doc ++ ScenariosRoute.fence)
  = ScenariosRoute.sanitizeResponse doc.
Proof.
  intros H0 H1 H2. unfold ScenariosRoute.sanitizeResponse.
  destruct (tag_before_fence doc) as (T0 & T1 & T2).
  rewrite bare_opener_kept by congruence.
  unfold remove_all at 2. rewrite remove_opening_fences by lia.
  change ScenariosRoute.fence with (96%N :: str "``") at 1 2.
  rewrite remove_all_prefix.
  change (96%N :: str "``") with ScenariosRoute.fence.
  unfold remove_all at 1.
  now rewrite remove_closing_fence by lia.
Qed.

Lemma fence_json_has_fence (doc : jsstring) :
  includes doc ScenariosRoute.fence = false ->
  includes doc ScenariosRoute.fence_json = false.
Proof.
  intros Hdoc. destruct (includes doc ScenariosRoute.fence_json) eqn:Hi; [|reflexivity].
  exfalso. apply (not_Occurs _ _ Hdoc).
  apply includes_iff in Hi as (pre & post & ->).
  exists pre, (str "json" ++ post). reflexivity.
Qed.

(** A text without fences is only trimmed. *)
Lemma sanitize_plain (doc : jsstring) :
  includes doc ScenariosRoute.fence = false ->
  ScenariosRoute.sanitizeResponse doc = trim doc.
Proof.
  intros Hdoc. unfold ScenariosRoute.sanitizeResponse.
  rewrite (remove_all_absent _ _ (fence_json_has_fence doc Hdoc)).
  now rewrite (remove_all_absent _ _ Hdoc).
Qed.

End Fences.

(** ** [JSON.parse] ignores what [trim] strips *)

Section Trimming.

Lemma json_space_cases (c : char16) :
  is_json_space c = true -> c = 9%N \/ c = 10%N \/ c = 13%N \/ c = 32%N.
Proof.
  unfold is_json_space. intros H.
  repeat (apply orb_prop in H as [H|H]); apply N.eqb_eq in H; auto.
Qed.

(** Outside the four JSON spaces, the characters [trim] strips are the
    vertical tab, the form feed, and characters from U+00A0 on. *)
Lemma js_space_cases (c : char16) :
  is_js_space c = true ->
  is_json_space c = true \/ c = 11%N \/ c = 12%N \/ (160 <= c)%N.
Proof.
  unfold is_js_space. intros H.
  repeat (apply orb_prop in H as [H|H]);
    try (apply andb_prop in H as [H1 H2]; apply N.leb_le in H1, H2);
    try (apply N.eqb_eq in H; subst c);
    try (right; right; right; lia);
    try (left; reflexivity).
  assert (Hc : c = 9%N \/ c = 10%N \/ c = 11%N \/ c = 12%N \/ c = 13%N) by lia.
  destruct Hc as [->|[->|[->|[->| ->]]]]; auto.
Qed.

(** Settle every comparison of [c] with a constant, [c] being large. *)
Ltac settle c :=
  repeat match goal with
         | |- context [N.eqb c ?k] =>
             replace (N.eqb c k) with false by (symmetry; apply N.eqb_neq; lia)
         | |- context [N.leb c ?k] =>
             replace (N.leb c k) with false by (symmetry; apply N.leb_gt; lia)
         | |- context [N.leb ?k c] =>
             replace (N.leb k c) with true by (symmetry; apply N.leb_le; lia)
         | |- context [N.ltb c ?k] =>
             replace (N.ltb c k) with false by (symmetry; apply N.ltb_ge; lia)
         end.

Lemma lex_default_high (c : char16) : (160 <= c)%N -> lex_default c = None.
Proof.
  intros H. unfold lex_default, is_json_space, is_digit, is_letter.
  settle c. reflexivity.
Qed.

Lemma lex_default_space (c : char16) (st : lex_state) (toks : list token) :
  is_js_space c = true ->
  lex_default c = Some (st, toks) -> st = LDefault /\ toks = [].
Proof.
  intros Hc. destruct (js_space_cases c Hc) as [Hj|[->|[->|Hhigh]]].
  - unfold lex_default. rewrite Hj. intros H. now inversion H.
  - discriminate.
  - discriminate.
  - now rewrite lex_default_high.
Qed.

(** A stripped character is no quote, no backslash, no part of an escape,
    of a number or of a word. *)
Lemma space_is_plain (c : char16) :
  is_js_space c = true ->
  N.eqb c 34 = false /\ N.eqb c 92 = false /\ N.eqb c 117 = false
  /\ escape_char c = None /\ hex_value c = None
  /\ is_number_char c = false /\ is_letter c = false.
Proof.
  intros Hc. destruct (js_space_cases c Hc) as [Hj|[->|[->|Hhigh]]].
  - apply json_space_cases in Hj as [->|[->|[->| ->]]]; repeat split; reflexivity.
  - repeat split; reflexivity.
  - repeat split; reflexivity.
  - unfold escape_char, hex_value, is_number_char, is_letter, is_digit.
    settle c. repeat split; reflexivity.
Qed.

(** A stripped character either ends the token being read, leaving the
    lexer between tokens, or is taken into a string. *)
Lemma lex_step_space (st st' : lex_state) (c : char16) (toks : list token) :
  is_js_space c = true ->
  lex_step st c = Some (st', toks) ->
  (st' = LDefault /\ lex_finish st = Some toks) \/ (exists buf, st' = LString buf).
Proof.
  intros Hc H.
  destruct (space_is_plain c Hc) as (Hq & Hb & Hu & He & Hh & Hn & Hl).
  destruct st as [|buf|buf|buf ds|buf|buf]; cbn [lex_step] in H.
  - left. now apply lex_default_space in H as [-> ->].
  - right. rewrite Hq, Hb in H.
    destruct (N.ltb c 32); [discriminate|].
    inversion H. now exists (c :: buf).
  - rewrite Hu, He in H. discriminate.
  - rewrite Hh in H. discriminate.
  - left. rewrite Hn in H.
    destruct (lex_finish (LNumber buf)) as [done|]; [|discriminate].
    destruct (lex_default c) as [[st2 toks2]|] eqn:Hd; [|discriminate].
    apply lex_default_space in Hd as [-> ->]; [|exact Hc].
    rewrite app_nil_r in H. now inversion H.
  - left. rewrite Hl in H.
    destruct (lex_finish (LWord buf)) as [done|]; [|discriminate].
    destruct (lex_default c) as [[st2 toks2]|] eqn:Hd; [|discriminate].
    apply lex_default_space in Hd as [-> ->]; [|exact Hc].
    rewrite app_nil_r in H. now inversion H.
Qed.

Lemma lex_cons (st : lex_state) (c : char16) (s : jsstring) (toks : list token) :
  lex st (c :: s) = Some toks ->
  exists st' t1 t2,
    lex_step st c = Some (st', t1) /\ lex st' s = Some t2 /\ toks = t1 ++ t2.
Proof.
  cbn [lex]. destruct (lex_step st c) as [[st1 t1]|] eqn:Hstep; [|discriminate].
  destruct (lex st1 s) as [t2|] eqn:Hrest; [|discriminate].
  cbn [option_map]. intros H. exists st1, t1, t2.
  split; [reflexivity|]. split; [exact Hrest|]. now inversion H.
Qed.

Lemma lex_spaces (r : jsstring) :
  Forall (fun c => is_js_space c = true) r ->
  forall st toks, lex st r = Some toks -> lex_finish st = Some toks.
Proof.
  induction 1 as [|c r Hc _ IH]; intros st toks H; [exact H|].
  apply lex_cons in H as (st' & t1 & t2 & Hstep & Hrest & ->).
  apply IH in Hrest.
  destruct (lex_step_space st st' c t1 Hc Hstep) as [[-> Hfin]|[buf ->]].
  - inversion Hrest. now rewrite app_nil_r.
  - discriminate.
Qed.

Lemma lex_trailing (x r : jsstring) :
  Forall (fun c => is_js_space c = true) r ->
  forall st toks, lex st (x ++ r) = Some toks -> lex st x = Some toks.
Proof.
  intros Hr. induction x as [|c x IH]; intros st toks H.
  - now apply (lex_spaces r Hr).
  - change ((c :: x) ++ r) with (c :: x ++ r) in H.
    apply lex_cons in H as (st' & t1 & t2 & Hstep & Hrest & ->).
    apply IH in Hrest. cbn [lex]. now rewrite Hstep, Hrest.
Qed.

Lemma lex_leading (s : jsstring) (toks : list token) :
  lex LDefault s = Some toks -> lex LDefault (trim_start s) = Some toks.
Proof.
  induction s as [|c s IH]; intros H; [exact H|].
  cbn [trim_start]. destruct (is_js_space c) eqn:Hc; [|exact H].
  apply lex_cons in H as (st' & t1 & t2 & Hstep & Hrest & ->).
  apply (lex_default_space c st' t1 Hc) in Hstep as [-> ->].
  now apply IH.
Qed.

Lemma trim_start_split (s : jsstring) :
  exists l, s = l ++ trim_start s /\ Forall (fun c => is_js_space c = true) l.
Proof.
  induction s as [|c s (l & Hl & Hf)]; [now exists []|].
  cbn [trim_start]. destruct (is_js_space c) eqn:Hc.
  - exists (c :: l). split; [simpl; now rewrite <- Hl|now constructor].
  - now exists [].
Qed.

Lemma trim_end_split (s : jsstring) :
  exists r, s = trim_end s ++ r /\ Forall (fun c => is_js_space c = true) r.
Proof.
  unfold trim_end. destruct (trim_start_split (rev s)) as (l & Hl & Hf).
  exists (rev l). split.
  - rewrite <- rev_app_distr, <- Hl. now rewrite rev_involutive.
  - apply Forall_rev. exact Hf.
Qed.

(** Trimming a text that parses does not change what it parses to. *)
Lemma parse_trim (s : jsstring) (j : Json.value) :
  Json.parse s = Some j -> Json.parse (trim s) = Some j.
Proof.
  unfold Json.parse. destruct (lex LDefault s) as [toks|] eqn:Hlex; [|discriminate].
  intros Hparse. apply lex_leading in Hlex. unfold trim.
  destruct (trim_end_split (trim_start s)) as (r & Hr & Hf).
  rewrite Hr in Hlex. apply (lex_trailing _ r Hf) in Hlex.
  now rewrite Hlex.
Qed.

End Trimming.

(** ** How a JSON document begins *)

Section Heads.

(** A word that begins with j is none of true, false and null. *)
Lemma lex_word_unknown (s : jsstring) :
  forall buf b : jsstring, rev buf = 106%N :: b -> Json.lex (LWord buf) s = None.
Proof.
  induction s as [|c s IH]; intros buf b Hb.
  - cbn [Json.lex Json.lex_finish]. rewrite Hb. reflexivity.
  - cbn [Json.lex Json.lex_step]. destruct (is_letter c).
    + rewrite (IH (c :: buf) (b ++ [c])); [reflexivity|].
      simpl. now rewrite Hb.
    + cbn [Json.lex_finish]. rewrite Hb. reflexivity.
Qed.

(** No JSON document begins with j or with a backtick. *)
Lemma document_head (c : char16) (rest : jsstring) (j : Json.value) :
  Json.parse (c :: rest) = Some j -> c <> 106%N /\ c <> 96%N.
Proof.
  unfold Json.parse. intros Hparse. split; intros ->.
  - cbn [Json.lex Json.lex_step] in Hparse.
    change (Json.lex_default 106%N) with (Some (LWord [106%N], @nil token)) in Hparse.
    cbv beta iota in Hparse.
    rewrite (lex_word_unknown rest [106%N] []) in Hparse by reflexivity.
    discriminate Hparse.
  - cbn [Json.lex Json.lex_step] in Hparse.
    change (Json.lex_default 96%N) with (@None (lex_state * list token)) in Hparse.
    discriminate Hparse.
Qed.

Lemma document_opens_no_fence (doc : jsstring) (j : Json.value) :
  Json.parse doc = Some j ->
  starts_with (str "json") doc = false
  /\ starts_with (str "`json") doc = false
  /\ starts_with (str "``json") doc = false.
Proof.
  intros Hparse.
  change (str "json") with [106%N; 115%N; 111%N; 110%N].
  change (str "`json") with [96%N; 106%N; 115%N; 111%N; 110%N].
  change (str "``json") with [96%N; 96%N; 106%N; 115%N; 111%N; 110%N].
  destruct doc as [|c rest]; [repeat split; reflexivity|].
  destruct (document_head c rest j Hparse) as [Hj Hb].
  cbn [starts_with].
  destruct (N.eqb_spec 106 c) as [Hc|_]; [now elim Hj|].
  destruct (N.eqb_spec 96 c) as [Hc|_]; [now elim Hb|].
  repeat split; reflexivity.
Qed.

End Heads.

Section FencedReplies.
Context {P : Providers} {L : Library}.

(** C6, as the code has it. A message is a text between an opening
    fence, "```json" or a bare "```", and a closing "```". Unless the
    fence is bare and the text begins with json, `json or ``json, as no
    JSON document does, sanitizing the message gives what sanitizing the
    text itself gives: the two markers around it are removed, as is every
    "```json" and every other "```" inside it. The reply is then read as
    the text is: the route answers with status 200 and a batch exactly
    when the text, with these removed, parses and validates to that
    batch, and with status 500 otherwise. So when the text is a valid
    scenario-batch JSON document that contains no "```", the result is
    the document, trimmed; it parses to the same value and validates to
    the same batch, and the route answers with status 200 and that
    batch. *)
Theorem fenced_reply_is_unwrapped (opener doc : jsstring) :
  opener = ScenariosRoute.fence_json \/ opener = ScenariosRoute.fence ->
  let text := opener ++ doc ++ ScenariosRoute.fence in
  let answer (thread : jsstring) :=
    match Json.parse (ScenariosRoute.sanitizeResponse doc) with
    | Some j =>
        match scenarioResponseSchema (Some j) with
        | Some b => mkResponse 200 (ScenariosBody thread (scenarios b))
        | None => scenarios_failure
        end
    | None => scenarios_failure
    end in
  (opener = ScenariosRoute.fence_json
   \/ (starts_with (str "json") doc = false
       /\ starts_with (str "`json") doc = false
       /\ starts_with (str "``json") doc = false)
   \/ (exists j, Json.parse doc = Some j) ->
   ScenariosRoute.sanitizeResponse text = ScenariosRoute.sanitizeResponse doc
   /\ (forall w, ScenariosRoute.parse_reply text w = ScenariosRoute.parse_reply doc w)
   /\ (forall req w apiKey assistantId js parsed messages,
         configured (OPENAI_API_KEY (env w)) = Some apiKey ->
         configured (OPENAI_ASSISTANT_ID (env w)) = Some assistantId ->
         request_json req = Some js ->
         ScenariosRoute.scenarioRequestSchema (Some js) = Some parsed ->
         assistant_replies P messages ->
         ScenariosRoute.find_text messages = Some (TextPart text) ->
         fst (ScenariosRoute.POST req w)
         = Return (answer (ScenariosRoute.threadId parsed))))
  /\ forall j b,
       includes doc ScenariosRoute.fence = false ->
       Json.parse doc = Some j ->
       scenarioResponseSchema (Some j) = Some b ->
       ScenariosRoute.sanitizeResponse text = trim doc
       /\ Json.parse (ScenariosRoute.sanitizeResponse text) = Some j
       /\ (forall w, ScenariosRoute.parse_reply text w = (Return b, w))
       /\ (forall req w apiKey assistantId js parsed messages,
             configured (OPENAI_API_KEY (env w)) = Some apiKey ->
             configured (OPENAI_ASSISTANT_ID (env w)) = Some assistantId ->
             request_json req = Some js ->
             ScenariosRoute.scenarioRequestSchema (Some js) = Some parsed ->
             assistant_replies P messages ->
             ScenariosRoute.find_text messages = Some (TextPart text) ->
             exists w',
               ScenariosRoute.POST req w
               = (Return (mkResponse 200
                            (ScenariosBody (ScenariosRoute.threadId parsed) (scenarios b))),
                  w')).
Proof.
  intros Hopener text answer.
  assert (Hsame :
    opener = ScenariosRoute.fence_json
    \/ (starts_with (str "json") doc = false
        /\ starts_with (str "`json") doc = false
        /\ starts_with (str "``json") doc = false)
    \/ (exists j, Json.parse doc = Some j) ->
    ScenariosRoute.sanitizeResponse text = ScenariosRoute.sanitizeResponse doc).
  { intros Hkept. unfold text.
    assert (Hcases :
      opener = ScenariosRoute.fence_json
      \/ (opener = ScenariosRoute.fence
          /\ starts_with (str "json") doc = false
          /\ starts_with (str "`json") doc = false
          /\ starts_with (str "``json") doc = false)).
    { destruct Hkept as [H|[H|[j H]]]; [now left| |].
      - destruct Hopener as [Ho|Ho]; [now left|right; now split].
      - destruct Hopener as [Ho|Ho]; [now left|right].
        split; [exact Ho|]. exact (document_opens_no_fence doc j H). }
    destruct Hcases as [->|(-> & H0 & H1 & H2)].
    - apply sanitize_fenced.
    - now apply sanitize_bare_fenced. }
  split.
  - intros Hkept. specialize (Hsame Hkept).
    split; [exact Hsame|]. split.
    + intros w. now rewrite !parse_reply_run, Hsame.
    + intros req w apiKey assistantId js parsed messages
        Hkey Hid Hjs Hreq Hassistant Htext.
      rewrite (scenarios_replied req w apiKey assistantId js parsed messages text
                 Hkey Hid Hjs Hreq Hassistant Htext).
      cbv zeta. rewrite parse_reply_run, Hsame. unfold answer.
      destruct (Json.parse (ScenariosRoute.sanitizeResponse doc)) as [j|];
        [|reflexivity].
      now destruct (scenarioResponseSchema (Some j)).
  - intros j b Hdoc Hparse Hschema.
    assert (Hclean : ScenariosRoute.sanitizeResponse text = trim doc).
    { rewrite Hsame by (right; right; now exists j). now apply sanitize_plain. }
    assert (Hj : Json.parse (ScenariosRoute.sanitizeResponse text) = Some j).
    { rewrite Hclean. now apply parse_trim. }
    assert (Hreply : forall w, ScenariosRoute.parse_reply text w = (Return b, w)).
    { intros w. now rewrite parse_reply_run, Hj, Hschema. }
    repeat split; auto.
    intros req w apiKey assistantId js parsed messages Hkey Hid Hjs Hreq Hassistant Htext.
    rewrite (scenarios_replied req w apiKey assistantId js parsed messages text
               Hkey Hid Hjs Hreq Hassistant Htext).
    cbv zeta. rewrite Hreply. eexists. reflexivity.
Qed.

End FencedReplies.

(* ================================================================== *)
(** * Concrete runs *)
(* ================================================================== *)

Import Scripted.

Lemma run_pair {A B} (p : A * B) : p = (fst p, snd p).
Proof. now destruct p. Defined.



(** The second of two calls is refused: status 500, nothing inserted. *)
Lemma provider_refusal_fails_the_batch_witness :
  let w := Process.boot env_all in
  let req := generate_request [scenario_a; scenario_b] in
  fst (@GenerateRoute.POST second_call_refused supabase_js req w)
  = Return (mkResponse 500
              (ErrorBody
                 (str "Image generation failed. Please try again with a different concept.")))
  /\ filter is_Insert
       (emitted w (snd (@GenerateRoute.POST second_call_refused supabase_js req w)))
     = [].
Proof.
  intros w req.
  destruct (@provider_refusal_fails_the_batch second_call_refused supabase_js req w
              (fst (@GenerateRoute.POST second_call_refused supabase_js req w))
              (snd (@GenerateRoute.POST second_call_refused supabase_js req w)))
    as (Hresp & Hnone & _).
  - apply run_pair.
  - eexists. split; [vm_compute; right; left; reflexivity|reflexivity].
  - split; assumption.
Defined.

(** Both images rendered, the insert fails: status 200 all the same. *)
Lemma persistence_failure_is_not_fatal_witness :
  let w := Process.boot env_all in
  let req := generate_request [scenario_a; scenario_b] in
  (exists images,
      fst (@GenerateRoute.POST insert_fails supabase_js req w)
      = Return (mkResponse 200 (ImagesBody images))
      /\ map scenario images = [scenario_a; scenario_b])
  /\ In (ConsoleWarn (str "Failed to persist generation metadata in Supabase") datastore_down)
       (emitted w (snd (@GenerateRoute.POST insert_fails supabase_js req w)))
  /\ fst (@GenerateRoute.POST two_images supabase_js req w)
     = fst (@GenerateRoute.POST insert_fails supabase_js req w).
Proof.
  intros w req.
  edestruct (@persistence_failure_is_not_fatal insert_fails supabase_js req w
               (fst (@GenerateRoute.POST insert_fails supabase_js req w))
               (snd (@GenerateRoute.POST insert_fails supabase_js req w)))
    as ((js & payload & images & Hjs & Hschema & Hresp & Hmap & _) & _ & Hwarn & Hsame).
  - apply run_pair.
  - vm_compute. do 5 right. left. reflexivity.
  - split; [|split].
    + exists images. split; [exact Hresp|].
      rewrite Hmap.
      assert (Hp : Some payload = Some (generate_payload [scenario_a; scenario_b])).
      { rewrite <- Hschema. inversion Hjs. reflexivity. }
      now inversion Hp.
    + exact Hwarn.
    + apply Hsame. split; reflexivity.
Defined.

(** No key: status 500 and an untouched world, whatever the request. *)
Lemma missing_key_fails_before_any_call_witness :
  let w := Process.boot env_none in
  let req := generate_request [scenario_a] in
  exists w',
    @GenerateRoute.POST two_images supabase_js req w
    = (Return (mkResponse 500
                 (ErrorBody (str "Missing GOOGLE_GEMINI_API_KEY environment variable."))),
       w')
    /\ emitted w w' = []
    /\ filter is_Fetch (emitted w w') = []
    /\ w' = w.
Proof.
  intros w req.
  apply (@missing_key_fails_before_any_call two_images supabase_js req w).
  reflexivity.
Defined.

(** The first inline part has no data, the next one is complete: status
    500 after a single call. *)
Lemma incomplete_first_inline_part_fails_the_batch_witness :
  let w := Process.boot env_no_datastore in
  let req := generate_request [scenario_a; scenario_b] in
  GenerateRoute.find_part (body_of_parts [text_part; incomplete_part; complete_part (str "AAA")])
  = Some incomplete_part
  /\ fst (@GenerateRoute.POST first_part_incomplete supabase_js req w)
     = Return (mkResponse 500
                 (ErrorBody
                    (str "Image generation failed. Please try again with a different concept.")))
  /\ List.length
       (emitted w (snd (@GenerateRoute.POST first_part_incomplete supabase_js req w)))
     = 2.
Proof.
  intros w req.
  destruct (@incomplete_first_inline_part_fails_the_batch first_part_incomplete supabase_js req w
              (str "g-key") (generate_body [scenario_a; scenario_b])
              (generate_payload [scenario_a; scenario_b]) scenario_a [scenario_b]
              mixed_response
              (body_of_parts [text_part; incomplete_part; complete_part (str "AAA")])
              (mkCandidate
                 (Some (mkContent
                    (Some [text_part; incomplete_part; complete_part (str "AAA")]))))
              []
              (mkContent (Some [text_part; incomplete_part; complete_part (str "AAA")]))
              [text_part] [complete_part (str "AAA")] incomplete_part
              (mkInlineData None (Some (str "image/png"))))
    as (Hfind & _ & _ & w' & Hpost & Hemitted).
  - reflexivity.
  - reflexivity.
  - reflexivity.
  - reflexivity.
  - reflexivity.
  - reflexivity.
  - reflexivity.
  - reflexivity.
  - reflexivity.
  - reflexivity.
  - repeat constructor.
  - reflexivity.
  - left. reflexivity.
  - apply Exists_cons_hd. reflexivity.
  - split; [exact Hfind|]. rewrite Hpost. split; [reflexivity|].
    cbn [snd]. now rewrite Hemitted.
Defined.

(** A brief without shot count and focus level: 6 and 3. *)
Lemma shots_and_focus_are_checked_not_clamped_witness :
  let parsed :=
    ScenariosRoute.mkPayload (str "thread_1") (str "runners") (str "a water bottle")
      None None None None (inject_Z 6) (inject_Z 3) None in
  ScenariosRoute.scenarioRequestSchema (Some (scenarios_body [])) = Some parsed
  /\ integer_within 1 12 (ScenariosRoute.shots parsed)
  /\ integer_within 1 5 (ScenariosRoute.focusOnProduct parsed)
  /\ ScenariosRoute.shots parsed = inject_Z 6
  /\ ScenariosRoute.focusOnProduct parsed = inject_Z 3.
Proof.
  intros parsed.
  destruct (@shots_and_focus_are_checked_not_clamped (assistant_says plain_doc)
              plain_brief (Process.boot env_all) (str "sk-test") (str "asst_1")
              ([(str "threadId", JStr (str "thread_1"));
                (str "audience", JStr (str "runners"));
                (str "productDetails", JStr (str "a water bottle"))] ++ []))
    as (Haccepted & _).
  - reflexivity.
  - reflexivity.
  - reflexivity.
  - split; [reflexivity|]. apply (Haccepted parsed). reflexivity.
Defined.

(** C2 fails as stated: a shot count of 13 is not brought down to 12; the
    schema rejects the request and the route answers with status 400. *)
Lemma shot_count_13_is_rejected :
  ScenariosRoute.scenarioRequestSchema
    (Some (scenarios_body [(str "shots", JNum (inject_Z 13))])) = None
  /\ @ScenariosRoute.POST (assistant_says plain_doc) thirteen_shots (Process.boot env_all)
     = (Return (mkResponse 400 (InvalidBody (str "Invalid scenario request payload"))),
        Process.boot env_all).
Proof. split; reflexivity. Qed.

(** A reply between bare fences that holds no other fence is read as the
    document it encloses. A reply whose title holds a fence is accepted
    too, the fence gone from the title. *)
Lemma fenced_reply_is_unwrapped_witness :
  ScenariosRoute.sanitizeResponse (bare_fenced plain_doc) = trim plain_doc
  /\ Json.parse (ScenariosRoute.sanitizeResponse (bare_fenced plain_doc))
     = Some (batch_json one_scenario)
  /\ fst (@ScenariosRoute.POST (assistant_says (bare_fenced plain_doc)) plain_brief
            (Process.boot env_all))
     = Return (mkResponse 200 (ScenariosBody (str "thread_1") (scenarios one_scenario)))
  /\ ScenariosRoute.sanitizeResponse (fenced doc_with_fence_in_title)
     = ScenariosRoute.sanitizeResponse doc_with_fence_in_title
  /\ fst (@ScenariosRoute.POST (assistant_says (fenced doc_with_fence_in_title)) plain_brief
            (Process.boot env_all))
     = Return (mkResponse 200
                 (ScenariosBody (str "thread_1")
                    [mkScenario (str "a") (str "Morning run") (str "s") None None None])).
Proof.
  destruct (@fenced_reply_is_unwrapped (assistant_says (bare_fenced plain_doc))
              ScenariosRoute.fence plain_doc)
    as (_ & Hvalid); [right; reflexivity|].
  destruct (Hvalid (batch_json one_scenario) one_scenario)
    as (Hclean & Hparse & _ & Hpost).
  - reflexivity.
  - reflexivity.
  - reflexivity.
  - destruct (@fenced_reply_is_unwrapped (assistant_says (fenced doc_with_fence_in_title))
                ScenariosRoute.fence_json doc_with_fence_in_title)
      as (Hany & _); [left; reflexivity|].
    destruct Hany as (Hsame & _ & Hanswer); [left; reflexivity|].
    split; [exact Hclean|]. split; [exact Hparse|]. split; [|split; [exact Hsame|]].
    + destruct (Hpost plain_brief (Process.boot env_all) (str "sk-test") (str "asst_1")
                  (scenarios_body [])
                  (ScenariosRoute.mkPayload (str "thread_1") (str "runners")
                     (str "a water bottle") None None None None (inject_Z 6) (inject_Z 3)
                     None)
                  (thread_with (bare_fenced plain_doc)))
        as (w' & Hrun).
      * reflexivity.
      * reflexivity.
      * reflexivity.
      * reflexivity.
      * repeat split.
      * reflexivity.
      * fold (bare_fenced plain_doc) in Hrun. now rewrite Hrun.
    + fold (fenced doc_with_fence_in_title) in Hanswer.
      rewrite (Hanswer plain_brief (Process.boot env_all) (str "sk-test") (str "asst_1")
                 (scenarios_body [])
                 (ScenariosRoute.mkPayload (str "thread_1") (str "runners")
                    (str "a water bottle") None None None None (inject_Z 6) (inject_Z 3)
                    None)
                 (thread_with (fenced doc_with_fence_in_title)));
        first [reflexivity|repeat split].
Defined.

(** C6 fails as stated. The document is a valid scenario batch: it parses,
    and the schema accepts it, dropping the key it does not know. Fenced
    and sanitized, it has lost the fence inside that key, which now reads
    "setting" and holds a number: the schema rejects it, and the route
    answers with status 500. *)
Lemma fence_inside_the_document_is_stripped_too :
  (exists j,
      Json.parse doc_with_fence_in_key = Some j
      /\ scenarioResponseSchema (Some j) = Some one_scenario)
  /\ ScenariosRoute.sanitizeResponse (fenced doc_with_fence_in_key)
     = qstr "{'scenarios':[{'id':'a','title':'t','summary':'s','setting':5}]}"
  /\ (exists j',
        Json.parse (ScenariosRoute.sanitizeResponse (fenced doc_with_fence_in_key)) = Some j'
        /\ scenarioResponseSchema (Some j') = None)
  /\ ScenariosRoute.parse_reply (fenced doc_with_fence_in_key) (Process.boot env_all)
     = (Throw ZodError, Process.boot env_all)
  /\ fst (@ScenariosRoute.POST (assistant_says (fenced doc_with_fence_in_key)) plain_brief
            (Process.boot env_all))
     = Return (mkResponse 500
                 (ErrorBody
                    (str "Unable to generate scenarios at this time. Please refine your brief and try again."))).
Proof.
  split; [|split; [|split; [|split]]].
  - eexists. split; reflexivity.
  - reflexivity.
  - eexists. split; reflexivity.
  - reflexivity.
  - reflexivity.
Qed.

(** Six scenarios with distinct ids come back unchanged; an empty batch is
    rejected; a batch of two is returned to the caller. *)
Lemma batch_schema_accepts_nonempty_unchanged_witness :
  scenarioResponseSchema (Some (batch_json six_scenarios)) = Some six_scenarios
  /\ scenarioResponseSchema (Some (batch_json (mkScenarioResponse []))) = None
  /\ exists w',
       @ScenariosRoute.POST (assistant_says two_scenarios_doc) plain_brief
         (Process.boot env_all)
       = (Return (mkResponse 200 (ScenariosBody (str "thread_1") [scenario_a; scenario_b])),
          w').
Proof.
  destruct batch_schema_accepts_nonempty_unchanged as (_ & Hempty & _ & Hsix & Hcaller).
  split; [|split].
  - apply Hsix; [reflexivity|].
    repeat (constructor; [cbv; intuition discriminate|]). constructor.
  - apply Hempty. reflexivity.
  - apply (Hcaller (assistant_says two_scenarios_doc) two_scenarios plain_brief
             (Process.boot env_all) (str "sk-test") (str "asst_1") (scenarios_body [])
             (ScenariosRoute.mkPayload (str "thread_1") (str "runners")
                (str "a water bottle") None None None None (inject_Z 6) (inject_Z 3) None)
             (thread_with two_scenarios_doc) two_scenarios_doc).
    + cbv. lia.
    + cbv. lia.
    + reflexivity.
    + reflexivity.
    + reflexivity.
    + reflexivity.
    + repeat split.
    + reflexivity.
    + reflexivity.
Defined.

(** After two requests and a call of the accessor, one handle has been
    constructed, and the accessor returns it from the cache. *)
Lemma datastore_handle_created_at_most_once_witness :
  let w := @Process.run insert_fails supabase_js busy_day (Process.boot env_all) in
  constructed (trace w) <= 1
  /\ (exists c w1,
        @getSupabaseServerClient supabase_js w = (Return (Some c), w1)
        /\ cachedClient w1 = Some c
        /\ constructed (trace w1) = 1)
  /\ @getSupabaseServerClient supabase_js (Process.boot env_no_datastore)
     = (Return None, Process.boot env_no_datastore).
Proof.
  intros w.
  destruct (@datastore_handle_created_at_most_once insert_fails supabase_js env_all busy_day)
    as (Hle & Hconfigured & _ & _).
  destruct (@datastore_handle_created_at_most_once insert_fails supabase_js env_no_datastore [])
    as (_ & _ & _ & Habsent).
  split; [exact Hle|]. split.
  - destruct (Hconfigured (str "https://db.example") (str "service-role"))
      as (c & w1 & Hget & Hcached & _ & Hlater).
    + reflexivity.
    + reflexivity.
    + reflexivity.
    + exists c, w1. split; [exact Hget|]. split; [exact Hcached|].
      now destruct (Hlater []) as (_ & Hone & _).
  - apply Habsent. left. reflexivity.
Defined.

(** C9 fails as stated. The URL and the service key are configured, the
    URL without its scheme, and the client library throws on it. The
    first call of the accessor throws: it constructs no handle and caches
    none. The next call finds the cache empty and throws again, after a
    request to the image route as well; no call returns a handle. *)
Lemma rejected_datastore_url_yields_no_handle :
  let w := Process.boot env_bad_datastore in
  let w1 := snd (@getSupabaseServerClient supabase_js w) in
  let w2 := @Process.run two_images supabase_js
              [Process.Accessor; Process.Generate (generate_request [scenario_a]);
               Process.Accessor] w in
  configured (SUPABASE_URL (env w)) = Some (str "db.example")
  /\ configured (SUPABASE_SERVICE_ROLE_KEY (env w)) = Some (str "service-role")
  /\ @createClient_returns supabase_js (str "db.example") (str "service-role") = false
  /\ @getSupabaseServerClient supabase_js w = (Throw ClientFailed, w)
  /\ cachedClient w1 = None
  /\ constructed (trace w1) = 0
  /\ @getSupabaseServerClient supabase_js w1 = (Throw ClientFailed, w1)
  /\ cachedClient w2 = None
  /\ constructed (trace w2) = 0
  /\ fst (@getSupabaseServerClient supabase_js w2) = Throw ClientFailed
  /\ ~ exists c w3, @getSupabaseServerClient supabase_js w = (Return (Some c), w3).
Proof.
  intros w w1 w2.
  repeat (split; [reflexivity|]).
  intros (c & w3 & H). vm_compute in H. discriminate H.
Qed.

(* ================================================================== *)
(** * Further properties of the routes *)
(* ================================================================== *)

Section GenerateCalls.
Context {P : Providers} {L : Library}.

(** The calls of the loop: one per scenario, in order, up to the first
    that gives no image. *)
Lemma render_calls (endpoint key : jsstring) (payload : GenerateRoute.Payload)
  (todo : list Scenario) :
  forall results w,
  exists called rest evs,
    let rw := GenerateRoute.render endpoint key payload todo results w in
    todo = called ++ rest
    /\ trace (snd rw) = trace w ++ evs
    /\ Forall2 (fun sc e => exists outcome, e = call_for endpoint key payload sc outcome)
         called evs
    /\ match fst rw with
       | Return _ => rest = []
       | Throw _ => called <> []
       end.
Proof.
  induction todo as [|sc todo IH]; intros results w.
  - exists [], [], []. simpl. rewrite app_nil_r. repeat split; constructor.
  - rewrite render_cons. cbv zeta.
    set (body := GenerateRoute.fetch_body _ _).
    set (outcome := fetch (trace w) endpoint key body).
    assert (Hstop : forall x : Exn,
      exists called rest evs,
        sc :: todo = called ++ rest
        /\ trace w ++ [Fetch endpoint key body outcome] = trace w ++ evs
        /\ Forall2 (fun sc e => exists outcome, e = call_for endpoint key payload sc outcome)
             called evs
        /\ called <> []).
    { intros _. exists [sc], todo, [Fetch endpoint key body outcome].
      repeat split; [|discriminate].
      constructor; [|constructor]. now exists outcome. }
    destruct outcome as [|r] eqn:Ho; [exact (Hstop FetchFailed)|].
    destruct (ok r); [|exact (Hstop NoImageData)].
    destruct (response_json r) as [j|]; [|exact (Hstop NoImageData)].
    destruct (GenerateRoute.image_of (GenerateRoute.find_part j)) as [[mime dat]|];
      [|exact (Hstop NoImageData)].
    set (w1 := mkWorld (env w) (cachedClient w)
                 (trace w ++ [Fetch endpoint key body (FetchResolves r)])).
    destruct (IH (results ++ [mkImagePart mime dat sc]) w1)
      as (called & rest & evs & Htodo & Ht & Hcalls & Hend).
    exists (sc :: called), rest, (Fetch endpoint key body (FetchResolves r) :: evs).
    cbv zeta in *. split; [now rewrite Htodo|].
    split; [rewrite Ht; simpl; now rewrite <- app_assoc|].
    split; [constructor; [now exists (FetchResolves r)|exact Hcalls]|].
    destruct (fst (GenerateRoute.render endpoint key payload todo _ w1));
      [exact Hend|discriminate].
Qed.

(** A loop that returns has pushed one image per call: the call was made
    for the scenario the image holds, and the image is the first inline
    part of its answer. *)
Lemma render_images (endpoint key : jsstring) (payload : GenerateRoute.Payload)
  (todo : list Scenario) :
  forall results w out w1,
    GenerateRoute.render endpoint key payload todo results w = (Return out, w1) ->
    exists evs images,
      trace w1 = trace w ++ evs
      /\ out = results ++ images
      /\ map scenario images = todo
      /\ Forall2
           (fun e image =>
              exists r json,
                e = call_for endpoint key payload (scenario image) (FetchResolves r)
                /\ ok r = true
                /\ response_json r = Some json
                /\ GenerateRoute.image_of (GenerateRoute.find_part json)
                   = Some (mimeType image, data image))
           evs images.
Proof.
  induction todo as [|sc todo IH]; intros results w out w1.
  - simpl. intros H. injection H as <- <-.
    exists [], []. rewrite !app_nil_r. repeat split; constructor.
  - rewrite render_cons. cbv zeta.
    set (body := GenerateRoute.fetch_body _ _).
    destruct (fetch (trace w) endpoint key body) as [|r] eqn:Hfetch; [discriminate|].
    destruct (ok r) eqn:Hok; [|discriminate].
    destruct (response_json r) as [json|] eqn:Hjson; [|discriminate].
    destruct (GenerateRoute.image_of (GenerateRoute.find_part json)) as [[mime dat]|]
      eqn:Himage; [|discriminate].
    intros Hrest.
    destruct (IH _ _ _ _ Hrest) as (evs & images & Ht & Hout & Hmap & Hall).
    exists (Fetch endpoint key body (FetchResolves r) :: evs),
           (mkImagePart mime dat sc :: images).
    split; [rewrite Ht; simpl; now rewrite <- app_assoc|].
    split; [rewrite Hout; now rewrite <- app_assoc|].
    split; [simpl; now rewrite Hmap|].
    constructor; [|exact Hall].
    exists r, json. now repeat split.
Qed.

End GenerateCalls.

Section GenerateExtras.
Context {P : Providers} {L : Library}.

Lemma calls_are_fetches (endpoint key : jsstring) (payload : GenerateRoute.Payload)
  (called : list Scenario) (evs : list Event) :
  Forall2 (fun sc e => exists outcome, e = call_for endpoint key payload sc outcome)
    called evs ->
  Forall (fun e => is_Fetch e = true) evs.
Proof.
  induction 1 as [|sc e called evs [outcome He] _ IH]; constructor; auto.
  now subst e.
Qed.

Lemma filter_app_none {A} (f : A -> bool) (l l' : list A) :
  Forall (fun x => f x = true) l -> Forall (fun x => f x = false) l' ->
  filter f (l ++ l') = l.
Proof.
  intros H H'. rewrite filter_app, (filter_all _ _ H), (filter_none _ _ H').
  apply app_nil_r.
Qed.

(** The timestamps of the rows are the clock readings, one per image, and
    the rows are those of [rows_of]. *)
Lemma inserts_of_rows (payload : GenerateRoute.Payload) (results : list GeminiImagePart) :
  forall w,
  exists isos,
    GenerateRoute.inserts_of payload results w
    = (Return (rows_of payload results isos),
       mkWorld (env w) (cachedClient w) (trace w ++ map Clock isos))
    /\ List.length isos = List.length results.
Proof.
  induction results as [|r rest IH]; intros w; simpl.
  - exists []. simpl. rewrite app_nil_r. now destruct w.
  - unfold bind at 1, GenerateRoute.now_iso, bind, history, emit, ret. simpl.
    destruct (IH (mkWorld (env w) (cachedClient w) (trace w ++ [Clock (clock (trace w))])))
      as (isos & Hrun & Hlen).
    rewrite Hrun. simpl.
    exists (clock (trace w) :: isos). simpl. rewrite <- app_assoc.
    split; [reflexivity|]. now rewrite Hlen.
Qed.

(** What [persist] does when the datastore is configured. *)
Lemma persist_configured (payload : GenerateRoute.Payload) (results : list GeminiImagePart)
  (w : World) (url key : jsstring) :
  configured (SUPABASE_URL (env w)) = Some url ->
  configured (SUPABASE_SERVICE_ROLE_KEY (env w)) = Some key ->
  handle_obtainable w = true ->
  exists client isos error w',
    GenerateRoute.persist payload results w = (Return tt, w')
    /\ trace w'
    = trace w
      ++ (match cachedClient w with None => [CreateClient client] | Some _ => [] end)
      ++ map Clock isos
      ++ [Insert client (str "ugc_generations") (rows_of payload results isos) error]
      ++ (match error with Some err => [ConsoleWarn warning_text err] | None => [] end)
    /\ List.length isos = List.length results
    /\ cachedClient w' = Some client
    /\ client = match cachedClient w with
                | Some c => c
                | None => mkClient (constructed (trace w)) url key false false
                end.
Proof.
  intros Hurl Hkey Hobtainable.
  rewrite (obtainable_configured w url key Hurl Hkey) in Hobtainable.
  unfold GenerateRoute.persist. unfold bind at 1.
  destruct (cachedClient w) as [c|] eqn:Hc.
  - rewrite (accessor_cached w url key c Hurl Hkey Hc).
    unfold bind at 1.
    destruct (inserts_of_rows payload results w) as (isos & Hrun & Hlen).
    rewrite Hrun.
    unfold bind at 1, GenerateRoute.do_insert, bind, history, emit, ret. simpl.
    set (error := insert _ c _ _).
    exists c, isos, error. rewrite Hc.
    destruct error as [err|]; unfold console_warn, emit; simpl;
      eexists; (split; [reflexivity|]); simpl; rewrite <- ?app_assoc; simpl; auto.
  - rewrite (accessor_first w url key Hurl Hkey Hc Hobtainable). cbv zeta.
    set (c := mkClient (constructed (trace w)) url key false false).
    unfold bind at 1.
    destruct (inserts_of_rows payload results
                (mkWorld (env w) (Some c) (trace w ++ [CreateClient c])))
      as (isos & Hrun & Hlen).
    rewrite Hrun.
    unfold bind at 1, GenerateRoute.do_insert, bind, history, emit, ret. simpl.
    set (error := insert _ c _ _).
    exists c, isos, error.
    destruct error as [err|]; unfold console_warn, emit; simpl;
      eexists; (split; [reflexivity|]); simpl; rewrite <- ?app_assoc; simpl; auto.
Qed.

(** Without its two credentials the datastore is left alone. *)
Lemma persist_disabled (payload : GenerateRoute.Payload) (results : list GeminiImagePart)
  (w : World) :
  configured (SUPABASE_URL (env w)) = None
  \/ configured (SUPABASE_SERVICE_ROLE_KEY (env w)) = None ->
  GenerateRoute.persist payload results w = (Return tt, w).
Proof.
  intros H. unfold GenerateRoute.persist. unfold bind at 1.
  now rewrite (accessor_disabled w H).
Qed.

(** X1. The calls to the image provider are, in order, the calls for a
    first part of the scenarios of the payload, at least one: each goes
    to the endpoint of the configured model (the default model when none
    is configured), carries the configured key, and its body holds the
    prompt built for that scenario and the product image of the payload.
    When the response is the image batch, every scenario was called for;
    when a scenario was not called for, the response is the generic 500. *)
Theorem provider_calls_follow_scenarios (req : Request) (w : World) (apiKey : jsstring)
  (js : Json.value) (payload : GenerateRoute.Payload) :
  configured (GOOGLE_GEMINI_API_KEY (env w)) = Some apiKey ->
  request_json req = Some js ->
  GenerateRoute.requestSchema (Some js) = Some payload ->
  let w' := snd (GenerateRoute.POST req w) in
  exists called rest,
    GenerateRoute.scenarios payload = called ++ rest
    /\ called <> []
    /\ Forall2 (fun sc e =>
                  exists outcome,
                    e = call_for (endpoint_under (env w)) apiKey payload sc outcome)
         called (filter is_Fetch (emitted w w'))
    /\ ((exists images,
           fst (GenerateRoute.POST req w) = Return (json_response (ImagesBody images)))
        -> rest = [])
    /\ (rest <> [] -> fst (GenerateRoute.POST req w) = Return generic_failure).
Proof.
  intros Hkey Hjs Hp w'. subst w'.
  rewrite (generate_accepted req w apiKey js payload Hkey Hjs Hp). cbv zeta.
  fold (endpoint_under (env w)).
  destruct (requestSchema_scenarios js payload Hp) as (fields & raw & _ & _ & _ & Hlen).
  destruct (render_calls (endpoint_under (env w)) apiKey payload
              (GenerateRoute.scenarios payload) [] w)
    as (called & rest & evs & Hsplit & Ht & Hcalls & Hend).
  cbv zeta in Ht, Hend.
  pose proof (calls_are_fetches _ _ _ _ _ Hcalls) as Hfetch.
  destruct (GenerateRoute.render (endpoint_under (env w)) apiKey payload
              (GenerateRoute.scenarios payload) [] w) as [[out|x] w1];
    cbn [fst snd] in *.
  - subst rest. rewrite app_nil_r in Hsplit.
    exists called, []. rewrite app_nil_r.
    split; [exact Hsplit|]. split.
    { intros Hnil. rewrite Hsplit, Hnil in Hlen. simpl in Hlen. lia. }
    destruct (handle_obtainable w); cbn [fst snd].
    + destruct (persist_run payload out w1)
        as (w2 & after & Hrun & _ & Ht2 & Hafter & _).
      rewrite Hrun. cbn [snd].
      split; [|split; [reflexivity|now intros []]].
      rewrite (emitted_app w w2 (evs ++ after)).
      * now rewrite (filter_app_none _ _ _ Hfetch Hafter).
      * now rewrite Ht2, Ht, app_assoc.
    + split; [|split; [reflexivity|now intros []]].
      rewrite (emitted_app w _ (evs ++ [failure_log ClientFailed])).
      * rewrite (filter_app_none _ _ _ Hfetch); [exact Hcalls|].
        repeat constructor.
      * cbn [trace]. now rewrite Ht, app_assoc.
  - exists called, rest. split; [exact Hsplit|]. split; [exact Hend|].
    split; [|split].
    + rewrite (emitted_app w _ (evs ++ [failure_log x])).
      * rewrite (filter_app_none _ _ _ Hfetch); [exact Hcalls|].
        repeat constructor.
      * cbn [trace]. now rewrite Ht, app_assoc.
    + intros [images Himg]. discriminate.
    + reflexivity.
Qed.

(** X2. A call to the image provider that gives no image, whatever the
    reason (the call rejects, the status is not a success, the body is not
    JSON, or it holds no complete inline image), ends the request: the
    response is the generic 500, that call is the last one, the error the
    loop threw for it is logged by console.error right after it, nothing
    touches the datastore, and the cached handle and the environment are
    as before. *)
Theorem failed_call_ends_the_request (req : Request) (w : World) (e : Event) :
  let w' := snd (GenerateRoute.POST req w) in
  In e (emitted w w') ->
  is_Fetch e = true ->
  call_succeeded e = false ->
  fst (GenerateRoute.POST req w) = Return generic_failure
  /\ (exists good x,
        emitted w w' = good ++ [e; failure_log x]
        /\ thrown_for e = Some x
        /\ Forall (fun c => call_succeeded c = true) good)
  /\ Forall (fun c => is_datastore_event c = false) (emitted w w')
  /\ cachedClient w' = cachedClient w
  /\ env w' = env w.
Proof.
  intros w'. subst w'.
  destruct (generate_rejected req w) as (Hmissing & Hnotjson & Hinvalid).
  destruct (configured (GOOGLE_GEMINI_API_KEY (env w))) as [apiKey|] eqn:Hkey.
  2:{ rewrite (Hmissing eq_refl). cbn [snd]. rewrite emitted_same. intros []. }
  destruct (request_json req) as [js|] eqn:Hjs.
  2:{ rewrite (Hnotjson apiKey eq_refl eq_refl). cbn [snd]. rewrite emitted_same.
      intros []. }
  destruct (GenerateRoute.requestSchema (Some js)) as [payload|] eqn:Hp.
  2:{ rewrite (Hinvalid apiKey js eq_refl eq_refl Hp). cbn [snd].
      rewrite emitted_same. intros []. }
  rewrite (generate_accepted req w apiKey js payload Hkey Hjs Hp). cbv zeta.
  set (endpoint := GenerateRoute.endpoint_of _).
  destruct (render_run endpoint apiKey payload (GenerateRoute.scenarios payload) [] w)
    as (evs & He & Hc & Ht & Hfetch & Hr).
  cbv zeta in He, Hc, Ht, Hr.
  destruct (GenerateRoute.render endpoint apiKey payload
              (GenerateRoute.scenarios payload) [] w) as [[out|x] w1];
    cbn [fst snd] in *.
  - destruct Hr as (Hall & _).
    destruct (handle_obtainable w); cbn [fst snd].
    + destruct (persist_run payload out w1)
        as (w2 & after & Hrun & _ & Ht2 & Hafter & _).
      rewrite Hrun. cbn [snd].
      rewrite (emitted_app w w2 (evs ++ after)) by now rewrite Ht2, Ht, app_assoc.
      intros Hin Hf Hs. exfalso.
      apply in_app_or in Hin as [Hin|Hin].
      * rewrite Forall_forall in Hall. rewrite (Hall e Hin) in Hs. discriminate.
      * rewrite Forall_forall in Hafter. rewrite (Hafter e Hin) in Hf. discriminate.
    + rewrite (emitted_app w _ (evs ++ [failure_log ClientFailed]))
        by (cbn [trace]; now rewrite Ht, app_assoc).
      intros Hin Hf Hs. exfalso.
      apply in_app_or in Hin as [Hin|Hin].
      * rewrite Forall_forall in Hall. rewrite (Hall e Hin) in Hs. discriminate.
      * destruct Hin as [Hin|[]]. subst e. discriminate.
  - destruct Hr as (good & bad & Hevs & Hgood & Hbad & Hx).
    rewrite (emitted_app w _ ((good ++ [bad]) ++ [failure_log x]))
      by (cbn [trace]; now rewrite Ht, Hevs, <- !app_assoc).
    intros Hin Hf Hs.
    assert (e = bad) as ->.
    { apply in_app_or in Hin as [Hin|Hin].
      - apply in_app_or in Hin as [Hin|Hin].
        + rewrite Forall_forall in Hgood. rewrite (Hgood e Hin) in Hs. discriminate.
        + destruct Hin as [Hin|[]]. now symmetry.
      - destruct Hin as [Hin|[]]. subst e. discriminate. }
    split; [reflexivity|]. split.
    { exists good, x. rewrite <- app_assoc. now repeat split. }
    split.
    { rewrite Forall_app; split; [|repeat constructor].
      rewrite <- Hevs. revert Hfetch. apply Forall_impl.
      intros c Hcf. now destruct c. }
    cbn [cachedClient env]. now split.
Qed.

(** X3. When the datastore is configured and the response is the image
    batch, the request makes exactly one insert, after all the calls to
    the provider, into the table ugc_generations, with one row per image
    in the order of the batch: the row carries the thread id and the
    settings of the payload, the id, title and summary of the image's
    scenario, and its own clock reading. The handle is the cached one, or
    is constructed just before and cached when the cache was empty; an
    error of the insert is logged by console.warn as the last event. *)
Theorem metadata_rows_mirror_images (req : Request) (w : World)
  (apiKey url key : jsstring) (js : Json.value) (payload : GenerateRoute.Payload)
  (images : list GeminiImagePart) :
  configured (GOOGLE_GEMINI_API_KEY (env w)) = Some apiKey ->
  configured (SUPABASE_URL (env w)) = Some url ->
  configured (SUPABASE_SERVICE_ROLE_KEY (env w)) = Some key ->
  request_json req = Some js ->
  GenerateRoute.requestSchema (Some js) = Some payload ->
  fst (GenerateRoute.POST req w) = Return (json_response (ImagesBody images)) ->
  let w' := snd (GenerateRoute.POST req w) in
  exists calls client isos error,
    emitted w w'
    = calls
      ++ (match cachedClient w with None => [CreateClient client] | Some _ => [] end)
      ++ map Clock isos
      ++ [Insert client (str "ugc_generations") (rows_of payload images isos) error]
      ++ (match error with Some err => [ConsoleWarn warning_text err] | None => [] end)
    /\ Forall (fun e => is_Fetch e = true) calls
    /\ List.length isos = List.length images
    /\ map scenario_id (rows_of payload images isos)
       = map id (GenerateRoute.scenarios payload)
    /\ cachedClient w' = Some client
    /\ client = match cachedClient w with
                | Some c => c
                | None => mkClient (constructed (trace w)) url key false false
                end.
Proof.
  intros Hkey Hurl Hskey Hjs Hp. 
  rewrite (generate_accepted req w apiKey js payload Hkey Hjs Hp). cbv zeta.
  set (endpoint := GenerateRoute.endpoint_of _).
  destruct (render_run endpoint apiKey payload (GenerateRoute.scenarios payload) [] w)
    as (evs & He & Hc & Ht & Hfetch & Hr).
  cbv zeta in He, Hc, Ht, Hr.
  destruct (GenerateRoute.render endpoint apiKey payload
              (GenerateRoute.scenarios payload) [] w) as [[out|x] w1];
    cbn [fst snd] in *; [|discriminate].
  destruct (handle_obtainable w) eqn:Hobtainable; cbn [fst snd]; [|discriminate].
  intros Hresp. injection Hresp as ->.
  destruct Hr as (_ & _ & images' & Hout & Hmap). simpl in Hout. subst images'.
  rewrite <- He in Hurl, Hskey.
  rewrite <- (obtainable_same w w1 He Hc) in Hobtainable.
  destruct (persist_configured payload images w1 url key Hurl Hskey Hobtainable)
    as (client & isos & error & w2 & Hrun & Ht2 & Hlen & Hcache & Hclient).
  rewrite Hrun. cbn [snd].
  exists evs, client, isos, error.
  rewrite Hc, Ht in *. 
  split.
  { apply emitted_app. rewrite Ht2. now rewrite <- app_assoc. }
  split; [exact Hfetch|]. split; [exact Hlen|].
  split.
  { rewrite <- Hmap. unfold rows_of. clear -Hlen. revert isos Hlen.
    induction images as [|i images IH]; intros [|iso isos] Hlen; try discriminate;
      [reflexivity|].
    simpl. f_equal. apply IH. simpl in Hlen. lia. }
  split; [exact Hcache|].
  rewrite Hclient. destruct (cachedClient w); [reflexivity|].
  unfold constructed. rewrite filter_app.
  rewrite (filter_none is_CreateClient evs); [now rewrite app_nil_r|].
  revert Hfetch. apply Forall_impl. intros c Hcf. now destruct c.
Qed.

(** X4. When a datastore credential is missing or empty, a request to the
    image route never touches the datastore: no handle is constructed, the
    clock is not read, nothing is inserted and nothing is warned about;
    the cache and the environment are as before, and a response with the
    image batch is preceded by the calls to the provider and nothing
    else. *)
Theorem without_datastore_nothing_is_persisted (req : Request) (w : World) :
  configured (SUPABASE_URL (env w)) = None
  \/ configured (SUPABASE_SERVICE_ROLE_KEY (env w)) = None ->
  let w' := snd (GenerateRoute.POST req w) in
  Forall (fun e => is_datastore_event e = false) (emitted w w')
  /\ cachedClient w' = cachedClient w
  /\ env w' = env w
  /\ (forall images,
        fst (GenerateRoute.POST req w) = Return (json_response (ImagesBody images)) ->
        Forall (fun e => call_succeeded e = true) (emitted w w')
        /\ List.length (emitted w w') = List.length images).
Proof.
  intros Hoff w'. subst w'.
  destruct (generate_rejected req w) as (Hmissing & Hnotjson & Hinvalid).
  destruct (configured (GOOGLE_GEMINI_API_KEY (env w))) as [apiKey|] eqn:Hkey.
  2:{ rewrite (Hmissing eq_refl). cbn [fst snd]. rewrite emitted_same.
      repeat split; auto. all: discriminate. }
  destruct (request_json req) as [js|] eqn:Hjs.
  2:{ rewrite (Hnotjson apiKey eq_refl eq_refl). cbn [fst snd]. rewrite emitted_same.
      repeat split; auto. all: discriminate. }
  destruct (GenerateRoute.requestSchema (Some js)) as [payload|] eqn:Hp.
  2:{ rewrite (Hinvalid apiKey js eq_refl eq_refl Hp). cbn [fst snd].
      rewrite emitted_same. repeat split; auto. all: discriminate. }
  rewrite (generate_accepted req w apiKey js payload Hkey Hjs Hp). cbv zeta.
  set (endpoint := GenerateRoute.endpoint_of _).
  destruct (render_run endpoint apiKey payload (GenerateRoute.scenarios payload) [] w)
    as (evs & He & Hc & Ht & Hfetch & Hr).
  cbv zeta in He, Hc, Ht, Hr.
  assert (Hnone : Forall (fun e => is_datastore_event e = false) evs).
  { revert Hfetch. apply Forall_impl. intros c Hcf. now destruct c. }
  destruct (GenerateRoute.render endpoint apiKey payload
              (GenerateRoute.scenarios payload) [] w) as [[out|x] w1];
    cbn [fst snd] in *.
  - rewrite (obtainable_disabled w Hoff). cbn [fst snd].
    rewrite <- He in Hoff. rewrite (persist_disabled payload out w1 Hoff). cbn [snd].
    rewrite (emitted_app w w1 evs Ht).
    repeat split; auto.
    + now destruct Hr.
    + injection H as <-. destruct Hr as (_ & Hlen & images & Hout & Hmap).
      simpl in Hout. subst out. now rewrite Hlen, <- Hmap, length_map.
  - rewrite (emitted_app w _ (evs ++ [failure_log x]))
      by (cbn [trace]; now rewrite Ht, app_assoc).
    cbn [cachedClient env].
    repeat split; auto; try discriminate.
    rewrite Forall_app; split; [exact Hnone|repeat constructor].
Qed.

End GenerateExtras.

Section GenerateRefusals.
Context {P : Providers} {L : Library}.

Ltac refuse :=
  cbn [Zod.min_length Zod.check Zod.array Zod.string Zod.optional Zod.all option_map
       generationSettingsSchema GenerateRoute.productImageSchema Zod.object
       Nat.leb List.length];
  repeat match goal with
         | |- match ?x with Some _ => _ | None => None end = None =>
             destruct x; [|reflexivity]
         end;
  try reflexivity.

(** What [requestSchema] refuses. *)
Lemma requestSchema_refuses (js : Json.value) :
  (forall fields, js <> JObj fields)
  \/ (exists fields,
        js = JObj fields
        /\ (Json.get (str "scenarios") fields = None
            \/ Json.get (str "scenarios") fields = Some (JArr [])
            \/ Json.get (str "productImage") fields = None
            \/ (exists image d,
                  Json.get (str "productImage") fields = Some (JObj image)
                  /\ Json.get (str "data") image = Some (JStr d)
                  /\ List.length d < 10)
            \/ Json.get (str "settings") fields = None
            \/ Json.get (str "threadId") fields = Some JNull
            \/ Json.get (str "productName") fields = Some JNull)) ->
  GenerateRoute.requestSchema (Some js) = None.
Proof.
  intros [Hno|(fields & -> & H)].
  - destruct js; try reflexivity. now destruct (Hno fields).
  - unfold GenerateRoute.requestSchema, Zod.object, Zod.field.
    destruct H as [H|[H|[H|[(image & d & H & Hd & Hlen)|[H|[H|H]]]]]]; rewrite H.
    + refuse.
    + refuse.
    + refuse.
    + unfold GenerateRoute.productImageSchema, Zod.object, Zod.field. rewrite Hd.
      cbn [Zod.min_length Zod.check Zod.string].
      destruct (Nat.leb_spec 10 (List.length d)); [lia|]. refuse.
    + refuse.
    + reflexivity.
    + refuse.
Qed.

(** X5. A body the image route cannot use is refused with status 400
    before anything else happens: a body that is not an object, one whose
    scenario list is absent or empty, one without a product image or with
    image data shorter than ten characters, one without settings, one
    whose thread id or product name is null. No call is made and the
    world is as before. *)
Theorem malformed_generate_payload_is_refused (req : Request) (w : World)
  (apiKey : jsstring) (js : Json.value) :
  configured (GOOGLE_GEMINI_API_KEY (env w)) = Some apiKey ->
  request_json req = Some js ->
  (forall fields, js <> JObj fields)
  \/ (exists fields,
        js = JObj fields
        /\ (Json.get (str "scenarios") fields = None
            \/ Json.get (str "scenarios") fields = Some (JArr [])
            \/ Json.get (str "productImage") fields = None
            \/ (exists image d,
                  Json.get (str "productImage") fields = Some (JObj image)
                  /\ Json.get (str "data") image = Some (JStr d)
                  /\ List.length d < 10)
            \/ Json.get (str "settings") fields = None
            \/ Json.get (str "threadId") fields = Some JNull
            \/ Json.get (str "productName") fields = Some JNull)) ->
  GenerateRoute.POST req w
  = (Return (mkResponse 400 (InvalidBody (str "Invalid generate payload"))), w)
  /\ emitted w (snd (GenerateRoute.POST req w)) = [].
Proof.
  intros Hkey Hjs Hbad.
  destruct (generate_rejected req w) as (_ & _ & Hinvalid).
  rewrite (Hinvalid apiKey js Hkey Hjs (requestSchema_refuses js Hbad)).
  split; [reflexivity|]. apply emitted_same.
Qed.

End GenerateRefusals.

(* ================================================================== *)
(** * Further properties of the scenario route *)
(* ================================================================== *)

Section ScenarioExtras.
Context {P : Providers} {L : Library}.

(** A request the scenario route accepts, step by step. *)
Lemma scenarios_accepted (req : Request) (w : World) (apiKey assistantId : jsstring)
  (js : Json.value) (parsed : ScenariosRoute.Payload) :
  configured (OPENAI_API_KEY (env w)) = Some apiKey ->
  configured (OPENAI_ASSISTANT_ID (env w)) = Some assistantId ->
  request_json req = Some js ->
  ScenariosRoute.scenarioRequestSchema (Some js) = Some parsed ->
  let thread := ScenariosRoute.threadId parsed in
  let accepted := messages_create (trace w) thread (ScenariosRoute.contextPrompt parsed) in
  let e1 := MessagesCreate thread (ScenariosRoute.contextPrompt parsed) accepted in
  let run := runs_createAndPoll (trace w ++ [e1]) thread assistantId
               ScenariosRoute.instructions in
  let e2 := RunsCreateAndPoll thread assistantId ScenariosRoute.instructions run in
  let page := messages_list ((trace w ++ [e1]) ++ [e2]) thread in
  let e3 := MessagesList thread page in
  ScenariosRoute.POST req w
  = if accepted then
      match run with
      | None => scenarios_failed w [e1; e2] AssistantFailed
      | Some run_status =>
          if JsString.eqb run_status (str "completed") then
            match page with
            | None => scenarios_failed w [e1; e2; e3] AssistantFailed
            | Some messages =>
                match ScenariosRoute.find_text messages with
                | Some (TextPart text) =>
                    match Json.parse (ScenariosRoute.sanitizeResponse text) with
                    | None => scenarios_failed w [e1; e2; e3] SyntaxError
                    | Some j =>
                        match scenarioResponseSchema (Some j) with
                        | None => scenarios_failed w [e1; e2; e3] ZodError
                        | Some b =>
                            (Return (json_response (ScenariosBody thread (scenarios b))),
                             mkWorld (env w) (cachedClient w) (trace w ++ [e1; e2; e3]))
                        end
                    end
                | _ => scenarios_failed w [e1; e2; e3] NoTextContent
                end
            end
          else scenarios_failed w [e1; e2] (RunNotCompleted run_status)
      end
    else scenarios_failed w [e1] AssistantFailed.
Proof.
  intros Hkey Hid Hjs Hschema thread accepted e1 run e2 page e3.
  unfold scenarios_failed, scenarios_log, scenarios_failure.
  unfold ScenariosRoute.POST. unfold bind at 1. unfold read_env. cbv beta iota zeta.
  rewrite Hkey, Hid. unfold bind at 1. unfold req_json. rewrite Hjs.
  unfold ret at 1. cbv beta iota. rewrite Hschema.
  unfold try_catch. unfold bind at 1.
  unfold ScenariosRoute.do_messages_create.
  unfold bind at 1. unfold history. cbv beta iota zeta.
  fold thread. fold accepted. unfold bind at 1. unfold emit at 1. cbv beta iota.
  fold e1. cbn [trace env cachedClient].
  destruct accepted.
  2:{ unfold throw, console_error, bind, emit, ret. cbn [trace env cachedClient].
      now rewrite <- !app_assoc. }
  unfold ret at 1. cbv beta iota.
  unfold bind at 1. unfold ScenariosRoute.do_createAndPoll.
  unfold bind at 1. unfold history. cbv beta iota zeta. cbn [trace env cachedClient].
  fold run. unfold bind at 1. unfold emit at 1. cbv beta iota.
  fold e2. cbn [trace env cachedClient].
  destruct run as [run_status|].
  2:{ unfold throw, console_error, bind, emit, ret. cbn [trace env cachedClient].
      now rewrite <- !app_assoc. }
  unfold ret at 1. cbv beta iota.
  destruct (JsString.eqb run_status (str "completed")); cbn [negb].
  2:{ unfold throw, console_error, bind, emit, ret. cbn [trace env cachedClient].
      now rewrite <- !app_assoc. }
  unfold bind at 1. unfold ScenariosRoute.do_messages_list.
  unfold bind at 1. unfold history. cbv beta iota zeta. cbn [trace env cachedClient].
  fold page. unfold bind at 1. unfold emit at 1. cbv beta iota.
  fold e3. cbn [trace env cachedClient].
  assert (Hfail : forall x,
    (let (r, w') := @throw Response x
                      (mkWorld (env w) (cachedClient w) (((trace w ++ [e1]) ++ [e2]) ++ [e3])) in
     match r with
     | Return a => (Return a, w')
     | Throw e =>
         (console_error (str "Failed to generate scenarios") e ;;
          ret (mkResponse 500
                 (ErrorBody
                    (str "Unable to generate scenarios at this time. Please refine your brief and try again."))))
           w'
     end)
    = (Return
         (mkResponse 500
            (ErrorBody
               (str "Unable to generate scenarios at this time. Please refine your brief and try again."))),
       mkWorld (env w) (cachedClient w)
         (trace w ++ [e1; e2; e3]
          ++ [ConsoleError (str "Failed to generate scenarios") x]))).
  { intros x. unfold throw, console_error, bind, emit, ret. cbn [trace env cachedClient].
    now rewrite <- !app_assoc. }
  destruct page as [messages|].
  2:{ apply Hfail. }
  unfold ret at 1. cbv beta iota.
  destruct (ScenariosRoute.find_text messages) as [[text|other]|]; try apply Hfail.
  unfold bind at 1. rewrite parse_reply_run.
  destruct (Json.parse (ScenariosRoute.sanitizeResponse text)) as [j|].
  2:{ unfold console_error, bind, emit, ret. cbn [trace env cachedClient].
      now rewrite <- !app_assoc. }
  destruct (scenarioResponseSchema (Some j)) as [b|].
  2:{ unfold console_error, bind, emit, ret. cbn [trace env cachedClient].
      now rewrite <- !app_assoc. }
  unfold ret, json_response. now rewrite <- !app_assoc.
Qed.

Lemma scenarios_rejected (req : Request) (w : World) :
  (configured (OPENAI_API_KEY (env w)) = None
   \/ configured (OPENAI_ASSISTANT_ID (env w)) = None ->
   ScenariosRoute.POST req w = (Return missing_assistant_response, w))
  /\ (forall apiKey assistantId,
        configured (OPENAI_API_KEY (env w)) = Some apiKey ->
        configured (OPENAI_ASSISTANT_ID (env w)) = Some assistantId ->
        request_json req = None ->
        ScenariosRoute.POST req w = (Throw SyntaxError, w))
  /\ (forall apiKey assistantId js,
        configured (OPENAI_API_KEY (env w)) = Some apiKey ->
        configured (OPENAI_ASSISTANT_ID (env w)) = Some assistantId ->
        request_json req = Some js ->
        ScenariosRoute.scenarioRequestSchema (Some js) = None ->
        ScenariosRoute.POST req w = (Return invalid_brief_response, w)).
Proof.
  split; [|split].
  - intros H.
    unfold ScenariosRoute.POST. unfold bind at 1. unfold read_env. cbv beta iota zeta.
    destruct H as [H|H].
    + now rewrite H.
    + destruct (configured (OPENAI_API_KEY (env w))); [|reflexivity].
      now rewrite H.
  - intros apiKey assistantId Hkey Hid Hjs.
    unfold ScenariosRoute.POST. unfold bind at 1. unfold read_env. cbv beta iota zeta.
    rewrite Hkey, Hid. unfold bind at 1. unfold req_json. now rewrite Hjs.
  - intros apiKey assistantId js Hkey Hid Hjs Hschema.
    unfold ScenariosRoute.POST. unfold bind at 1. unfold read_env. cbv beta iota zeta.
    rewrite Hkey, Hid. unfold bind at 1. unfold req_json. rewrite Hjs.
    unfold ret at 1. cbv beta iota. now rewrite Hschema.
Qed.

Lemma jsstring_eqb_eq (a b : jsstring) : JsString.eqb a b = true <-> a = b.
Proof.
  revert b. induction a as [|x a IH]; intros [|y b]; simpl; split; try easy.
  - intros H. apply andb_prop in H as [Hx Ha]. apply N.eqb_eq in Hx.
    apply IH in Ha. now subst.
  - intros H. inversion H; subst. rewrite N.eqb_refl. now apply IH.
Qed.

(** The thread id the schema accepted is the one the body names. *)
Lemma brief_threadId (js : Json.value) (parsed : ScenariosRoute.Payload) :
  ScenariosRoute.scenarioRequestSchema (Some js) = Some parsed ->
  exists fields,
    js = JObj fields
    /\ Json.get (str "threadId") fields = Some (JStr (ScenariosRoute.threadId parsed)).
Proof.
  destruct js as [| | | | |fields]; try discriminate.
  unfold ScenariosRoute.scenarioRequestSchema, Zod.object, Zod.field.
  destruct (Zod.string (Json.get (str "threadId") fields)) as [t|] eqn:Ht;
    [|discriminate].
  apply string_accepts in Ht.
  intros H. exists fields. split; [reflexivity|].
  repeat match type of H with
         | match ?x with Some _ => _ | None => None end = Some _ =>
             destruct x; [|discriminate]
         end.
  now inversion H.
Qed.

(** X6. A request the scenario route answers with status 200 has had
    exactly three effects, in this order: the brief was posted to the
    thread the request names, a run of the configured assistant was
    started on that thread and ended with status completed, and the
    messages of that thread were listed. The scenarios of the response
    are those the batch schema reads from the sanitized first text block
    of the first assistant message, there is at least one of them, and
    the thread id of the response is the one of the request. *)
Theorem successful_brief_is_three_assistant_calls (req : Request) (w : World)
  (body : Body) :
  fst (ScenariosRoute.POST req w) = Return (mkResponse 200 body) ->
  let w' := snd (ScenariosRoute.POST req w) in
  exists assistantId fields parsed messages text j b,
    configured (OPENAI_ASSISTANT_ID (env w)) = Some assistantId
    /\ request_json req = Some (JObj fields)
    /\ ScenariosRoute.scenarioRequestSchema (Some (JObj fields)) = Some parsed
    /\ Json.get (str "threadId") fields = Some (JStr (ScenariosRoute.threadId parsed))
    /\ emitted w w'
       = [MessagesCreate (ScenariosRoute.threadId parsed)
            (ScenariosRoute.contextPrompt parsed) true;
          RunsCreateAndPoll (ScenariosRoute.threadId parsed) assistantId
            ScenariosRoute.instructions (Some (str "completed"));
          MessagesList (ScenariosRoute.threadId parsed) (Some messages)]
    /\ ScenariosRoute.find_text messages = Some (TextPart text)
    /\ Json.parse (ScenariosRoute.sanitizeResponse text) = Some j
    /\ scenarioResponseSchema (Some j) = Some b
    /\ body = ScenariosBody (ScenariosRoute.threadId parsed) (scenarios b)
    /\ scenarios b <> [].
Proof.
  destruct (scenarios_rejected req w) as (Hmissing & Hnotjson & Hinvalid).
  destruct (configured (OPENAI_API_KEY (env w))) as [apiKey|] eqn:Hkey.
  2:{ rewrite (Hmissing (or_introl eq_refl)). discriminate. }
  destruct (configured (OPENAI_ASSISTANT_ID (env w))) as [assistantId|] eqn:Hid.
  2:{ rewrite (Hmissing (or_intror eq_refl)). discriminate. }
  destruct (request_json req) as [js|] eqn:Hjs.
  2:{ rewrite (Hnotjson apiKey assistantId eq_refl eq_refl eq_refl). discriminate. }
  destruct (ScenariosRoute.scenarioRequestSchema (Some js)) as [parsed|] eqn:Hp.
  2:{ rewrite (Hinvalid apiKey assistantId js eq_refl eq_refl eq_refl Hp). discriminate. }
  destruct (brief_threadId js parsed Hp) as (fields & -> & Hthread).
  rewrite (scenarios_accepted req w apiKey assistantId (JObj fields) parsed Hkey Hid Hjs Hp).
  cbv zeta. unfold scenarios_failed.
  destruct (messages_create _ _ _); [|discriminate].
  destruct (runs_createAndPoll _ _ _ _) as [run_status|]; [|discriminate].
  destruct (JsString.eqb run_status (str "completed")) eqn:Hdone; [|discriminate].
  apply jsstring_eqb_eq in Hdone. subst run_status.
  destruct (messages_list _ _) as [messages|]; [|discriminate].
  destruct (ScenariosRoute.find_text messages) as [[text|other]|] eqn:Htext;
    try discriminate.
  destruct (Json.parse (ScenariosRoute.sanitizeResponse text)) as [j|] eqn:Hj;
    [|discriminate].
  destruct (scenarioResponseSchema (Some j)) as [b|] eqn:Hb; [|discriminate].
  cbn [fst snd]. intros Hresp. injection Hresp as <-.
  exists assistantId, fields, parsed, messages, text, j, b.
  repeat split; auto.
  - now apply emitted_app.
  - exact (batch_accepted_nonempty j b Hb).
Qed.

(** Every run of the scenario route is a [Brief]. *)
Lemma scenarios_run (req : Request) (w : World) :
  exists calls,
    Brief req w (fst (ScenariosRoute.POST req w)) calls
    /\ snd (ScenariosRoute.POST req w)
       = mkWorld (env w) (cachedClient w) (trace w ++ calls).
Proof.
  assert (Hw : w = mkWorld (env w) (cachedClient w) (trace w ++ [])).
  { rewrite app_nil_r. now destruct w. }
  destruct (scenarios_rejected req w) as (Hmissing & Hnotjson & Hinvalid).
  destruct (configured (OPENAI_API_KEY (env w))) as [apiKey|] eqn:Hkey.
  2:{ exists []. rewrite (Hmissing (or_introl eq_refl)).
      split; [constructor; now left|exact Hw]. }
  destruct (configured (OPENAI_ASSISTANT_ID (env w))) as [assistantId|] eqn:Hid.
  2:{ exists []. rewrite (Hmissing (or_intror eq_refl)).
      split; [constructor; now right|exact Hw]. }
  destruct (request_json req) as [js|] eqn:Hjs.
  2:{ exists []. rewrite (Hnotjson apiKey assistantId eq_refl eq_refl eq_refl).
      split; [now constructor|exact Hw]. }
  destruct (ScenariosRoute.scenarioRequestSchema (Some js)) as [parsed|] eqn:Hp.
  2:{ exists []. rewrite (Hinvalid apiKey assistantId js eq_refl eq_refl eq_refl Hp).
      split; [now apply (BriefInvalid req w js)|exact Hw]. }
  rewrite (scenarios_accepted req w apiKey assistantId js parsed Hkey Hid Hjs Hp).
  cbv zeta. unfold scenarios_failed.
  assert (Hgo : forall resp calls,
    Conversation (ScenariosRoute.threadId parsed) (ScenariosRoute.contextPrompt parsed)
      assistantId resp calls ->
    exists calls',
      Brief req w (fst (Return resp, mkWorld (env w) (cachedClient w) (trace w ++ calls)))
        calls'
      /\ snd (Return resp, mkWorld (env w) (cachedClient w) (trace w ++ calls))
         = mkWorld (env w) (cachedClient w) (trace w ++ calls')).
  { intros resp calls Hconv. exists calls. split; [|reflexivity].
    now apply (BriefAnswered req w apiKey assistantId js parsed). }
  destruct (messages_create _ _ _); [|apply Hgo; constructor].
  destruct (runs_createAndPoll _ _ _ _) as [run_status|]; [|apply Hgo; constructor].
  destruct (JsString.eqb run_status (str "completed")) eqn:Hdone.
  2:{ apply Hgo. constructor. intros ->.
      assert (JsString.eqb (str "completed") (str "completed") = true)
        by now apply jsstring_eqb_eq.
      congruence. }
  apply jsstring_eqb_eq in Hdone. subst run_status.
  destruct (messages_list _ _) as [messages|]; [|apply Hgo; constructor].
  destruct (ScenariosRoute.find_text messages) as [[text|other]|] eqn:Htext.
  2,3: apply Hgo; apply (ReplyUnusable _ _ _ messages); now rewrite Htext.
  destruct (Json.parse (ScenariosRoute.sanitizeResponse text)) as [j|] eqn:Hj.
  2:{ apply Hgo. apply (ReplyUnusable _ _ _ messages). now rewrite Htext, Hj. }
  destruct (scenarioResponseSchema (Some j)) as [b|] eqn:Hb.
  2:{ apply Hgo. apply (ReplyUnusable _ _ _ messages). now rewrite Htext, Hj. }
  apply Hgo. now apply (ReplyUsed _ _ _ messages text j b).
Qed.

(** The events of a request to the scenario route, with its response. *)
Lemma scenarios_emitted (req : Request) (w : World) :
  Brief req w (fst (ScenariosRoute.POST req w))
    (emitted w (snd (ScenariosRoute.POST req w)))
  /\ cachedClient (snd (ScenariosRoute.POST req w)) = cachedClient w
  /\ env (snd (ScenariosRoute.POST req w)) = env w.
Proof.
  destruct (scenarios_run req w) as (calls & Hbrief & Hw).
  rewrite Hw. rewrite (emitted_app w _ calls) by reflexivity. now repeat split.
Qed.

End ScenarioExtras.

(** Take a run of the scenario route apart. *)
Ltac brief_cases req w :=
  let Hb := fresh "Hbrief" in
  let Hc := fresh "Hcache" in
  let He := fresh "Henv" in
  destruct (scenarios_emitted req w) as (Hb & Hc & He);
  destruct Hb as [Hoff|Hjs|js0 Hjs Hp
                  |apiKey0 aid0 js0 parsed0 resp0 calls0 Hkey Hid Hjs Hp Hconv];
  [| | |destruct Hconv as [| |st0 Hst| |msgs0 x0 Hx|msgs0 text0 j0 b0 Htext Hj Hbatch]].

Section ScenarioFailures.
Context {P : Providers} {L : Library}.

(** X7. When the run of the assistant ends with a status other than
    completed (failed, expired, cancelled, requires_action, ...), the
    request fails with the generic 500: the messages of the thread are
    never listed, and the error logged by console.error names the
    status. *)
Theorem unfinished_run_fails_the_request (req : Request) (w : World)
  (thread assistantId instr run_status : jsstring) :
  let w' := snd (ScenariosRoute.POST req w) in
  In (RunsCreateAndPoll thread assistantId instr (Some run_status)) (emitted w w') ->
  run_status <> str "completed" ->
  fst (ScenariosRoute.POST req w) = Return scenarios_failure
  /\ (exists prompt,
        emitted w w'
        = [MessagesCreate thread prompt true;
           RunsCreateAndPoll thread assistantId instr (Some run_status);
           ConsoleError (str "Failed to generate scenarios") (RunNotCompleted run_status)])
  /\ Forall (fun e => is_MessagesList e = false) (emitted w w')
  /\ message (RunNotCompleted run_status)
     = Some (str "Assistant run finished with status " ++ run_status).
Proof.
  intros w'. subst w'. brief_cases req w; intros Hin Hne;
    repeat (destruct Hin as [Hin|Hin]; try discriminate Hin); try contradiction;
    try (inversion Hin; subst; congruence).
  inversion Hin; subst.
  split; [reflexivity|]. split; [now eexists|]. split; [|reflexivity].
  repeat constructor.
Qed.

(** X8. A call to the assistant that fails (the brief is not accepted,
    the run cannot be created or polled, the messages cannot be listed)
    is the last call of the request: the response is the generic 500 and
    the failure is logged right after the call. *)
Theorem failed_assistant_call_ends_the_conversation (req : Request) (w : World)
  (e : Event) :
  let w' := snd (ScenariosRoute.POST req w) in
  In e (emitted w w') ->
  (exists thread prompt, e = MessagesCreate thread prompt false)
  \/ (exists thread assistantId instr, e = RunsCreateAndPoll thread assistantId instr None)
  \/ (exists thread, e = MessagesList thread None) ->
  fst (ScenariosRoute.POST req w) = Return scenarios_failure
  /\ exists before,
       emitted w w'
       = before ++ [e; ConsoleError (str "Failed to generate scenarios") AssistantFailed]
       /\ List.length before <= 2
       /\ Forall (fun c => is_assistant_event c = true) before.
Proof.
  intros w'. subst w'.
  brief_cases req w; intros Hin Hfailed;
    repeat (destruct Hin as [Hin|Hin]); try contradiction; subst e;
    try (exfalso;
         destruct Hfailed as [(t & p & Hf)|[(t & a & i & Hf)|(t & Hf)]];
         discriminate Hf);
    (split; [reflexivity|]).
  - exists []. repeat split; auto.
  - eexists [_]. repeat split; auto; repeat constructor.
  - eexists [_; _]. repeat split; auto; repeat constructor.
Qed.

Lemma find_skips {A} (f : A -> bool) (before after : list A) (x : A) :
  Forall (fun y => f y = false) before -> f x = true ->
  find f (before ++ x :: after) = Some x.
Proof.
  induction 1 as [|y before Hy _ IH]; intros Hx; simpl.
  - now rewrite Hx.
  - rewrite Hy. now apply IH.
Qed.

Lemma find_nothing {A} (f : A -> bool) (l : list A) :
  Forall (fun y => f y = false) l -> find f l = None.
Proof. induction 1 as [|y l Hy _ IH]; simpl; [reflexivity|now rewrite Hy]. Qed.

(** X9. The reply is looked for in the first message of the assistant
    only: when that message holds no text block, the request fails with
    the generic 500 and the error about the missing text is logged,
    whatever the later messages of the thread hold. *)
Theorem only_first_assistant_message_is_read (req : Request) (w : World)
  (thread : jsstring) (before after : list Message) (m : Message) :
  let w' := snd (ScenariosRoute.POST req w) in
  In (MessagesList thread (Some (before ++ m :: after))) (emitted w w') ->
  Forall (fun x => ScenariosRoute.is_assistant x = false) before ->
  ScenariosRoute.is_assistant m = true ->
  Forall (fun part => ScenariosRoute.is_text part = false) (message_content m) ->
  fst (ScenariosRoute.POST req w) = Return scenarios_failure
  /\ exists calls,
       emitted w w'
       = calls ++ [MessagesList thread (Some (before ++ m :: after));
                   ConsoleError (str "Failed to generate scenarios") NoTextContent]
  /\ message NoTextContent = Some (str "Assistant response did not contain text content").
Proof.
  intros w'. subst w'.
  brief_cases req w; intros Hin Hbefore Hm Hparts;
    repeat (destruct Hin as [Hin|Hin]; try discriminate Hin); try contradiction;
    inversion Hin; subst.
  - assert (Hfind : ScenariosRoute.find_text (before ++ m :: after) = None).
    { unfold ScenariosRoute.find_text. rewrite (find_skips _ _ _ _ Hbefore Hm).
      now apply find_nothing. }
    rewrite Hfind in Hx. subst x0.
    split; [reflexivity|]. eexists [_; _]. now split.
  - exfalso. unfold ScenariosRoute.find_text in Htext.
    rewrite (find_skips _ _ _ _ Hbefore Hm), (find_nothing _ _ Hparts) in Htext.
    discriminate.
Qed.

(** X10. A reply that cannot be used fails the request with the generic
    500, after the three calls: a text that is not JSON once sanitized is
    logged as a syntax error, a JSON value that is not a batch, such as a
    batch with no scenario, as a validation error. *)
Theorem unusable_reply_fails_the_request (req : Request) (w : World)
  (thread : jsstring) (messages : list Message) (text : jsstring) :
  let w' := snd (ScenariosRoute.POST req w) in
  In (MessagesList thread (Some messages)) (emitted w w') ->
  ScenariosRoute.find_text messages = Some (TextPart text) ->
  (Json.parse (ScenariosRoute.sanitizeResponse text) = None ->
   fst (ScenariosRoute.POST req w) = Return scenarios_failure
   /\ exists calls,
        emitted w w'
        = calls ++ [ConsoleError (str "Failed to generate scenarios") SyntaxError])
  /\ (forall j,
        Json.parse (ScenariosRoute.sanitizeResponse text) = Some j ->
        scenarioResponseSchema (Some j) = None
        \/ (exists b, j = batch_json b /\ scenarios b = []) ->
        fst (ScenariosRoute.POST req w) = Return scenarios_failure
        /\ exists calls,
             emitted w w'
             = calls ++ [ConsoleError (str "Failed to generate scenarios") ZodError]).
Proof.
  intros w'. subst w'.
  brief_cases req w; intros Hin Hfind;
    repeat (destruct Hin as [Hin|Hin]; try discriminate Hin); try contradiction;
    inversion Hin; subst.
  - rewrite Hfind in Hx. split.
    + intros Hnone. rewrite Hnone in Hx. subst x0.
      split; [reflexivity|]. now eexists [_; _; _].
    + intros j Hj _. rewrite Hj in Hx. destruct Hx as [_ ->].
      split; [reflexivity|]. now eexists [_; _; _].
  - rewrite Hfind in Htext. injection Htext as <-. split.
    + intros Hnone. congruence.
    + intros j' Hj' Hbad. exfalso. rewrite Hj in Hj'. injection Hj' as <-.
      destruct Hbad as [Hnone|(b' & -> & Hempty)]; [congruence|].
      rewrite batch_roundtrip, Hempty in Hbatch. discriminate.
Qed.

(** X11. The scenario route answers with the configuration error exactly
    when one of the two credentials of the assistant is unset or empty;
    it then has read nothing of the request and contacted nobody, so the
    answer is the same for a body that is not JSON or not a brief. *)
Theorem missing_assistant_credential_fails_first (req : Request) (w : World) :
  (configured (OPENAI_API_KEY (env w)) = None
   \/ configured (OPENAI_ASSISTANT_ID (env w)) = None)
  <-> ScenariosRoute.POST req w
      = (Return
           (mkResponse 500
              (ErrorBody
                 (str "Missing OPENAI_API_KEY or OPENAI_ASSISTANT_ID. Update your environment variables to enable scenario ideation."))),
         w).
Proof.
  split.
  - intros Hoff. now destruct (scenarios_rejected req w) as (-> & _).
  - intros Hrun.
    assert (Hfst : fst (ScenariosRoute.POST req w)
                   = Return
                       (mkResponse 500
                          (ErrorBody
                             (str "Missing OPENAI_API_KEY or OPENAI_ASSISTANT_ID. Update your environment variables to enable scenario ideation."))))
      by now rewrite Hrun.
    clear Hrun. revert Hfst.
    brief_cases req w; intros Hfst; auto; exfalso; vm_compute in Hfst; discriminate Hfst.
Qed.

Ltac refuse_brief :=
  cbn [Zod.min_length Zod.check Zod.array Zod.string Zod.optional Zod.all option_map
       Zod.object Nat.leb List.length];
  repeat match goal with
         | |- match ?x with Some _ => _ | None => None end = None =>
             destruct x; [|reflexivity]
         end;
  try reflexivity.

(** What [scenarioRequestSchema] refuses. *)
Lemma scenarioRequestSchema_refuses (js : Json.value) :
  (forall fields, js <> JObj fields)
  \/ (exists fields,
        js = JObj fields
        /\ ((forall t, Json.get (str "threadId") fields <> Some (JStr t))
            \/ (forall a, Json.get (str "audience") fields <> Some (JStr a))
            \/ Json.get (str "audience") fields = Some (JStr [])
            \/ (forall d, Json.get (str "productDetails") fields <> Some (JStr d))
            \/ Json.get (str "productDetails") fields = Some (JStr [])
            \/ Json.get (str "productName") fields = Some JNull
            \/ Json.get (str "niche") fields = Some JNull)) ->
  ScenariosRoute.scenarioRequestSchema (Some js) = None.
Proof.
  intros [Hno|(fields & -> & H)].
  - destruct js; try reflexivity. now destruct (Hno fields).
  - unfold ScenariosRoute.scenarioRequestSchema, Zod.object, Zod.field.
    destruct H as [H|[H|[H|[H|[H|[H|H]]]]]].
    + destruct (Json.get (str "threadId") fields) as [[| | |t| |]|]; try reflexivity.
      now destruct (H t).
    + destruct (Json.get (str "audience") fields) as [[| | |a| |]|]; refuse_brief.
      now destruct (H a).
    + rewrite H. refuse_brief.
    + destruct (Json.get (str "productDetails") fields) as [[| | |d| |]|]; refuse_brief.
      now destruct (H d).
    + rewrite H. refuse_brief.
    + rewrite H. refuse_brief.
    + rewrite H. refuse_brief.
Qed.

(** X12. A brief the scenario route cannot use is refused with status
    400 before the assistant is contacted: a body that is not an object,
    one whose thread id, audience or product details is absent or not a
    string, one whose audience or product details is empty, one whose
    product name or niche is null. Nothing is posted to any thread and
    the world is as before. *)
Theorem malformed_brief_is_refused (req : Request) (w : World)
  (apiKey assistantId : jsstring) (js : Json.value) :
  configured (OPENAI_API_KEY (env w)) = Some apiKey ->
  configured (OPENAI_ASSISTANT_ID (env w)) = Some assistantId ->
  request_json req = Some js ->
  (forall fields, js <> JObj fields)
  \/ (exists fields,
        js = JObj fields
        /\ ((forall t, Json.get (str "threadId") fields <> Some (JStr t))
            \/ (forall a, Json.get (str "audience") fields <> Some (JStr a))
            \/ Json.get (str "audience") fields = Some (JStr [])
            \/ (forall d, Json.get (str "productDetails") fields <> Some (JStr d))
            \/ Json.get (str "productDetails") fields = Some (JStr [])
            \/ Json.get (str "productName") fields = Some JNull
            \/ Json.get (str "niche") fields = Some JNull)) ->
  ScenariosRoute.POST req w
  = (Return (mkResponse 400 (InvalidBody (str "Invalid scenario request payload"))), w)
  /\ emitted w (snd (ScenariosRoute.POST req w)) = [].
Proof.
  intros Hkey Hid Hjs Hbad.
  destruct (scenarios_rejected req w) as (_ & _ & Hinvalid).
  rewrite (Hinvalid apiKey assistantId js Hkey Hid Hjs
             (scenarioRequestSchema_refuses js Hbad)).
  split; [reflexivity|]. apply emitted_same.
Qed.

(** X13. The scenario route talks to the assistant and to nobody else:
    whatever the request and the answers, it makes no call to the image
    provider, constructs no datastore handle, reads no clock and inserts
    nothing; it makes at most three calls to the assistant, and leaves the
    cached handle and the environment as they were. *)
Theorem scenario_route_only_talks_to_the_assistant (req : Request) (w : World) :
  let w' := snd (ScenariosRoute.POST req w) in
  Forall (fun e => is_Fetch e = false /\ is_datastore_event e = false) (emitted w w')
  /\ List.length (filter is_assistant_event (emitted w w')) <= 3
  /\ cachedClient w' = cachedClient w
  /\ env w' = env w.
Proof.
  intros w'. subst w'.
  brief_cases req w; (split; [repeat constructor|]); (split; [simpl; lia|]);
    now split.
Qed.

End ScenarioFailures.

(** ** What sanitizing leaves *)

Section Sanitized.

Lemma remove_fence_step (c : char16) (s : jsstring) :
  remove_all ScenariosRoute.fence (c :: s)
  = if starts_with ScenariosRoute.fence (c :: s)
    then remove_all ScenariosRoute.fence (skipn 2 s)
    else c :: remove_all ScenariosRoute.fence s.
Proof.
  unfold remove_all. cbn [remove_all_from].
  destruct (starts_with ScenariosRoute.fence (c :: s)) eqn:Hs; [|reflexivity].
  apply starts_with_inv in Hs as [rest Hrest].
  change ScenariosRoute.fence with [96%N; 96%N; 96%N] in *.
  injection Hrest as -> ->. reflexivity.
Qed.

Lemma starts_with_fence_cases (s : jsstring) :
  starts_with ScenariosRoute.fence s = true
  <-> exists rest, s = 96%N :: 96%N :: 96%N :: rest.
Proof.
  split.
  - intros H. apply starts_with_inv in H as [rest ->]. now exists rest.
  - intros [rest ->]. reflexivity.
Qed.

Lemma not_backtick_no_fence (c : char16) (s : jsstring) :
  c <> 96%N -> starts_with ScenariosRoute.fence (c :: s) = false.
Proof.
  intros Hc. destruct (starts_with ScenariosRoute.fence (c :: s)) eqn:H; [|reflexivity].
  apply starts_with_fence_cases in H as [rest H]. congruence.
Qed.

(** What the second pass leaves does not begin with a fence. *)
Lemma removed_fence_head (n : nat) :
  forall s, List.length s <= n ->
  starts_with ScenariosRoute.fence (remove_all ScenariosRoute.fence s) = false.
Proof.
  induction n as [|n IH]; intros [|c s] Hlen; try reflexivity.
  { simpl in Hlen. lia. }
  rewrite remove_fence_step.
  destruct (starts_with ScenariosRoute.fence (c :: s)) eqn:Hhere.
  - apply IH. simpl in Hlen. rewrite length_skipn. lia.
  - destruct (N.eq_dec c 96) as [->|Hc]; [|now apply not_backtick_no_fence].
    destruct s as [|d s]; [reflexivity|].
    destruct (N.eq_dec d 96) as [->|Hd].
    2:{ rewrite remove_fence_step, (not_backtick_no_fence d s Hd).
        change ScenariosRoute.fence with [96%N; 96%N; 96%N].
        cbn [starts_with]. apply N.eqb_neq in Hd. rewrite N.eqb_sym in Hd.
        now rewrite Hd. }
    destruct s as [|e s]; [reflexivity|].
    destruct (N.eq_dec e 96) as [->|He]; [discriminate Hhere|].
    rewrite remove_fence_step.
    replace (starts_with ScenariosRoute.fence (96%N :: e :: s)) with false.
    2:{ symmetry. destruct (starts_with ScenariosRoute.fence (96%N :: e :: s)) eqn:H;
          [|reflexivity].
        apply starts_with_fence_cases in H as [rest H]. congruence. }
    rewrite remove_fence_step, (not_backtick_no_fence e s He).
    change ScenariosRoute.fence with [96%N; 96%N; 96%N].
    cbn [starts_with]. apply N.eqb_neq in He. rewrite N.eqb_sym in He.
    now rewrite He.
Qed.

(** The second pass leaves no fence. *)
Lemma removed_fence_nowhere (n : nat) :
  forall s, List.length s <= n ->
  includes (remove_all ScenariosRoute.fence s) ScenariosRoute.fence = false.
Proof.
  induction n as [|n IH]; intros [|c s] Hlen; try reflexivity.
  { simpl in Hlen. lia. }
  pose proof (removed_fence_head (S n) (c :: s) Hlen) as Hhead.
  rewrite remove_fence_step in *.
  destruct (starts_with ScenariosRoute.fence (c :: s)).
  - apply IH. simpl in Hlen. rewrite length_skipn. lia.
  - cbn [includes]. rewrite Hhead. cbn [orb]. apply IH. simpl in Hlen. lia.
Qed.

Lemma includes_false_iff (s needle : jsstring) :
  includes s needle = false <-> ~ Occurs needle s.
Proof.
  split; [apply not_Occurs|].
  intros H. destruct (includes s needle) eqn:Hi; [|reflexivity].
  now apply includes_iff in Hi.
Qed.

(** Trimming takes characters away at the two ends only. *)
Lemma trim_split (s : jsstring) :
  exists l r,
    s = l ++ trim s ++ r
    /\ Forall (fun c => is_js_space c = true) l
    /\ Forall (fun c => is_js_space c = true) r.
Proof.
  destruct (trim_start_split s) as (l & Hl & Hfl).
  destruct (trim_end_split (trim_start s)) as (r & Hr & Hfr).
  exists l, r. unfold trim. now rewrite <- Hr.
Qed.

Lemma trim_keeps_absent (s needle : jsstring) :
  includes s needle = false -> includes (trim s) needle = false.
Proof.
  rewrite !includes_false_iff. intros Hno (pre & post & Ht). apply Hno.
  destruct (trim_split s) as (l & r & Hs & _).
  exists (l ++ pre), (post ++ r). rewrite Hs at 1. rewrite Ht.
  now rewrite <- !app_assoc.
Qed.

Lemma trim_start_fixed (c : char16) (s : jsstring) :
  is_js_space c = false -> trim_start (c :: s) = c :: s.
Proof. intros H. cbn [trim_start]. now rewrite H. Qed.

Lemma trim_start_snoc (l : jsstring) (c : char16) :
  is_js_space c = false -> trim_start (l ++ [c]) = trim_start l ++ [c].
Proof.
  intros Hc. induction l as [|x l IH]; cbn [trim_start app].
  - now rewrite Hc.
  - destruct (is_js_space x); [exact IH|reflexivity].
Qed.

Lemma trim_start_head (s : jsstring) :
  match trim_start s with
  | [] => True
  | c :: _ => is_js_space c = false
  end.
Proof.
  induction s as [|c s IH]; cbn [trim_start]; [exact I|].
  destruct (is_js_space c) eqn:Hc; [exact IH|exact Hc].
Qed.

Lemma trim_head (s : jsstring) :
  match trim s with
  | [] => True
  | c :: _ => is_js_space c = false
  end.
Proof.
  unfold trim, trim_end. pose proof (trim_start_head s) as Hs.
  destruct (trim_start s) as [|c t]; [exact I|].
  cbn [rev]. rewrite (trim_start_snoc _ _ Hs), rev_app_distr. exact Hs.
Qed.

Lemma trim_last (s : jsstring) :
  match rev (trim s) with
  | [] => True
  | c :: _ => is_js_space c = false
  end.
Proof.
  unfold trim, trim_end. rewrite rev_involutive. apply trim_start_head.
Qed.

(** Trimming what is trimmed changes nothing. *)
Lemma trim_trim (s : jsstring) : trim (trim s) = trim s.
Proof.
  pose proof (trim_head s) as Hh. pose proof (trim_last s) as Hl.
  set (t := trim s) in *. unfold trim at 1, trim_end.
  assert (Hstart : trim_start t = t).
  { destruct t as [|c t']; [reflexivity|now apply trim_start_fixed]. }
  rewrite Hstart.
  assert (Hend : trim_start (rev t) = rev t).
  { destruct (rev t) as [|c t']; [reflexivity|now apply trim_start_fixed]. }
  rewrite Hend. apply rev_involutive.
Qed.

(** X14. What [sanitizeResponse] returns holds no code fence, whatever
    the text: neither the marker of three backticks nor the opening
    marker with its language tag. It has no white space at either end,
    and sanitizing it again changes nothing. *)
Theorem sanitized_text_holds_no_fence (raw : jsstring) :
  let clean := ScenariosRoute.sanitizeResponse raw in
  includes clean ScenariosRoute.fence = false
  /\ includes clean ScenariosRoute.fence_json = false
  /\ trim clean = clean
  /\ ScenariosRoute.sanitizeResponse clean = clean.
Proof.
  intros clean.
  assert (Hfence : includes clean ScenariosRoute.fence = false).
  { apply trim_keeps_absent.
    now apply (removed_fence_nowhere (List.length (remove_all ScenariosRoute.fence_json raw))). }
  assert (Htrim : trim clean = clean) by apply trim_trim.
  repeat split; auto.
  - now apply fence_json_has_fence.
  - now rewrite (sanitize_plain clean Hfence).
Qed.

End Sanitized.

(* ================================================================== *)
(** * The page: selection, file and requests *)
(* ================================================================== *)

Section Selection.

Lemma jsstring_eqb_refl (a : jsstring) : JsString.eqb a a = true.
Proof. now apply jsstring_eqb_eq. Qed.

Lemma jsstring_eqb_sym (a b : jsstring) : JsString.eqb a b = JsString.eqb b a.
Proof.
  destruct (JsString.eqb a b) eqn:Hab, (JsString.eqb b a) eqn:Hba; try reflexivity.
  - apply jsstring_eqb_eq in Hab. subst. now rewrite jsstring_eqb_refl in Hba.
  - apply jsstring_eqb_eq in Hba. subst. now rewrite jsstring_eqb_refl in Hab.
Qed.

Lemma jsstring_eqb_neq (a b : jsstring) : JsString.eqb a b = false <-> a <> b.
Proof.
  split.
  - intros H ->. now rewrite jsstring_eqb_refl in H.
  - intros H. destruct (JsString.eqb a b) eqn:Hab; [|reflexivity].
    now apply jsstring_eqb_eq in Hab.
Qed.

Lemma has_In (s : JsSet.t) (x : jsstring) : JsSet.has s x = true <-> In x s.
Proof.
  unfold JsSet.has. rewrite existsb_exists. split.
  - intros (y & Hy & Heq). apply jsstring_eqb_eq in Heq. now subst.
  - intros H. exists x. split; [exact H|apply jsstring_eqb_refl].
Qed.

Lemma has_app (s s' : JsSet.t) (x : jsstring) :
  JsSet.has (s ++ s') x = JsSet.has s x || JsSet.has s' x.
Proof. apply existsb_app. Qed.

Lemma has_add (s : JsSet.t) (x y : jsstring) :
  JsSet.has (JsSet.add s x) y = JsSet.has s y || JsString.eqb y x.
Proof.
  unfold JsSet.add. destruct (JsSet.has s x) eqn:Hx.
  - destruct (JsString.eqb y x) eqn:Hyx; [|now rewrite orb_false_r].
    apply jsstring_eqb_eq in Hyx. subst y. now rewrite Hx.
  - rewrite has_app. unfold JsSet.has at 2. simpl. now rewrite orb_false_r.
Qed.

Lemma has_delete (s : JsSet.t) (x y : jsstring) :
  JsSet.has (JsSet.delete s x) y = JsSet.has s y && negb (JsString.eqb y x).
Proof.
  unfold JsSet.delete, JsSet.has. induction s as [|z s IH]; [reflexivity|].
  simpl. destruct (JsString.eqb x z) eqn:Hxz; simpl.
  - apply jsstring_eqb_eq in Hxz. subst z. rewrite IH.
    destruct (JsString.eqb y x); simpl; [now rewrite andb_false_r|reflexivity].
  - rewrite IH. destruct (JsString.eqb y z) eqn:Hyz; simpl; [|reflexivity].
    apply jsstring_eqb_eq in Hyz. subst z.
    rewrite jsstring_eqb_sym, Hxz. reflexivity.
Qed.

Lemma NoDup_add (s : JsSet.t) (x : jsstring) : NoDup s -> NoDup (JsSet.add s x).
Proof.
  intros H. unfold JsSet.add. destruct (JsSet.has s x) eqn:Hx; [exact H|].
  apply NoDup_app; [exact H|repeat constructor; intros []|].
  intros y Hy [<-|[]]. apply has_In in Hy. congruence.
Qed.

Lemma NoDup_delete (s : JsSet.t) (x : jsstring) : NoDup s -> NoDup (JsSet.delete s x).
Proof. apply NoDup_filter. Qed.

Lemma length_delete (s : JsSet.t) (x : jsstring) :
  NoDup s -> JsSet.has s x = true ->
  S (List.length (JsSet.delete s x)) = List.length s.
Proof.
  unfold JsSet.delete. induction 1 as [|y s Hy Hs IH]; intros Hx; [discriminate|].
  simpl. destruct (JsString.eqb x y) eqn:Hxy; simpl.
  - apply jsstring_eqb_eq in Hxy. subst y. f_equal.
    clear -Hy. induction s as [|z s IH]; [reflexivity|].
    simpl. destruct (JsString.eqb x z) eqn:Hxz.
    + apply jsstring_eqb_eq in Hxz. subst z. destruct Hy. now left.
    + simpl. f_equal. apply IH. intros H. apply Hy. now right.
  - f_equal. apply IH. unfold JsSet.has in Hx. simpl in Hx.
    now rewrite Hxy in Hx.
Qed.

Lemma has_toggle (id : jsstring) (s : JsSet.t) (x : jsstring) :
  JsSet.has (Client.toggleScenario id s) x
  = if JsString.eqb x id then negb (JsSet.has s id) else JsSet.has s x.
Proof.
  unfold Client.toggleScenario. cbv zeta.
  destruct (JsSet.has s id) eqn:Hid.
  - rewrite has_delete. destruct (JsString.eqb x id) eqn:Hx; simpl.
    + now rewrite andb_false_r.
    + now rewrite andb_true_r.
  - rewrite has_add. destruct (JsString.eqb x id) eqn:Hx; simpl.
    + now rewrite orb_true_r.
    + now rewrite orb_false_r.
Qed.

Lemma NoDup_toggle (id : jsstring) (s : JsSet.t) :
  NoDup s -> NoDup (Client.toggleScenario id s).
Proof.
  intros H. unfold Client.toggleScenario. cbv zeta.
  destruct (JsSet.has s id); [now apply NoDup_delete|now apply NoDup_add].
Qed.

(** X15. Clicking a scenario card flips the selection of that id and of
    no other. For a selection that holds each id once, as a set does: the
    id is selected afterwards exactly when it was not before, every other
    id keeps its state, the selection still holds each id once, its size
    changes by one, and a second click restores the selection. *)
Theorem toggleScenario_flips_one_id (id : jsstring) (current : JsSet.t) :
  NoDup current ->
  JsSet.has (Client.toggleScenario id current) id = negb (JsSet.has current id)
  /\ (forall other,
        other <> id ->
        JsSet.has (Client.toggleScenario id current) other = JsSet.has current other)
  /\ NoDup (Client.toggleScenario id current)
  /\ (if JsSet.has current id
      then S (JsSet.size (Client.toggleScenario id current)) = JsSet.size current
      else JsSet.size (Client.toggleScenario id current) = S (JsSet.size current))
  /\ (forall x,
        JsSet.has (Client.toggleScenario id (Client.toggleScenario id current)) x
        = JsSet.has current x).
Proof.
  intros Hnd.
  pose proof (has_toggle id) as Hflip.
  split; [now rewrite Hflip, jsstring_eqb_refl|].
  split.
  { intros other Hother. rewrite Hflip.
    now apply jsstring_eqb_neq in Hother as ->. }
  split.
  { now apply NoDup_toggle. }
  split.
  { unfold Client.toggleScenario, JsSet.size. cbv zeta.
    destruct (JsSet.has current id) eqn:Hid.
    - now apply length_delete.
    - unfold JsSet.add. rewrite Hid, length_app. simpl. lia. }
  intros x. rewrite !Hflip, jsstring_eqb_refl.
  destruct (JsString.eqb x id) eqn:Hx; [|reflexivity].
  apply jsstring_eqb_eq in Hx. subst x. now rewrite negb_involutive.
Qed.

Lemma has_fold_add (l : list jsstring) :
  forall acc x,
    JsSet.has (fold_left JsSet.add l acc) x = JsSet.has acc x || existsb (JsString.eqb x) l.
Proof.
  induction l as [|y l IH]; intros acc x; simpl.
  - now rewrite orb_false_r.
  - rewrite IH, has_add. now rewrite orb_assoc.
Qed.

Lemma has_of_list (l : list jsstring) (x : jsstring) :
  JsSet.has (JsSet.of_list l) x = true <-> In x l.
Proof.
  unfold JsSet.of_list. rewrite has_fold_add. simpl.
  apply (has_In l x).
Qed.

Lemma NoDup_fold_add (l : list jsstring) :
  forall acc, NoDup acc -> NoDup (fold_left JsSet.add l acc).
Proof.
  induction l as [|y l IH]; intros acc H; simpl; [exact H|].
  apply IH. now apply NoDup_add.
Qed.

Lemma In_fold_add (l : list jsstring) :
  forall acc x, In x (fold_left JsSet.add l acc) <-> In x acc \/ In x l.
Proof.
  intros acc x. rewrite <- !has_In, has_fold_add, orb_true_iff. reflexivity.
Qed.

(** X16. When a batch of scenarios is loaded, every scenario of the
    batch is chosen for rendering, in the order of the batch, also when
    two scenarios share an id: the selection holds the ids of the batch,
    each once. *)
Theorem loaded_scenarios_are_all_chosen (l : list Scenario) :
  let selected := JsSet.of_list (map id l) in
  Client.chosenScenarios l selected = l
  /\ NoDup selected
  /\ (forall x, In x selected <-> In x (map id l))
  /\ JsSet.size selected <= List.length l.
Proof.
  intros selected. split; [|split; [|split]].
  - unfold Client.chosenScenarios. apply filter_all.
    apply Forall_forall. intros s Hs. apply has_of_list. now apply in_map.
  - apply NoDup_fold_add. constructor.
  - intros x. unfold selected, JsSet.of_list. rewrite In_fold_add.
    unfold JsSet.empty. simpl. tauto.
  - unfold JsSet.size. rewrite <- (length_map id l).
    apply NoDup_incl_length.
    + apply NoDup_fold_add. constructor.
    + intros x Hx. unfold selected, JsSet.of_list in Hx.
      apply In_fold_add in Hx as [[]|Hx]. exact Hx.
Qed.

Lemma selection_after_within (ids : list jsstring) (clicked : list jsstring) :
  Forall (fun i => In i ids) clicked ->
  forall selected,
    NoDup selected -> (forall x, In x selected -> In x ids) ->
    NoDup (selection_after clicked selected)
    /\ (forall x, In x (selection_after clicked selected) -> In x ids).
Proof.
  induction 1 as [|i clicked Hi _ IH]; intros selected Hnd Hin; [now split|].
  cbn [selection_after fold_left]. apply IH.
  - now apply NoDup_toggle.
  - intros x Hx. apply has_In in Hx. rewrite has_toggle in Hx.
    destruct (JsString.eqb x i) eqn:Hxi.
    + apply jsstring_eqb_eq in Hxi. now subst x.
    + apply Hin. now apply has_In.
Qed.

(** X17. However the cards of the loaded batch are clicked afterwards,
    the selection holds ids of scenarios of that batch only, each once.
    So the selection is empty exactly when no scenario is chosen, and
    whenever the render button is enabled the handler has a scenario to
    send: it does not stop at "Select at least one scenario to render". *)
Theorem selection_stays_within_the_batch (l : list Scenario) (clicked : list jsstring) :
  Forall (fun i => In i (map id l)) clicked ->
  let selected := selection_after clicked (JsSet.of_list (map id l)) in
  NoDup selected
  /\ (forall x, In x selected -> In x (map id l))
  /\ (JsSet.size selected = 0 <-> Client.chosenScenarios l selected = [])
  /\ (forall threadId productName settings file result,
        Client.canGenerateImages selected (Some file) false = true ->
        Client.handleGenerateImages_body threadId productName l selected settings file result
        <> None).
Proof.
  intros Hclicked selected.
  destruct (selection_after_within (map id l) clicked Hclicked (JsSet.of_list (map id l)))
    as (Hnd & Hin).
  { apply NoDup_fold_add. constructor. }
  { intros x Hx. unfold JsSet.of_list in Hx. apply In_fold_add in Hx as [[]|Hx].
    exact Hx. }
  fold selected in Hnd, Hin.
  assert (Hempty : JsSet.size selected = 0 <-> Client.chosenScenarios l selected = []).
  { unfold JsSet.size, Client.chosenScenarios. split.
    - intros Hz. destruct selected; [|discriminate].
      apply filter_none. apply Forall_forall. now intros.
    - intros Hnone. destruct selected as [|x rest] eqn:Hsel; [reflexivity|exfalso].
      assert (Hx : In x (map id l)) by (apply Hin; now left).
      apply in_map_iff in Hx as (s & Hid & Hs).
      assert (Hc : In s (filter (fun scenario => JsSet.has (x :: rest) (id scenario)) l)).
      { apply filter_In. split; [exact Hs|]. apply has_In. rewrite Hid. now left. }
      rewrite Hnone in Hc. destruct Hc. }
  repeat split; auto; try apply Hempty.
  intros threadId productName settings file result Hcan Hreq.
  unfold Client.handleGenerateImages_body in Hreq. cbv zeta in Hreq.
  destruct (Client.chosenScenarios l selected) eqn:Hchosen; [|discriminate].
  assert (Hz : JsSet.size selected = 0) by now apply Hempty.
  unfold Client.canGenerateImages in Hcan. rewrite Hz in Hcan. discriminate.
Qed.

End Selection.

Section DataUrl.

Lemma split_nonempty (sep : char16) (s : jsstring) : Client.split sep s <> [].
Proof.
  induction s as [|c s IH]; simpl; [discriminate|].
  destruct (N.eqb c sep); [discriminate|].
  destruct (Client.split sep s); [contradiction|discriminate].
Qed.

Lemma split_plain (sep : char16) (s : jsstring) :
  ~ In sep s -> Client.split sep s = [s].
Proof.
  induction s as [|c s IH]; intros Hno; [reflexivity|].
  simpl. destruct (N.eqb_spec c sep) as [->|Hc].
  - destruct Hno. now left.
  - rewrite IH; [reflexivity|]. intros H. apply Hno. now right.
Qed.

Lemma split_at_first (sep : char16) (head rest : jsstring) :
  ~ In sep head ->
  Client.split sep (head ++ sep :: rest) = head :: Client.split sep rest.
Proof.
  induction head as [|c head IH]; intros Hno.
  - simpl. now rewrite N.eqb_refl.
  - cbn [app Client.split]. destruct (N.eqb_spec c sep) as [->|Hc].
    + destruct Hno. now left.
    + rewrite IH; [reflexivity|]. intros H. apply Hno. now right.
Qed.

(** X18. From the data URL of the file, [toBase64] keeps what stands
    between the first comma and the second: the whole payload for a data
    URL, whose header and base64 payload hold no comma. A text without a
    comma is passed on whole, and a text that ends with its only comma
    gives the empty string. *)
Theorem toBase64_keeps_the_payload (header payload : jsstring) :
  ~ In 44%N header ->
  ~ In 44%N payload ->
  Client.toBase64 (header ++ 44%N :: payload) = payload
  /\ Client.toBase64 header = header
  /\ Client.toBase64 (header ++ [44%N]) = []
  /\ (forall more, Client.toBase64 (header ++ 44%N :: payload ++ 44%N :: more) = payload).
Proof.
  intros Hh Hp. unfold Client.toBase64. repeat split.
  - now rewrite (split_at_first _ _ _ Hh), (split_plain _ _ Hp).
  - now rewrite (split_plain _ _ Hh).
  - now rewrite (split_at_first _ _ _ Hh).
  - intros more. now rewrite (split_at_first _ _ _ Hh), (split_at_first _ _ _ Hp).
Qed.

End DataUrl.

(** Look a literal key up in a literal object. *)
Ltac compute_gets :=
  repeat match goal with
         | |- context [Json.get (str ?k) ?l] =>
             let v := eval lazy in (Json.get (str k) l) in
             change (Json.get (str k) l) with v
         end.

Section Requests.
Context {P : Providers} {L : Library}.

Lemma brief_fields (v1 v2 v3 v4 v5 v6 v7 v8 v9 v10 : Json.value) :
  let o := [(str "threadId", v1); (str "audience", v2); (str "productDetails", v3);
            (str "productName", v4); (str "niche", v5); (str "tone", v6);
            (str "visualStyle", v7); (str "shots", v8); (str "focusOnProduct", v9);
            (str "additionalNotes", v10)] in
  Json.get (str "threadId") o = Some v1
  /\ Json.get (str "audience") o = Some v2
  /\ Json.get (str "productDetails") o = Some v3
  /\ Json.get (str "productName") o = Some v4
  /\ Json.get (str "niche") o = Some v5
  /\ Json.get (str "tone") o = Some v6
  /\ Json.get (str "visualStyle") o = Some v7
  /\ Json.get (str "shots") o = Some v8
  /\ Json.get (str "focusOnProduct") o = Some v9
  /\ Json.get (str "additionalNotes") o = Some v10.
Proof. repeat split; reflexivity. Qed.

Lemma strings_roundtrip (l : list jsstring) :
  Zod.array Zod.string (Some (JArr (map JStr l))) = Some l.
Proof. apply (all_map Zod.string JStr). reflexivity. Qed.

Lemma ranged_integer_schema (lo hi : Z) (q : Q) :
  Zod.max hi (Zod.min lo (Zod.int Zod.number)) (Some (JNum q))
  = if ranged_integer lo hi q then Some q else None.
Proof.
  unfold Zod.max, Zod.min, Zod.int, Zod.check, Zod.number, ranged_integer, ranged.
  destruct (JsNumber.is_integer q); [|reflexivity].
  destruct (Qle_bool (inject_Z lo) q); [|reflexivity].
  now destruct (Qle_bool q (inject_Z hi)).
Qed.

Lemma ranged_schema (lo hi : Z) (q : Q) :
  Zod.max hi (Zod.min lo Zod.number) (Some (JNum q))
  = if ranged lo hi q then Some q else None.
Proof.
  unfold Zod.max, Zod.min, Zod.check, Zod.number, ranged.
  destruct (Qle_bool (inject_Z lo) q); [|reflexivity].
  now destruct (Qle_bool q (inject_Z hi)).
Qed.

Lemma trimmed_nonempty (s : jsstring) :
  Nat.ltb 0 (List.length (trim s)) = true -> Nat.leb 1 (List.length s) = true.
Proof.
  intros H. destruct s; [discriminate H|reflexivity].
Qed.

(** X19. The brief the page posts is one the scenario route reads as it
    was entered: the route accepts it exactly when the audience and the
    product details are not empty and the shot count and the focus level
    are integers within 1-12 and 1-5, and then works with the fields of
    the form unchanged; the product name and the niche are always
    present, so the route's fallbacks for them never apply, and the
    extra considerations are the labels of the toggles that are on.
    Whenever the button of the form is enabled, the thread id, the
    audience and the product details pass the route's checks. *)
Theorem page_brief_is_read_as_sent (threadId : option jsstring)
  (audience details name niche_ : jsstring) (settings : GenerationSettings)
  (body : Json.value) :
  Client.handleGenerateScenarios_body threadId audience details name niche_ settings = Some body ->
  exists thread,
    threadId = Some thread
    /\ thread <> []
    /\ ScenariosRoute.scenarioRequestSchema (Some body)
       = (if Nat.leb 1 (List.length audience) && Nat.leb 1 (List.length details)
             && ranged_integer 1 12 (shots settings)
             && ranged_integer 1 5 (focusOnProduct settings)
          then Some (ScenariosRoute.mkPayload thread audience details (Some name)
                       (Some niche_) (Some (tone settings)) (Some (visualStyle settings))
                       (shots settings) (focusOnProduct settings)
                       (Some (Client.additionalNotes settings)))
          else None)
    /\ (forall file,
          Client.canRequestScenarios threadId (Some file) audience details = true ->
          Nat.leb 1 (List.length audience) && Nat.leb 1 (List.length details) = true).
Proof.
  unfold Client.handleGenerateScenarios_body, configured.
  destruct threadId as [thread|]; [|discriminate].
  destruct (truthy thread) eqn:Hthread; [|discriminate].
  intros Hbody. injection Hbody as <-. exists thread.
  split; [reflexivity|]. split; [now destruct thread|]. split.
  - unfold ScenariosRoute.scenarioRequestSchema, Zod.object, Zod.field.
    match goal with
    | |- context [Json.get _ [(_, ?v1); (_, ?v2); (_, ?v3); (_, ?v4); (_, ?v5); (_, ?v6);
                              (_, ?v7); (_, ?v8); (_, ?v9); (_, ?v10)]] =>
        destruct (brief_fields v1 v2 v3 v4 v5 v6 v7 v8 v9 v10)
          as (H1 & H2 & H3 & H4 & H5 & H6 & H7 & H8 & H9 & H10)
    end.
    cbv zeta in *. rewrite H1, H2, H3, H4, H5, H6, H7, H8, H9, H10.
    unfold ScenariosRoute.shotsSchema, ScenariosRoute.focusOnProductSchema, Zod.default.
    rewrite !ranged_integer_schema.
    cbn [Zod.string Zod.min_length Zod.check Zod.optional option_map].
    rewrite strings_roundtrip. cbn [option_map].
    destruct (Nat.leb 1 (List.length audience)); [|reflexivity].
    destruct (Nat.leb 1 (List.length details)); [|reflexivity].
    destruct (ranged_integer 1 12 (shots settings)); [|reflexivity].
    now destruct (ranged_integer 1 5 (focusOnProduct settings)).
  - intros file. unfold Client.canRequestScenarios. rewrite Hthread.
    intros H. apply andb_prop in H as [H Hd]. apply andb_prop in H as [_ Ha].
    now rewrite (trimmed_nonempty _ Ha), (trimmed_nonempty _ Hd).
Qed.

(** The settings of the page, serialized, are read back as they were,
    provided the two numbers are within their ranges. *)
Lemma settings_roundtrip (settings : GenerationSettings) :
  generationSettingsSchema (Some (Client.settings_json settings))
  = if ranged 1 5 (focusOnProduct settings) && ranged 1 12 (shots settings)
    then Some settings else None.
Proof.
  destruct settings as [f sh vs t o q [am|] [rp|] [ic|]];
    unfold generationSettingsSchema, Client.settings_json, Zod.object, Zod.field;
    cbn [focusOnProduct shots visualStyle tone orientation quality addMotion
         retouchProduct includeCaptions optional_field option_map app];
    compute_gets; rewrite !ranged_schema;
    cbn [Zod.string Zod.boolean Zod.optional option_map];
    destruct (ranged 1 5 f); try reflexivity;
    destruct (ranged 1 12 sh); reflexivity.
Qed.

Lemma scenarios_roundtrip (l : list Scenario) :
  Zod.array scenarioSchema (Some (JArr (map scenario_json l))) = Some l.
Proof. apply (all_map scenarioSchema scenario_json). apply scenarioSchema_roundtrip. Qed.

Lemma generate_fields (v1 v2 v3 v4 v5 : Json.value) :
  let o := [(str "threadId", v1); (str "productName", v2); (str "scenarios", v3);
            (str "settings", v4); (str "productImage", v5)] in
  Json.get (str "threadId") o = Some v1
  /\ Json.get (str "productName") o = Some v2
  /\ Json.get (str "scenarios") o = Some v3
  /\ Json.get (str "settings") o = Some v4
  /\ Json.get (str "productImage") o = Some v5.
Proof. repeat split; reflexivity. Qed.

(** What the image route makes of the body the page posts. *)
Lemma page_image_request_schema (threadId : option jsstring) (productName : jsstring)
  (chosen : list Scenario) (settings : GenerationSettings) (base64 mime : jsstring) :
  GenerateRoute.requestSchema
    (Some (JObj [(str "threadId", Client.nullable threadId);
                 (str "productName", JStr productName);
                 (str "scenarios", JArr (map scenario_json chosen));
                 (str "settings", Client.settings_json settings);
                 (str "productImage",
                  JObj [(str "data", JStr base64); (str "mimeType", JStr mime)])]))
  = match threadId with
    | None => None
    | Some thread =>
        if Nat.leb 10 (List.length base64) && Nat.leb 1 (List.length chosen)
           && ranged 1 5 (focusOnProduct settings) && ranged 1 12 (shots settings)
        then Some (GenerateRoute.mkPayload (Some thread) (Some productName)
                     (GenerateRoute.mkProductImage base64 mime) chosen settings)
        else None
    end.
Proof.
  unfold GenerateRoute.requestSchema, Zod.object, Zod.field.
  match goal with
  | |- context [Json.get _ [(_, ?v1); (_, ?v2); (_, ?v3); (_, ?v4); (_, ?v5)]] =>
      destruct (generate_fields v1 v2 v3 v4 v5) as (H1 & H2 & H3 & H4 & H5)
  end.
  cbv zeta in *. rewrite H1, H2, H3, H4, H5. clear H1 H2 H3 H4 H5.
  destruct threadId as [thread|]; [|reflexivity].
  cbn [Client.nullable Zod.optional Zod.string option_map].
  unfold GenerateRoute.productImageSchema, Zod.object, Zod.field. compute_gets.
  cbn [Zod.min_length Zod.check Zod.string Zod.default].
  destruct (Nat.leb 10 (List.length base64)); [|reflexivity].
  unfold Zod.min_length, Zod.check. rewrite scenarios_roundtrip.
  destruct (Nat.leb 1 (List.length chosen)); [|reflexivity].
  rewrite settings_roundtrip. cbn [andb].
  destruct (ranged 1 5 (focusOnProduct settings)); [|reflexivity].
  now destruct (ranged 1 12 (shots settings)).
Qed.

(** X20. The body the page posts to the image route is read as it was
    sent: the route accepts it exactly when the page holds a thread id,
    the payload taken from the data URL has at least ten characters, and
    the focus level and the shot count are within 1-5 and 1-12. The
    payload then holds the thread id, the chosen scenarios in the order
    of the page, the settings and the image unchanged, the MIME type of
    the file or image/png when the file names none, and the product name
    of the form, which is always present. Without a thread id the body
    carries null and the route refuses it. *)
Theorem page_image_request_is_read_as_sent (threadId : option jsstring)
  (productName : jsstring) (scenarios : list Scenario) (selected : JsSet.t)
  (settings : GenerationSettings) (file : Client.File) (result : jsstring)
  (body : Json.value) :
  Client.handleGenerateImages_body threadId productName scenarios selected settings file result
  = Some body ->
  let chosen := Client.chosenScenarios scenarios selected in
  chosen <> []
  /\ GenerateRoute.requestSchema (Some body)
     = match threadId with
       | None => None
       | Some thread =>
           if Nat.leb 10 (List.length (Client.toBase64 result))
              && ranged 1 5 (focusOnProduct settings) && ranged 1 12 (shots settings)
           then Some (GenerateRoute.mkPayload (Some thread) (Some productName)
                        (GenerateRoute.mkProductImage (Client.toBase64 result)
                           (Client.mime_of file))
                        chosen settings)
           else None
       end.
Proof.
  unfold Client.handleGenerateImages_body. cbv zeta.
  destruct (Client.chosenScenarios scenarios selected) as [|sc chosen] eqn:Hchosen;
    [discriminate|].
  intros Hbody. split; [discriminate|].
  apply (f_equal (fun o => nullish o JNull)) in Hbody. cbn [nullish] in Hbody.
  subst body. rewrite page_image_request_schema. cbn [List.length Nat.leb].
  destruct threadId; [|reflexivity].
  now rewrite andb_true_r.
Qed.

End Requests.

(* ================================================================== *)
(** * The page and the routes together *)
(* ================================================================== *)

Section RoundTrips.
Context {P : Providers} {L : Library}.

Lemma image_roundtrip (image : GeminiImagePart) :
  Client.generatedImageSchema (Some (Wire.image_json image)) = Some image.
Proof.
  unfold Client.generatedImageSchema, Wire.image_json, Zod.object, Zod.field.
  set (sj := scenario_json (scenario image)).
  assert (Hs : scenarioSchema (Some sj) = Some (scenario image))
    by apply scenarioSchema_roundtrip.
  clearbody sj. compute_gets. cbn [Zod.string]. rewrite Hs. now destruct image.
Qed.

Lemma images_roundtrip (images : list GeminiImagePart) :
  Client.handleGenerateImages_parse (JObj [(str "images", JArr (map Wire.image_json images))])
  = Some images.
Proof.
  unfold Client.handleGenerateImages_parse, Client.imagesSchema, Zod.object, Zod.field.
  set (arr := JArr _). compute_gets. subst arr.
  apply (all_map Client.generatedImageSchema Wire.image_json). apply image_roundtrip.
Qed.

Lemma scenarios_reply_roundtrip (thread : jsstring) (l : list Scenario) :
  Client.handleGenerateScenarios_parse
    (JObj [(str "threadId", JStr thread); (str "scenarios", JArr (map scenario_json l))])
  = Some (l, JsSet.of_list (map id l)).
Proof.
  unfold Client.handleGenerateScenarios_parse.
  set (arr := JArr _). compute_gets. subst arr.
  now rewrite scenarios_roundtrip.
Qed.

(** X21. The page can read every 200 response of the scenario route: the
    parse of the reply never throws, the page then shows the scenarios
    of the response, in its order and with all their fields, at least
    one of them, every one selected, and with a file picked the render
    button is enabled. *)
Theorem page_shows_the_scenarios_of_the_reply (req : Request) (w : World) (body : Body) :
  fst (ScenariosRoute.POST req w) = Return (mkResponse 200 body) ->
  exists thread l data,
    body = ScenariosBody thread l
    /\ Wire.body_json body = Some data
    /\ Client.handleGenerateScenarios_parse data = Some (l, JsSet.of_list (map id l))
    /\ l <> []
    /\ Client.chosenScenarios l (JsSet.of_list (map id l)) = l
    /\ (forall file,
          Client.canGenerateImages (JsSet.of_list (map id l)) (Some file) false = true).
Proof.
  brief_cases req w; intros Hresp; try discriminate Hresp;
    try (exfalso; vm_compute in Hresp; discriminate Hresp).
  injection Hresp as <-.
  exists (ScenariosRoute.threadId parsed0), (scenarios b0). eexists.
  split; [reflexivity|]. split; [reflexivity|].
  split; [apply scenarios_reply_roundtrip|].
  pose proof (batch_accepted_nonempty j0 b0 Hbatch) as Hne.
  split; [exact Hne|]. split.
  - unfold Client.chosenScenarios. apply filter_all.
    apply Forall_forall. intros s Hs. apply has_of_list. now apply in_map.
  - intros file. unfold Client.canGenerateImages. cbn [negb andb].
    rewrite !andb_true_r. apply Nat.ltb_lt.
    destruct (scenarios b0) as [|s rest]; [contradiction|].
    unfold JsSet.size.
    assert (Hin : In (id s) (JsSet.of_list (map id (s :: rest)))).
    { apply has_In, has_of_list. now left. }
    destruct (JsSet.of_list (map id (s :: rest))); [destruct Hin|simpl; lia].
Qed.

(** X22. The page can read every batch of images the image route
    returns: the parse of the response gives back the images of the
    batch, each with its MIME type, its data and its scenario with all
    its fields, in the order of the batch. *)
Theorem page_reads_back_the_image_batch (images : list GeminiImagePart) :
  exists data,
    Wire.body_json (response_body (json_response (ImagesBody images))) = Some data
    /\ Client.handleGenerateImages_parse data = Some images.
Proof.
  eexists. split; [reflexivity|]. apply images_roundtrip.
Qed.

(** X23. From the page to the image route and back: when the page posts
    its request and the route answers with status 200, the gallery
    receives one image per chosen scenario, in the order in which the
    page shows them, each image with the scenario it was rendered for.
    The route has called the provider once per chosen scenario, in that
    order: the k-th call goes to the endpoint of the configured model
    with the configured key, carries the prompt built for the k-th
    chosen scenario from the product name and the settings of the page,
    and the image payload taken from the page's data URL with the MIME
    type of the file; it was answered with a success status, and the
    MIME type and the data of the k-th image of the gallery are those of
    the first inline part of that answer. *)
Theorem gallery_matches_the_chosen_scenarios (w : World) (threadId : option jsstring)
  (productName : jsstring) (scenarios : list Scenario) (selected : JsSet.t)
  (settings : GenerationSettings) (file : Client.File) (result : jsstring)
  (body : Json.value) (answer : Body) :
  Client.handleGenerateImages_body threadId productName scenarios selected settings file result
  = Some body ->
  fst (GenerateRoute.POST (mkRequest (Some body)) w) = Return (mkResponse 200 answer) ->
  let w' := snd (GenerateRoute.POST (mkRequest (Some body)) w) in
  exists apiKey images received,
    configured (GOOGLE_GEMINI_API_KEY (env w)) = Some apiKey
    /\ answer = ImagesBody images
    /\ Wire.body_json answer = Some received
    /\ Client.handleGenerateImages_parse received = Some images
    /\ map scenario images = Client.chosenScenarios scenarios selected
    /\ List.length (filter is_Fetch (emitted w w'))
       = List.length (Client.chosenScenarios scenarios selected)
    /\ Forall2
         (fun e image =>
            exists r json,
              e = Fetch (endpoint_under (env w)) apiKey
                    (GenerateRoute.fetch_body
                       (buildPrompt (scenario image) (Some productName) settings)
                       (GenerateRoute.mkProductImage (Client.toBase64 result)
                          (Client.mime_of file)))
                    (FetchResolves r)
              /\ ok r = true
              /\ response_json r = Some json
              /\ GenerateRoute.image_of (GenerateRoute.find_part json)
                 = Some (mimeType image, data image))
         (filter is_Fetch (emitted w w')) images.
Proof.
  intros Hbody.
  assert (Hschema :
    GenerateRoute.requestSchema (Some body)
    = match threadId with
      | None => None
      | Some thread =>
          if Nat.leb 10 (List.length (Client.toBase64 result))
             && Nat.leb 1 (List.length (Client.chosenScenarios scenarios selected))
             && ranged 1 5 (focusOnProduct settings) && ranged 1 12 (shots settings)
          then Some (GenerateRoute.mkPayload (Some thread) (Some productName)
                       (GenerateRoute.mkProductImage (Client.toBase64 result)
                          (Client.mime_of file))
                       (Client.chosenScenarios scenarios selected) settings)
          else None
      end).
  { unfold Client.handleGenerateImages_body in Hbody. cbv zeta in Hbody.
    destruct (Client.chosenScenarios scenarios selected) as [|sc chosen] eqn:Hchosen;
      [discriminate|].
    apply (f_equal (fun o => nullish o JNull)) in Hbody. cbn [nullish] in Hbody.
    subst body. apply page_image_request_schema. }
  set (req := mkRequest (Some body)).
  destruct (generate_rejected req w) as (Hmissing & _ & Hinvalid).
  destruct (configured (GOOGLE_GEMINI_API_KEY (env w))) as [apiKey|] eqn:Hkey.
  2:{ rewrite (Hmissing eq_refl). intros H. vm_compute in H. discriminate H. }
  destruct (GenerateRoute.requestSchema (Some body)) as [payload|] eqn:Hp.
  2:{ rewrite (Hinvalid apiKey body eq_refl eq_refl Hp). intros H. discriminate H. }
  assert (Hpayload :
    GenerateRoute.scenarios payload = Client.chosenScenarios scenarios selected
    /\ GenerateRoute.productImage payload
       = GenerateRoute.mkProductImage (Client.toBase64 result) (Client.mime_of file)
    /\ GenerateRoute.productName payload = Some productName
    /\ GenerateRoute.settings payload = settings).
  { destruct threadId; [|discriminate].
    destruct (_ && _ && _ && _); [|discriminate].
    injection Hschema as ->. now repeat split. }
  destruct Hpayload as (Hsc & Himg & Hname & Hsettings).
  rewrite (generate_accepted req w apiKey body payload Hkey eq_refl Hp). cbv zeta.
  fold (endpoint_under (env w)).
  destruct (render_run (endpoint_under (env w)) apiKey payload
              (GenerateRoute.scenarios payload) [] w)
    as (evs & _ & _ & Ht & Hfetch & Hr).
  cbv zeta in Ht, Hr.
  destruct (GenerateRoute.render (endpoint_under (env w)) apiKey payload
              (GenerateRoute.scenarios payload) [] w) as [[out|x] w1] eqn:Hrender;
    cbn [fst snd] in *.
  2:{ intros H. vm_compute in H. discriminate H. }
  destruct (handle_obtainable w); cbn [fst snd]; [|intros H; discriminate H].
  intros Hresp. injection Hresp as <-.
  destruct Hr as (_ & Hlen & _).
  destruct (render_images _ _ _ _ _ _ _ _ Hrender)
    as (evs' & images & Ht' & Hout & Hmap & Hall).
  assert (evs' = evs) as -> by (rewrite Ht in Ht'; now apply app_inv_head in Ht').
  simpl in Hout. subst out.
  destruct (persist_run payload images w1) as (w2 & after & Hrun & _ & Ht2 & Hafter & _).
  rewrite Hrun. cbn [snd].
  rewrite (emitted_app w w2 (evs ++ after)) by now rewrite Ht2, Ht, app_assoc.
  rewrite (filter_app_none _ _ _ Hfetch Hafter).
  exists apiKey, images. eexists. split; [reflexivity|]. split; [reflexivity|].
  split; [reflexivity|].
  split; [apply images_roundtrip|]. split; [now rewrite Hmap|].
  split; [now rewrite Hlen, Hsc|].
  revert Hall. apply Forall2_impl.
  intros e image (r & json & He & Hok & Hjson & Himage).
  exists r, json. unfold call_for in He. rewrite Himg, Hname, Hsettings in He.
  now repeat split.
Qed.

End RoundTrips.

(* ================================================================== *)
(** * What the prompts depend on *)
(* ================================================================== *)

Section Prompts.
Context {P : Providers} {L : Library}.

Lemma render_agree (endpoint key : jsstring) (p p' : GenerateRoute.Payload)
  (todo : list Scenario) :
  (forall sc,
      buildPrompt sc (GenerateRoute.productName p) (GenerateRoute.settings p)
      = buildPrompt sc (GenerateRoute.productName p') (GenerateRoute.settings p')) ->
  GenerateRoute.productImage p = GenerateRoute.productImage p' ->
  forall results w,
    GenerateRoute.render endpoint key p todo results w
    = GenerateRoute.render endpoint key p' todo results w.
Proof.
  intros Hprompt Himage. induction todo as [|sc todo IH]; intros results w;
    [reflexivity|].
  rewrite !render_cons. cbv zeta. rewrite Hprompt, Himage.
  destruct (fetch _ _ _ _) as [|r]; [reflexivity|].
  destruct (ok r); [|reflexivity].
  destruct (response_json r) as [j|]; [|reflexivity].
  destruct (GenerateRoute.image_of (GenerateRoute.find_part j)) as [[mime dat]|];
    [|reflexivity].
  apply IH.
Qed.

(** X24. The shot count of the settings and the thread id never reach
    the image provider: two accepted requests that differ in these alone
    are given the same prompts, lead to the same calls and get the same
    response. *)
Theorem shot_count_does_not_reach_the_provider (req req' : Request) (w : World)
  (apiKey : jsstring) (js js' : Json.value) (p p' : GenerateRoute.Payload) :
  configured (GOOGLE_GEMINI_API_KEY (env w)) = Some apiKey ->
  request_json req = Some js ->
  GenerateRoute.requestSchema (Some js) = Some p ->
  request_json req' = Some js' ->
  GenerateRoute.requestSchema (Some js') = Some p' ->
  GenerateRoute.scenarios p = GenerateRoute.scenarios p' ->
  GenerateRoute.productName p = GenerateRoute.productName p' ->
  GenerateRoute.productImage p = GenerateRoute.productImage p' ->
  same_but_shots (GenerateRoute.settings p) (GenerateRoute.settings p') ->
  fst (GenerateRoute.POST req w) = fst (GenerateRoute.POST req' w)
  /\ filter is_Fetch (emitted w (snd (GenerateRoute.POST req w)))
     = filter is_Fetch (emitted w (snd (GenerateRoute.POST req' w)))
  /\ (forall sc,
        buildPrompt sc (GenerateRoute.productName p) (GenerateRoute.settings p)
        = buildPrompt sc (GenerateRoute.productName p') (GenerateRoute.settings p')).
Proof.
  intros Hkey Hjs Hp Hjs' Hp' Hsc Hname Himage
    (Hf & Hvs & Ht & Ho & Hq & Ham & Hrp & Hic).
  assert (Hprompt : forall sc,
    buildPrompt sc (GenerateRoute.productName p) (GenerateRoute.settings p)
    = buildPrompt sc (GenerateRoute.productName p') (GenerateRoute.settings p')).
  { intros sc. unfold buildPrompt, prompt_notes.
    now rewrite Hname, Hf, Hvs, Ht, Ho, Hq, Ham, Hrp, Hic. }
  rewrite (generate_accepted req w apiKey js p Hkey Hjs Hp).
  rewrite (generate_accepted req' w apiKey js' p' Hkey Hjs' Hp'). cbv zeta.
  set (endpoint := GenerateRoute.endpoint_of _).
  rewrite <- Hsc.
  rewrite <- (render_agree endpoint apiKey p p' (GenerateRoute.scenarios p)
                Hprompt Himage [] w).
  destruct (render_run endpoint apiKey p (GenerateRoute.scenarios p) [] w)
    as (evs & _ & _ & Htr & Hfetch & _).
  cbv zeta in Htr.
  destruct (GenerateRoute.render endpoint apiKey p (GenerateRoute.scenarios p) [] w)
    as [[out|x] w1]; cbn [fst snd] in *.
  - destruct (handle_obtainable w); cbn [fst snd]; [|now repeat split].
    split; [reflexivity|]. split; [|exact Hprompt].
    destruct (persist_run p out w1) as (w2 & after & Hrun & _ & Ht2 & Hafter & _).
    destruct (persist_run p' out w1) as (w2' & after' & Hrun' & _ & Ht2' & Hafter' & _).
    rewrite Hrun, Hrun'. cbn [snd].
    rewrite (emitted_app w w2 (evs ++ after)) by now rewrite Ht2, Htr, app_assoc.
    rewrite (emitted_app w w2' (evs ++ after')) by now rewrite Ht2', Htr, app_assoc.
    now rewrite !(filter_app_none _ _ _ Hfetch).
  - now repeat split.
Qed.

Lemma brief_read (fields : list (jsstring * Json.value))
  (parsed : ScenariosRoute.Payload) :
  ScenariosRoute.scenarioRequestSchema (Some (JObj fields)) = Some parsed ->
  Json.get (str "audience") fields = Some (JStr (ScenariosRoute.audience parsed))
  /\ Json.get (str "productDetails") fields
     = Some (JStr (ScenariosRoute.productDetails parsed))
  /\ (Json.get (str "productName") fields = None ->
      ScenariosRoute.productName parsed = None)
  /\ (Json.get (str "niche") fields = None -> ScenariosRoute.niche parsed = None)
  /\ (Json.get (str "shots") fields = None ->
      ScenariosRoute.shots parsed = inject_Z 6)
  /\ (Json.get (str "focusOnProduct") fields = None ->
      ScenariosRoute.focusOnProduct parsed = inject_Z 3)
  /\ (Json.get (str "additionalNotes") fields = None ->
      ScenariosRoute.additionalNotes parsed = None)
  /\ (Json.get (str "additionalNotes") fields = Some (JArr []) ->
      ScenariosRoute.additionalNotes parsed = Some []).
Proof.
  unfold ScenariosRoute.scenarioRequestSchema, Zod.object, Zod.field.
  destruct (Zod.string (Json.get (str "threadId") fields)) as [t|]; [|discriminate].
  destruct (Zod.min_length 1 Zod.string (Json.get (str "audience") fields))
    as [a|] eqn:Ha; [|discriminate].
  destruct (Zod.min_length 1 Zod.string (Json.get (str "productDetails") fields))
    as [d|] eqn:Hd; [|discriminate].
  destruct (Zod.optional Zod.string (Json.get (str "productName") fields))
    as [pn|] eqn:Hpn; [|discriminate].
  destruct (Zod.optional Zod.string (Json.get (str "niche") fields))
    as [n|] eqn:Hn; [|discriminate].
  destruct (Zod.optional Zod.string (Json.get (str "tone") fields))
    as [tn|]; [|discriminate].
  destruct (Zod.optional Zod.string (Json.get (str "visualStyle") fields))
    as [vs|]; [|discriminate].
  destruct (ScenariosRoute.shotsSchema (Json.get (str "shots") fields))
    as [sh|] eqn:Hsh; [|discriminate].
  destruct (ScenariosRoute.focusOnProductSchema (Json.get (str "focusOnProduct") fields))
    as [f|] eqn:Hf; [|discriminate].
  destruct (Zod.optional (Zod.array Zod.string) (Json.get (str "additionalNotes") fields))
    as [an|] eqn:Han; [|discriminate].
  intros H. injection H as <-. cbn.
  assert (Hstr : forall v s, Zod.min_length 1 Zod.string v = Some s -> v = Some (JStr s)).
  { intros v s Hv. unfold Zod.min_length, Zod.check in Hv.
    destruct (Zod.string v) as [s'|] eqn:Hs; [|discriminate].
    apply string_accepts in Hs. destruct (Nat.leb _ _); [|discriminate].
    now injection Hv as <-. }
  split; [now apply Hstr|]. split; [now apply Hstr|].
  split. { intros Hnone. rewrite Hnone in Hpn. now injection Hpn as <-. }
  split. { intros Hnone. rewrite Hnone in Hn. now injection Hn as <-. }
  split. { intros Hnone. rewrite Hnone in Hsh. vm_compute in Hsh. now injection Hsh as <-. }
  split. { intros Hnone. rewrite Hnone in Hf. vm_compute in Hf. now injection Hf as <-. }
  split. { intros Hnone. rewrite Hnone in Han. now injection Han as <-. }
  intros Hempty. rewrite Hempty in Han. now injection Han as <-.
Qed.

Lemma Occurs_here (x rest : jsstring) : Occurs x (x ++ rest).
Proof. now exists [], rest. Qed.

Lemma Occurs_line (label value rest : jsstring) :
  Occurs (label ++ value ++ ScenariosRoute.nl)
    (label ++ value ++ ScenariosRoute.nl ++ rest).
Proof. exists [], rest. now rewrite <- !app_assoc. Qed.

(** X25. The message the scenario route posts to the thread tells the
    assistant what the brief says: it holds the audience and the product
    details as the request gave them, each on its line; a product name
    or niche that is absent is given as Unknown and Not provided, an
    absent shot count and focus level as 6 and 3, absent extra
    considerations as None, and an empty list of them as an empty
    line. *)
Theorem brief_prompt_tells_the_request (fields : list (jsstring * Json.value))
  (parsed : ScenariosRoute.Payload) :
  ScenariosRoute.scenarioRequestSchema (Some (JObj fields)) = Some parsed ->
  let prompt := ScenariosRoute.contextPrompt parsed in
  let line label value := includes prompt (str label ++ value ++ ScenariosRoute.nl) in
  (forall a, Json.get (str "audience") fields = Some (JStr a) ->
             line "Audience: "%string a = true)
  /\ (forall d, Json.get (str "productDetails") fields = Some (JStr d) ->
                line "Product details: "%string d = true)
  /\ (Json.get (str "productName") fields = None ->
      line "Product name: "%string (str "Unknown") = true)
  /\ (Json.get (str "niche") fields = None ->
      line "Product niche: "%string (str "Not provided") = true)
  /\ (Json.get (str "shots") fields = None ->
      line "Shots requested: "%string (str "6") = true)
  /\ (Json.get (str "focusOnProduct") fields = None ->
      line "Focus on product (1-5): "%string (str "3") = true)
  /\ (Json.get (str "additionalNotes") fields = None ->
      line "Extra considerations: "%string (str "None") = true)
  /\ (Json.get (str "additionalNotes") fields = Some (JArr []) ->
      line "Extra considerations: "%string [] = true).
Proof.
  intros Hp prompt line.
  destruct (brief_read fields parsed Hp) as (Ha & Hd & Hpn & Hn & Hsh & Hf & Han & Han').
  subst line prompt. cbv beta. unfold ScenariosRoute.contextPrompt.
  repeat split.
  - intros a Hget. rewrite Ha in Hget. injection Hget as <-.
    apply includes_iff. do 9 apply Occurs_app_r. apply Occurs_line.
  - intros d Hget. rewrite Hd in Hget. injection Hget as <-.
    apply includes_iff. do 12 apply Occurs_app_r. apply Occurs_line.
  - intros Hnone. rewrite (Hpn Hnone). cbn [nullish].
    apply includes_iff. do 3 apply Occurs_app_r. apply Occurs_line.
  - intros Hnone. rewrite (Hn Hnone). cbn [nullish].
    apply includes_iff. do 6 apply Occurs_app_r. apply Occurs_line.
  - intros Hnone. rewrite (Hsh Hnone).
    rewrite (toString_integer (inject_Z 6) 6) by (reflexivity || (simpl; lia)).
    change (JsNumber.decimal 6) with (str "6").
    apply includes_iff. do 21 apply Occurs_app_r. apply Occurs_line.
  - intros Hnone. rewrite (Hf Hnone).
    rewrite (toString_integer (inject_Z 3) 3) by (reflexivity || (simpl; lia)).
    change (JsNumber.decimal 3) with (str "3").
    apply includes_iff. do 24 apply Occurs_app_r. apply Occurs_line.
  - intros Hnone. rewrite (Han Hnone). cbn [option_map nullish].
    apply includes_iff. do 27 apply Occurs_app_r. apply Occurs_line.
  - intros Hempty. rewrite (Han' Hempty). cbn [option_map nullish join].
    apply includes_iff. do 27 apply Occurs_app_r. apply Occurs_line.
Qed.

End Prompts.

(* ================================================================== *)
(** * More concrete runs *)
(* ================================================================== *)

Import Sample.

(** The second of two calls is refused: two calls, for the two scenarios
    in order. *)
Lemma provider_calls_follow_scenarios_witness :
  let w := Process.boot env_no_datastore in
  let req := generate_request [scenario_a; scenario_b] in
  let payload := generate_payload [scenario_a; scenario_b] in
  exists called rest,
    [scenario_a; scenario_b] = called ++ rest
    /\ called <> []
    /\ Forall2 (fun sc e =>
                  exists outcome,
                    e = @call_for second_call_refused (endpoint_under env_no_datastore)
                          (str "g-key") payload sc outcome)
         called
         (filter is_Fetch
            (emitted w (snd (@GenerateRoute.POST second_call_refused supabase_js req w)))).
Proof.
  intros w req payload.
  destruct (@provider_calls_follow_scenarios second_call_refused supabase_js req w (str "g-key")
              (generate_body [scenario_a; scenario_b]) payload)
    as (called & rest & Hsplit & Hne & Hcalls & _).
  - reflexivity.
  - reflexivity.
  - reflexivity.
  - exists called, rest. repeat split; assumption.
Defined.

(** The second call is refused: status 500, the refusal logged, the
    datastore left alone although it is configured. *)
Lemma failed_call_ends_the_request_witness :
  let w := Process.boot env_all in
  let req := generate_request [scenario_a; scenario_b] in
  let w' := snd (@GenerateRoute.POST second_call_refused supabase_js req w) in
  fst (@GenerateRoute.POST second_call_refused supabase_js req w) = Return generic_failure
  /\ Forall (fun c => is_datastore_event c = false) (emitted w w')
  /\ cachedClient w' = None.
Proof.
  intros w req w'.
  destruct (@failed_call_ends_the_request second_call_refused supabase_js req w
              (nth 1 (emitted w w') (Clock [])))
    as (Hresp & _ & Hnone & Hcache & _).
  - vm_compute. right. left. reflexivity.
  - reflexivity.
  - reflexivity.
  - repeat split; assumption.
Defined.

(** Two images stored: after the calls, one handle is constructed, the
    clock is read twice, and one insert carries two rows, for the
    scenarios a and b. *)
Lemma metadata_rows_mirror_images_witness :
  let w := Process.boot env_all in
  let req := generate_request [scenario_a; scenario_b] in
  let payload := generate_payload [scenario_a; scenario_b] in
  let images := [mkImagePart (str "image/png") (str "AAA") scenario_a;
                 mkImagePart (str "image/png") (str "BBB") scenario_b] in
  let w' := snd (@GenerateRoute.POST all_well supabase_js req w) in
  exists calls isos error,
    let client := mkClient 0 (str "https://db.example") (str "service-role") false false in
    emitted w w'
    = calls
      ++ [CreateClient client]
      ++ map Clock isos
      ++ [Insert client (str "ugc_generations") (rows_of payload images isos) error]
      ++ (match error with Some err => [ConsoleWarn warning_text err] | None => [] end)
    /\ List.length isos = 2
    /\ map scenario_id (rows_of payload images isos) = [str "a"; str "b"].
Proof.
  intros w req payload images w'.
  destruct (@metadata_rows_mirror_images all_well supabase_js req w (str "g-key")
              (str "https://db.example") (str "service-role")
              (generate_body [scenario_a; scenario_b]) payload images)
    as (calls & client & isos & error & Hemitted & _ & Hlen & Hids & _ & Hclient).
  - reflexivity.
  - reflexivity.
  - reflexivity.
  - reflexivity.
  - reflexivity.
  - reflexivity.
  - exists calls, isos, error. cbv zeta. subst client.
    split; [exact Hemitted|]. split; [exact Hlen|exact Hids].
Defined.

(** No datastore configured: two images, two events, both calls. *)
Lemma without_datastore_nothing_is_persisted_witness :
  let w := Process.boot env_no_datastore in
  let req := generate_request [scenario_a; scenario_b] in
  let w' := snd (@GenerateRoute.POST two_images supabase_js req w) in
  Forall (fun e => is_datastore_event e = false) (emitted w w')
  /\ cachedClient w' = None
  /\ List.length (emitted w w') = 2.
Proof.
  intros w req w'.
  destruct (@without_datastore_nothing_is_persisted two_images supabase_js req w)
    as (Hnone & Hcache & _ & Himages).
  - left. reflexivity.
  - split; [exact Hnone|]. split; [exact Hcache|].
    destruct (Himages [mkImagePart (str "image/png") (str "AAA") scenario_a;
                       mkImagePart (str "image/png") (str "BBB") scenario_b])
      as (_ & Hlen).
    + reflexivity.
    + exact Hlen.
Defined.

(** A body with an empty scenario list: status 400, nothing done. *)
Lemma malformed_generate_payload_is_refused_witness :
  let w := Process.boot env_all in
  @GenerateRoute.POST two_images supabase_js empty_batch_request w
  = (Return (mkResponse 400 (InvalidBody (str "Invalid generate payload"))), w).
Proof.
  intros w.
  destruct (@malformed_generate_payload_is_refused two_images supabase_js empty_batch_request w
              (str "g-key") (generate_body []))
    as (Hrun & _).
  - reflexivity.
  - reflexivity.
  - right. eexists. split; [reflexivity|]. right. left. reflexivity.
  - exact Hrun.
Defined.

(** The assistant completes its run and replies with one scenario: three
    calls, and the scenario in the response. *)
Lemma successful_brief_is_three_assistant_calls_witness :
  let w := Process.boot env_all in
  let w' := snd (@ScenariosRoute.POST (assistant_says plain_doc) plain_brief w) in
  exists parsed messages,
    emitted w w'
    = [MessagesCreate (ScenariosRoute.threadId parsed)
         (@ScenariosRoute.contextPrompt (assistant_says plain_doc) parsed) true;
       RunsCreateAndPoll (ScenariosRoute.threadId parsed) (str "asst_1")
         ScenariosRoute.instructions (Some (str "completed"));
       MessagesList (ScenariosRoute.threadId parsed) (Some messages)]
    /\ ScenariosRoute.find_text messages = Some (TextPart plain_doc).
Proof.
  intros w w'.
  destruct (@successful_brief_is_three_assistant_calls (assistant_says plain_doc)
              plain_brief w (ScenariosBody (str "thread_1") (scenarios one_scenario)))
    as (assistantId & fields & parsed & messages & text & j & b
        & Hid & _ & _ & _ & Hemitted & Htext & _).
  - reflexivity.
  - exists parsed, messages. injection Hid as <-. split; [exact Hemitted|].
    rewrite Htext. f_equal. f_equal.
    fold w' in Hemitted.
    assert (Hlast : nth 2 (emitted w w') (Clock [])
                    = MessagesList (ScenariosRoute.threadId parsed) (Some messages))
      by now rewrite Hemitted.
    vm_compute in Hlast. injection Hlast as _ Hm. subst messages.
    vm_compute in Htext. injection Htext as <-. reflexivity.
Defined.

(** The run ends with status failed: status 500, the messages are not
    listed. *)
Lemma unfinished_run_fails_the_request_witness :
  let w := Process.boot env_all in
  let w' := snd (@ScenariosRoute.POST run_fails plain_brief w) in
  fst (@ScenariosRoute.POST run_fails plain_brief w) = Return scenarios_failure
  /\ Forall (fun e => is_MessagesList e = false) (emitted w w')
  /\ @message (@format run_fails) (RunNotCompleted (str "failed"))
     = Some (str "Assistant run finished with status " ++ str "failed").
Proof.
  intros w w'.
  destruct (@unfinished_run_fails_the_request run_fails plain_brief w
              (str "thread_1") (str "asst_1") ScenariosRoute.instructions (str "failed"))
    as (Hresp & _ & Hnone & Hmessage).
  - vm_compute. right. left. reflexivity.
  - intros H. vm_compute in H. discriminate H.
  - repeat split; assumption.
Defined.

(** The run cannot be created: status 500 right after that call. *)
Lemma failed_assistant_call_ends_the_conversation_witness :
  let w := Process.boot env_all in
  let w' := snd (@ScenariosRoute.POST no_run plain_brief w) in
  fst (@ScenariosRoute.POST no_run plain_brief w) = Return scenarios_failure
  /\ exists before,
       emitted w w'
       = before
         ++ [RunsCreateAndPoll (str "thread_1") (str "asst_1") ScenariosRoute.instructions
               None;
             ConsoleError (str "Failed to generate scenarios") AssistantFailed]
       /\ List.length before <= 2.
Proof.
  intros w w'.
  destruct (@failed_assistant_call_ends_the_conversation no_run plain_brief w
              (RunsCreateAndPoll (str "thread_1") (str "asst_1")
                 ScenariosRoute.instructions None))
    as (Hresp & before & Hemitted & Hlen & _).
  - vm_compute. right. left. reflexivity.
  - right. left. now eexists _, _, _.
  - split; [exact Hresp|]. exists before. now split.
Defined.

(** The latest assistant message is a picture, the one before it a valid
    batch: status 500. *)
Lemma only_first_assistant_message_is_read_witness :
  let w := Process.boot env_all in
  fst (@ScenariosRoute.POST assistant_sends_picture plain_brief w)
  = Return scenarios_failure
  /\ ScenariosRoute.find_text [mkMessage (str "assistant") [TextPart plain_doc]]
     = Some (TextPart plain_doc).
Proof.
  intros w.
  destruct (@only_first_assistant_message_is_read assistant_sends_picture plain_brief w
              (str "thread_1")
              [mkMessage (str "user") [TextPart (str "brief")]]
              [mkMessage (str "assistant") [TextPart plain_doc]]
              (mkMessage (str "assistant") [OtherPart (str "image_file")]))
    as (Hresp & _).
  - vm_compute. right. right. left. reflexivity.
  - repeat constructor.
  - reflexivity.
  - repeat constructor.
  - split; [exact Hresp|reflexivity].
Defined.

(** The assistant answers in prose: status 500, a syntax error logged. *)
Lemma unusable_reply_fails_the_request_witness :
  let w := Process.boot env_all in
  let says := assistant_says (str "Here are six ideas for you.") in
  fst (@ScenariosRoute.POST says plain_brief w) = Return scenarios_failure
  /\ exists calls,
       emitted w (snd (@ScenariosRoute.POST says plain_brief w))
       = calls ++ [ConsoleError (str "Failed to generate scenarios") SyntaxError].
Proof.
  intros w says.
  destruct (@unusable_reply_fails_the_request says plain_brief w (str "thread_1")
              (thread_with (str "Here are six ideas for you."))
              (str "Here are six ideas for you."))
    as (Hsyntax & _).
  - vm_compute. right. right. left. reflexivity.
  - reflexivity.
  - apply Hsyntax. reflexivity.
Defined.

(** No credential at all: the configuration error, the world untouched. *)
Lemma missing_assistant_credential_fails_first_witness :
  let w := Process.boot env_none in
  @ScenariosRoute.POST (assistant_says plain_doc) thirteen_shots w
  = (Return missing_assistant_response, w).
Proof.
  intros w.
  apply (proj1 (@missing_assistant_credential_fails_first (assistant_says plain_doc)
                  thirteen_shots w)).
  left. reflexivity.
Defined.

(** A brief with an empty audience: status 400, nothing posted. *)
Lemma malformed_brief_is_refused_witness :
  let w := Process.boot env_all in
  let req := mkRequest (Some brief_without_audience) in
  @ScenariosRoute.POST (assistant_says plain_doc) req w
  = (Return (mkResponse 400 (InvalidBody (str "Invalid scenario request payload"))), w)
  /\ emitted w (snd (@ScenariosRoute.POST (assistant_says plain_doc) req w)) = [].
Proof.
  intros w req.
  apply (@malformed_brief_is_refused (assistant_says plain_doc) req w
           (str "sk-test") (str "asst_1") brief_without_audience).
  - reflexivity.
  - reflexivity.
  - reflexivity.
  - right. eexists. split; [reflexivity|]. right. right. left. reflexivity.
Defined.

(** Of the two selected ids, a is clicked: b stays selected, a does not. *)
Lemma toggleScenario_flips_one_id_witness :
  let current := [str "a"; str "b"] in
  JsSet.has (Client.toggleScenario (str "a") current) (str "a") = false
  /\ JsSet.has (Client.toggleScenario (str "a") current) (str "b") = true
  /\ S (JsSet.size (Client.toggleScenario (str "a") current)) = 2.
Proof.
  intros current.
  destruct (toggleScenario_flips_one_id (str "a") current)
    as (Hflip & Hother & _ & Hsize & _).
  - repeat constructor; intros H; vm_compute in H; decompose [or] H;
      try discriminate; contradiction.
  - split; [exact Hflip|]. split; [|exact Hsize].
    apply (Hother (str "b")). intros H. vm_compute in H. discriminate H.
Defined.

(** Both cards are selected; a is clicked off, then b, then a is clicked
    on again: one id selected, the button enabled, a request to send. *)
Lemma selection_stays_within_the_batch_witness :
  let selected := selection_after [str "a"; str "b"; str "a"] both_selected in
  NoDup selected
  /\ Client.handleGenerateImages_body (Some (str "thread_1")) (str "Bottle") shown selected
       Client.defaultSettings picked data_url
     <> None.
Proof.
  intros selected.
  destruct (selection_stays_within_the_batch shown [str "a"; str "b"; str "a"])
    as (Hnd & _ & _ & Hrequest).
  - repeat constructor; vm_compute;
      first [left; reflexivity | right; left; reflexivity].
  - split; [exact Hnd|]. apply Hrequest. reflexivity.
Defined.

(** The data URL of a PNG file: the payload after the comma. *)
Lemma toBase64_keeps_the_payload_witness :
  Client.toBase64 data_url = str "iVBORw0KGgoAAAANSUhEUg"
  /\ Client.toBase64 (str "data:image/png;base64") = str "data:image/png;base64".
Proof.
  destruct (toBase64_keeps_the_payload (str "data:image/png;base64")
              (str "iVBORw0KGgoAAAANSUhEUg"))
    as (Hpayload & Hwhole & _).
  - intros H. vm_compute in H. decompose [or] H; try discriminate; contradiction.
  - intros H. vm_compute in H. decompose [or] H; try discriminate; contradiction.
  - split; [exact Hpayload|exact Hwhole].
Defined.

(** The form filled in, the default settings: the route reads the brief
    as entered, with the label of the one toggle that is on. *)
Lemma page_brief_is_read_as_sent_witness :
  exists body,
    Client.handleGenerateScenarios_body (Some (str "thread_1")) (str "runners") (str "a water bottle")
      (str "Bottle") [] Client.defaultSettings
    = Some body
    /\ ScenariosRoute.scenarioRequestSchema (Some body)
       = Some (ScenariosRoute.mkPayload (str "thread_1") (str "runners")
                 (str "a water bottle") (Some (str "Bottle")) (Some [])
                 (Some (str "Playful")) (Some (str "Natural")) (inject_Z 6) (inject_Z 3)
                 (Some [str "Retouch product"])).
Proof.
  eexists. split; [reflexivity|].
  destruct (page_brief_is_read_as_sent (Some (str "thread_1")) (str "runners")
              (str "a water bottle") (str "Bottle") [] Client.defaultSettings _ eq_refl)
    as (thread & Hthread & _ & Hschema & _).
  injection Hthread as <-. exact Hschema.
Defined.

(** The page with two scenarios selected and a PNG picked: the route
    reads the request as sent. *)
Lemma page_image_request_is_read_as_sent_witness :
  GenerateRoute.requestSchema (Some (page_body Client.defaultSettings))
  = Some (page_payload Client.defaultSettings).
Proof.
  destruct (page_image_request_is_read_as_sent (Some (str "thread_1"))
              (str "Bottle") shown both_selected Client.defaultSettings picked data_url
              (page_body Client.defaultSettings) eq_refl)
    as (_ & Hschema).
  exact Hschema.
Defined.

(** The reply with one scenario: the page shows it, selected. *)
Lemma page_shows_the_scenarios_of_the_reply_witness :
  let w := Process.boot env_all in
  exists data,
    Wire.body_json (ScenariosBody (str "thread_1") (scenarios one_scenario)) = Some data
    /\ Client.handleGenerateScenarios_parse data = Some (scenarios one_scenario, [str "a"]).
Proof.
  intros w.
  destruct (@page_shows_the_scenarios_of_the_reply (assistant_says plain_doc) plain_brief w
              (ScenariosBody (str "thread_1") (scenarios one_scenario)))
    as (thread & l & data & Hbody & Hwire & Hloaded & _).
  - reflexivity.
  - exists data. injection Hbody as <- <-. split; [exact Hwire|exact Hloaded].
Defined.

(** The page posts its two scenarios, both calls give an image: the
    gallery receives the images for a and b, in this order. *)
Lemma gallery_matches_the_chosen_scenarios_witness :
  let w := Process.boot env_no_datastore in
  let req := mkRequest (Some (page_body Client.defaultSettings)) in
  exists images data,
    fst (@GenerateRoute.POST two_images supabase_js req w)
    = Return (mkResponse 200 (ImagesBody images))
    /\ Wire.body_json (ImagesBody images) = Some data
    /\ Client.handleGenerateImages_parse data = Some images
    /\ map scenario images = [scenario_a; scenario_b].
Proof.
  intros w req.
  destruct (@gallery_matches_the_chosen_scenarios two_images supabase_js w (Some (str "thread_1"))
              (str "Bottle") shown both_selected Client.defaultSettings picked data_url
              (page_body Client.defaultSettings)
              (ImagesBody [mkImagePart (str "image/png") (str "AAA") scenario_a;
                           mkImagePart (str "image/png") (str "BBB") scenario_b]))
    as (apiKey & images & data & _ & Hanswer & Hwire & Hloaded & Hmap & _).
  - reflexivity.
  - reflexivity.
  - exists images, data. rewrite <- Hanswer.
    split; [reflexivity|]. split; [exact Hwire|]. split; [exact Hloaded|exact Hmap].
Defined.

(** Six shots or twelve: the same calls and the same response. *)
Lemma shot_count_does_not_reach_the_provider_witness :
  let w := Process.boot env_all in
  let six := mkRequest (Some (page_body Client.defaultSettings)) in
  let twelve := mkRequest (Some (page_body twelve_shots)) in
  fst (@GenerateRoute.POST all_well supabase_js six w)
  = fst (@GenerateRoute.POST all_well supabase_js twelve w)
  /\ filter is_Fetch (emitted w (snd (@GenerateRoute.POST all_well supabase_js six w)))
     = filter is_Fetch (emitted w (snd (@GenerateRoute.POST all_well supabase_js twelve w))).
Proof.
  intros w six twelve.
  destruct (@shot_count_does_not_reach_the_provider all_well supabase_js six twelve w (str "g-key")
              (page_body Client.defaultSettings) (page_body twelve_shots)
              (page_payload Client.defaultSettings) (page_payload twelve_shots))
    as (Hresp & Hcalls & _).
  - reflexivity.
  - reflexivity.
  - reflexivity.
  - reflexivity.
  - reflexivity.
  - reflexivity.
  - reflexivity.
  - reflexivity.
  - repeat split.
  - split; [exact Hresp|exact Hcalls].
Defined.

(** A brief that names audience and product details only. *)
Lemma brief_prompt_tells_the_request_witness :
  let prompt := @ScenariosRoute.contextPrompt (assistant_says plain_doc) plain_payload in
  includes prompt (str "Audience: " ++ str "runners" ++ ScenariosRoute.nl) = true
  /\ includes prompt (str "Shots requested: " ++ str "6" ++ ScenariosRoute.nl) = true
  /\ includes prompt (str "Extra considerations: " ++ str "None" ++ ScenariosRoute.nl) = true.
Proof.
  intros prompt.
  destruct (@brief_prompt_tells_the_request (assistant_says plain_doc)
              ([(str "threadId", JStr (str "thread_1"));
                (str "audience", JStr (str "runners"));
                (str "productDetails", JStr (str "a water bottle"))] ++ [])
              plain_payload)
    as (Haudience & _ & _ & _ & Hshots & _ & Hnotes & _).
  - reflexivity.
  - split; [apply Haudience; reflexivity|].
    split; [apply Hshots; reflexivity|apply Hnotes; reflexivity].
Defined.
